(** * Avatar engine: animation state synchronisation and adaptive playback

    A shallow embedding of the parts of the avatar engine that carry the
    channel-state pipeline:

    - [Codec]      : [DeltaCompressor.compress] (backend/compression/delta_compressor.py,
                     quoted in the architecture document);
    - [Validator]  : [MorphValidator.validate_morphs] of the same document;
    - [Client]     : [OptimizedFacialAnimationClient] (delta decoding, frame
                     interpolation and the animation loop);
    - [Morph]      : [OptimizedMorphSystem] (selective updates, active-morph cap,
                     priority morphs, LOD, quality presets);
    - [Controller] : the dynamic quality adjustment loop of the optimisation guide;
    - [MorphOps]   : the rest of [OptimizedMorphSystem] ([updateLOD], [tick],
                     [processDirtyMorphs], [applyMorph], [interpolateMorphs],
                     [resetAll]) with the values it writes to the meshes;
    - [ClientOps]  : [setInterpolationEnabled] of the client;
    - [Monitor]    : the timing part of [PerformanceMonitor] ([begin], [end],
                     [updateStats], [updateHistory], [getReport], [reset]);
    - [Emotion], [RateLimiter], [StateManager] : [blend_emotion],
                     [RateLimiter.check_limit] and [StateManager.checkpoint] /
                     [recover] of the architecture document.

    Numbers.  JavaScript and Python numbers are IEEE doubles; here every
    channel weight and every time stamp is an exact rational ([Q]).  All the
    statements below are about the algorithms (which comparison guards which
    assignment, which value is copied where), not about rounding.

    Maps.  JS objects and Python dicts used as channel maps are [gmap string Q];
    JS [Set]s of morph names are [gset string].  A snapshot handed to
    [updateMorphs] is kept as an association list because the order of its
    entries decides which non-priority morphs reach the cap first. *)

From Stdlib Require Import Ascii QArith Qabs Qround Lqa Sorted.
From stdpp Require Import gmap strings pretty list fin_maps fin_sets.

Local Open Scope Q_scope.

(** ** Numeric helpers *)

Module Num.

(** [a < b] on numbers, as a boolean. *)
Definition Qltb (a b : Q) : bool := negb (Qle_bool b a).

(** [a >= b] on numbers, as a boolean. *)
Definition Qgeb (a b : Q) : bool := Qle_bool b a.

(** [Math.min(a, b)]. *)
Definition Math_min (a b : Q) : Q := if Qltb b a then b else a.

(** [x || 0] for a property read [obj[key]] that yields a number or
    [undefined]. *)
Definition orZero (o : option Q) : Q := default 0 o.

(** The decode-time range property as the specification words it: every
    value of a channel map lies in [[0,1]]. *)
Definition spec_clamped (m : gmap string Q) : Prop :=
  forall (morph : string) (v : Q), m !! morph = Some v -> 0 <= v /\ v <= 1.

End Num.

(** ** The easing curve of the interpolation stage *)

Module Easing.
Import Num.

(** The body of the per-morph easing in [updateInterpolation]:
<<
    if (t < 0.5) { eased = 4 * t * t * t; }
    else { const p = 2 * t - 2; eased = 1 + p * p * p / 2; }
>> *)
Definition eased (t : Q) : Q :=
  if Qltb t (1#2) then 4 * t * t * t
  else let p := 2 * t - 2 in 1 + p * p * p / 2.

(** The curve as the specification words it: [4t^3] below one half,
    [1 - (-2t+2)^3 / 2] otherwise. *)
Definition spec_eased (t : Q) : Q :=
  if Qltb t (1#2) then 4 * (t * t * t)
  else 1 - ((-2 * t + 2) * (-2 * t + 2) * (-2 * t + 2)) / 2.

(** [clamp(x, lo, hi)] as the specification words it. *)
Definition spec_clamp (x lo hi : Q) : Q :=
  if Qltb x lo then lo else if Qltb hi x then hi else x.

End Easing.

(** ** DeltaCompressor (backend/compression/delta_compressor.py) *)

Module Codec.
Import Num.

(** The literal [0.001] of both loops. *)
Definition wire_epsilon : Q := 1 # 1000.

(** The test of the first loop:
    [key not in previous or abs(value - previous[key]) > 0.001]. *)
Definition changed (previous : gmap string Q) (key : string) (value : Q) : bool :=
  match previous !! key with
  | None => true
  | Some old => Qltb wire_epsilon (Qabs (value - old))
  end.

(** The test of the second loop: [key not in current and value > 0.001]. *)
Definition removed (current : gmap string Q) (key : string) (value : Q) : bool :=
  match current !! key with
  | None => Qltb wire_epsilon value
  | Some _ => false
  end.

(** [DeltaCompressor.compress(current, previous)], up to the MessagePack
    packing of the resulting dict, which the receiver undoes. *)
Definition compress (current previous : gmap string Q) : gmap string Q :=
  let delta :=
    map_fold (fun key value delta =>
                if changed previous key value then <[key := value]> delta
                else delta) ∅ current in
  map_fold (fun key value delta =>
              if removed current key value then <[key := 0]> delta
              else delta) delta previous.

(** The round-trip law as the specification words it: the channels the
    encoded delta carries (those the decoder overwrites) are exactly the
    channels whose value differs from the reference by more than the wire
    epsilon, a missing channel counting as 0. *)
Definition spec_roundtrip_law (current reference : gmap string Q) : Prop :=
  forall key : string,
    is_Some (compress current reference !! key)
    <-> wire_epsilon < Qabs (orZero (current !! key) - orZero (reference !! key)).

End Codec.

(** ** MorphValidator (input validation of the backend) *)

Module Validator.
Import Num.

(** A character of the class [[A-Za-z0-9_]]. *)
Definition isWordChar (a : ascii) : bool :=
  let n := nat_of_ascii a in
  ((65 <=? n) && (n <=? 90) || (97 <=? n) && (n <=? 122)
   || (48 <=? n) && (n <=? 57) || (n =? 95))%nat.

(** [re.match(r'^[A-Za-z0-9_]+$', name)]: one or more word characters up
    to the end of the string; [$] also matches just before a final newline.
    [seen] tells whether a word character has been read. *)
Fixpoint matchName (name : string) (seen : bool) : bool :=
  match name with
  | EmptyString => seen
  | String a rest =>
      if isWordChar a then matchName rest true
      else seen && (nat_of_ascii a =? 10)%nat
           && match rest with EmptyString => true | _ => false end
  end.

(** [max(0.0, min(1.0, float(value)))]. *)
Definition clampUnit (value : Q) : Q :=
  let m := if Qltb value 1 then value else 1 in
  if Qltb 0 m then m else 0.

(** [MorphValidator.validate_morphs(morphs)]: names that do not match are
    skipped ([continue]), the other values are clamped. *)
Definition validate_morphs (morphs : gmap string Q) : gmap string Q :=
  map_fold (fun name value validated =>
              if matchName name false
              then <[name := clampUnit value]> validated
              else validated) ∅ morphs.

End Validator.

(** ** OptimizedFacialAnimationClient *)

Module Client.
Import Num Easing.

(** The [compression] field of a [blendshape_update] message:
    [{ type, data }].  [animation_mode], [timestamp] and [server_fps] are
    only handed through to the [onBlendshapeUpdate] callback and are left
    out, as are the callbacks themselves (they are the renderer's sink). *)
Record Compression := {
  ctype : string;
  cdata : gmap string Q
}.

Record Message := {
  compression : option Compression
}.

(** A [blendshape_update] carrying a full keyframe. *)
Definition keyframeMsg (data : gmap string Q) : Message :=
  {| compression := Some {| ctype := "keyframe"; cdata := data |} |}.

(** A [blendshape_update] carrying a delta. *)
Definition deltaMsg (data : gmap string Q) : Message :=
  {| compression := Some {| ctype := "delta"; cdata := data |} |}.

(** The fields of the client that hold channel state.  The websocket, the
    [performanceMonitor] bookkeeping and the byte counters touch none of
    them.  [interpolationStartValues] is first assigned by
    [startInterpolation], and read only while [interpolationActive] holds,
    which only [startInterpolation] sets: its initial content is never
    observed. *)
Record State := {
  enableInterpolation : bool;
  currentBlendshapes : gmap string Q;
  targetBlendshapes : gmap string Q;
  keyframeBlendshapes : gmap string Q;
  interpolationActive : bool;
  interpolationStartTime : Q;
  interpolationDuration : Q;
  interpolationStartValues : gmap string Q;
  deltasApplied : nat;
  keyframesReceived : nat
}.

(** [constructor(url, options)], with [options.enableInterpolation]
    defaulting to [true]. *)
Definition constructor (enableInterp : bool) : State := {|
  enableInterpolation := enableInterp;
  currentBlendshapes := ∅;
  targetBlendshapes := ∅;
  keyframeBlendshapes := ∅;
  interpolationActive := false;
  interpolationStartTime := 0;
  interpolationDuration := 33;
  interpolationStartValues := ∅;
  deltasApplied := 0;
  keyframesReceived := 0
|}.

(** What a consumer reads for one channel out of [currentBlendshapes]. *)
Definition sample (c : State) (morph : string) : Q :=
  orZero (currentBlendshapes c !! morph).

(** [for (const [morph, value] of Object.entries(data)) target[morph] = value]
    on top of a copy of [base]. *)
Definition assignEntries (data base : gmap string Q) : gmap string Q :=
  map_fold (fun morph value acc => <[morph := value]> acc) base data.

(** [startInterpolation()], with [performance.now()] passed in. *)
Definition startInterpolation (now : Q) (c : State) : State := {|
  enableInterpolation := enableInterpolation c;
  currentBlendshapes := currentBlendshapes c;
  targetBlendshapes := targetBlendshapes c;
  keyframeBlendshapes := keyframeBlendshapes c;
  interpolationActive := true;
  interpolationStartTime := now;
  interpolationDuration := interpolationDuration c;
  interpolationStartValues := currentBlendshapes c;
  deltasApplied := deltasApplied c;
  keyframesReceived := keyframesReceived c
|}.

(** The first half of [handleBlendshapeUpdate]: fold the payload into
    [keyframeBlendshapes] / [targetBlendshapes]. *)
Definition applyCompression (comp : Compression) (c : State) : State :=
  if String.eqb (ctype comp) "keyframe" then {|
    enableInterpolation := enableInterpolation c;
    currentBlendshapes := currentBlendshapes c;
    targetBlendshapes := cdata comp;
    keyframeBlendshapes := cdata comp;
    interpolationActive := interpolationActive c;
    interpolationStartTime := interpolationStartTime c;
    interpolationDuration := interpolationDuration c;
    interpolationStartValues := interpolationStartValues c;
    deltasApplied := deltasApplied c;
    keyframesReceived := S (keyframesReceived c)
  |} else if String.eqb (ctype comp) "delta" then {|
    enableInterpolation := enableInterpolation c;
    currentBlendshapes := currentBlendshapes c;
    targetBlendshapes := assignEntries (cdata comp) (keyframeBlendshapes c);
    keyframeBlendshapes := keyframeBlendshapes c;
    interpolationActive := interpolationActive c;
    interpolationStartTime := interpolationStartTime c;
    interpolationDuration := interpolationDuration c;
    interpolationStartValues := interpolationStartValues c;
    deltasApplied := S (deltasApplied c);
    keyframesReceived := keyframesReceived c
  |} else c.

(** The direct update of the non-interpolating branch:
    [this.currentBlendshapes = { ...this.targetBlendshapes }]. *)
Definition copyTargetToCurrent (c : State) : State := {|
  enableInterpolation := enableInterpolation c;
  currentBlendshapes := targetBlendshapes c;
  targetBlendshapes := targetBlendshapes c;
  keyframeBlendshapes := keyframeBlendshapes c;
  interpolationActive := interpolationActive c;
  interpolationStartTime := interpolationStartTime c;
  interpolationDuration := interpolationDuration c;
  interpolationStartValues := interpolationStartValues c;
  deltasApplied := deltasApplied c;
  keyframesReceived := keyframesReceived c
|}.

(** [handleBlendshapeUpdate(data)], with the value [performance.now()]
    would return passed in. *)
Definition handleBlendshapeUpdate (now : Q) (data : Message) (c : State) : State :=
  match compression data with
  | None => c
  | Some comp =>
      let c1 := applyCompression comp c in
      if enableInterpolation c1 then startInterpolation now c1
      else copyTargetToCurrent c1
  end.

(** [allMorphs]: the keys of the start values and of the targets. *)
Definition allMorphs (c : State) : gset string :=
  dom (interpolationStartValues c) ∪ dom (targetBlendshapes c).

(** The value the loop body assigns to [interpolated[morph]]. *)
Definition morphValue (t : Q) (c : State) (morph : string) : Q :=
  let startValue := orZero (interpolationStartValues c !! morph) in
  let targetValue := orZero (targetBlendshapes c !! morph) in
  startValue + (targetValue - startValue) * eased t.

(** The object [interpolated] built by the loop over [allMorphs]. *)
Definition interpolated (t : Q) (c : State) : gmap string Q :=
  set_fold (fun morph acc => <[morph := morphValue t c morph]> acc) ∅ (allMorphs c).

(** [t = Math.min(elapsed / this.interpolationDuration, 1.0)]. *)
Definition progress (now : Q) (c : State) : Q :=
  let elapsed := now - interpolationStartTime c in
  Math_min (elapsed / interpolationDuration c) 1.

(** [updateInterpolation()], with [performance.now()] passed in. *)
Definition updateInterpolation (now : Q) (c : State) : State :=
  if negb (interpolationActive c) then c
  else
    let t := progress now c in
    let done := Qgeb t 1 in {|
      enableInterpolation := enableInterpolation c;
      currentBlendshapes :=
        if done then targetBlendshapes c else interpolated t c;
      targetBlendshapes := targetBlendshapes c;
      keyframeBlendshapes := keyframeBlendshapes c;
      interpolationActive := negb done;
      interpolationStartTime := interpolationStartTime c;
      interpolationDuration := interpolationDuration c;
      interpolationStartValues := interpolationStartValues c;
      deltasApplied := deltasApplied c;
      keyframesReceived := keyframesReceived c
    |}.

(** One turn of the loop started by [startAnimationLoop]: [animate] calls
    [updateInterpolation] and then only refreshes the FPS counters. *)
Definition animate (now : Q) (c : State) : State := updateInterpolation now c.

(** What reaches the client: a [blendshape_update] message or an animation
    frame, each with the clock reading at that moment. *)
Inductive Event :=
| Msg (now : Q) (data : Message)
| Frame (now : Q).

Definition step (c : State) (e : Event) : State :=
  match e with
  | Msg now data => handleBlendshapeUpdate now data c
  | Frame now => animate now c
  end.

Definition run (evs : list Event) (c : State) : State := fold_left step evs c.

(** Animation frames only, at the given clock readings. *)
Definition runFrames (ts : list Q) (c : State) : State :=
  run (map Frame ts) c.

(** The clock reading an event carries. *)
Definition eventTime (e : Event) : Q :=
  match e with Msg now _ => now | Frame now => now end.

(** [performance.now()] is monotonic: along a sequence of events that
    starts at reading [t], no reading is smaller than the one before. *)
Fixpoint clockAdvances (t : Q) (evs : list Event) : Prop :=
  match evs with
  | [] => True
  | e :: evs => t <= eventTime e /\ clockAdvances (eventTime e) evs
  end.

(** The last clock reading of a sequence that starts at reading [t]. *)
Definition lastReading (t : Q) (evs : list Event) : Q :=
  fold_left (fun _ e => eventTime e) evs t.

Definition isKeyframe (e : Event) : bool :=
  match e with
  | Msg _ {| compression := Some comp |} => String.eqb (ctype comp) "keyframe"
  | _ => false
  end.

End Client.

(** ** OptimizedMorphSystem *)

Module Morph.
Import Num.

(** The keys of [qualityPresets].  [config.quality] is taken to be one of
    them (with any other name [setMorph] would read a field of
    [undefined]). *)
Inductive Quality := low | medium | high | ultra.

#[global] Instance Quality_eq_dec : EqDecision Quality.
Proof. solve_decision. Defined.

(** The fields of a preset that the scheduler reads; the remaining ones
    ([shadowMapSize], [morphNormals], [pixelRatio]) are rendering options. *)
Record Preset := {
  morphUpdateThreshold : Q;
  maxActiveMorphs : nat;
  lodDistances : Q * Q * Q;
  updateFrequency : nat
}.

Definition qualityPresets (q : Quality) : Preset :=
  match q with
  | low => {| morphUpdateThreshold := 5 # 100; maxActiveMorphs := 50;
              lodDistances := (2, 5, 10); updateFrequency := 3 |}
  | medium => {| morphUpdateThreshold := 1 # 100; maxActiveMorphs := 100;
                 lodDistances := (3, 8, 15); updateFrequency := 2 |}
  | high => {| morphUpdateThreshold := 1 # 1000; maxActiveMorphs := 266;
               lodDistances := (5, 12, 20); updateFrequency := 1 |}
  | ultra => {| morphUpdateThreshold := 1 # 10000; maxActiveMorphs := 500;
                lodDistances := (10, 20, 30); updateFrequency := 1 |}
  end.

(** [this.qualityPresets[quality]] for an arbitrary name. *)
Definition lookupQuality (name : string) : option Quality :=
  if String.eqb name "low" then Some low
  else if String.eqb name "medium" then Some medium
  else if String.eqb name "high" then Some high
  else if String.eqb name "ultra" then Some ultra
  else None.

(** Configuration and internal state.  [morphMap] maps a morph name to its
    mesh bindings; only its key set is consulted by the scheduler. *)
Record State := {
  lodEnabled : bool;
  selectiveUpdates : bool;
  quality : Quality;
  priorityMorphs : gset string;
  morphMap : gset string;
  morphStates : gmap string Q;
  dirtyMorphs : gset string;
  activeMorphs : gset string;
  lodLevel : nat;
  frameCounter : nat;
  skippedUpdates : nat;
  activeMorphCount : nat
}.

(** The default [priorityMorphs] of the constructor. *)
Definition defaultPriorityMorphs : gset string :=
  list_to_set ["V_Open"; "V_AA"; "V_EE"; "V_OH"; "V_U";
               "Eye_Blink_L"; "Eye_Blink_R";
               "Mouth_Smile_L"; "Mouth_Smile_R"]%string.

(** [new OptimizedMorphSystem({quality, priorityMorphs})] followed by
    [initialize(meshes)], for meshes whose morph target names are [morphs]:
    every morph state starts at 0. *)
Definition initialize (q : Quality) (priority morphs : gset string) : State := {|
  lodEnabled := true;
  selectiveUpdates := true;
  quality := q;
  priorityMorphs := priority;
  morphMap := morphs;
  morphStates := gset_to_gmap 0 morphs;
  dirtyMorphs := ∅;
  activeMorphs := ∅;
  lodLevel := 0;
  frameCounter := 0;
  skippedUpdates := 0;
  activeMorphCount := 0
|}.

(** [this.stats.skippedUpdates++]. *)
Definition skip (s : State) : State := {|
  lodEnabled := lodEnabled s;
  selectiveUpdates := selectiveUpdates s;
  quality := quality s;
  priorityMorphs := priorityMorphs s;
  morphMap := morphMap s;
  morphStates := morphStates s;
  dirtyMorphs := dirtyMorphs s;
  activeMorphs := activeMorphs s;
  lodLevel := lodLevel s;
  frameCounter := frameCounter s;
  skippedUpdates := S (skippedUpdates s);
  activeMorphCount := activeMorphCount s
|}.

(** The tail of [setMorph]: record the value, mark the morph dirty and
    track whether it is active ([value > 0.001]). *)
Definition store (morphName : string) (value : Q) (s : State) : State := {|
  lodEnabled := lodEnabled s;
  selectiveUpdates := selectiveUpdates s;
  quality := quality s;
  priorityMorphs := priorityMorphs s;
  morphMap := morphMap s;
  morphStates := <[morphName := value]> (morphStates s);
  dirtyMorphs := {[morphName]} ∪ dirtyMorphs s;
  activeMorphs :=
    if Qltb (1 # 1000) value then {[morphName]} ∪ activeMorphs s
    else activeMorphs s ∖ {[morphName]};
  lodLevel := lodLevel s;
  frameCounter := frameCounter s;
  skippedUpdates := skippedUpdates s;
  activeMorphCount := activeMorphCount s
|}.

(** The first guard of [setMorph]: a negligible change. *)
Definition negligible (morphName : string) (value : Q) (force : bool) (s : State) : bool :=
  let preset := qualityPresets (quality s) in
  let currentValue := orZero (morphStates s !! morphName) in
  let delta := Qabs (value - currentValue) in
  negb force && selectiveUpdates s && Qltb delta (morphUpdateThreshold preset).

(** The second guard of [setMorph]: the active morph limit. *)
Definition overLimit (morphName : string) (value : Q) (force : bool) (s : State) : bool :=
  let preset := qualityPresets (quality s) in
  negb force
  && Qltb 0 value
  && negb (bool_decide (morphName ∈ activeMorphs s))
  && (maxActiveMorphs preset <=? size (activeMorphs s))%nat
  && negb (bool_decide (morphName ∈ priorityMorphs s)).

(** [setMorph(morphName, value, force)]: the returned boolean and the new
    state. *)
Definition setMorph (morphName : string) (value : Q) (force : bool) (s : State)
  : bool * State :=
  if negb (bool_decide (morphName ∈ morphMap s)) then (false, s)
  else if negligible morphName value force s then (false, skip s)
  else if overLimit morphName value force s then (false, skip s)
  else (true, store morphName value s).

(** [Object.entries(morphData).sort(...)]: the comparator
    [bPriority - aPriority] only tells priority names from the others and
    the sort is stable, so the priority entries come first and each group
    keeps its order. *)
Definition sortedEntries (morphData : list (string * Q)) (s : State)
  : list (string * Q) :=
  let isPriority := fun e : string * Q => bool_decide (e.1 ∈ priorityMorphs s) in
  List.filter isPriority morphData
  ++ List.filter (fun e => negb (isPriority e)) morphData.

(** The callback of the [forEach] in [updateMorphs], on the pair of the
    list [updates] and the state:
    [if (this.setMorph(morphName, value)) updates.push(morphName)]. *)
Definition setEntry (acc : list string * State) (e : string * Q)
  : list string * State :=
  let r := setMorph e.1 e.2 false acc.2 in
  (if r.1 then acc.1 ++ [e.1] else acc.1, r.2).

(** The [forEach] of [updateMorphs]: the list [updates] and the state. *)
Definition setAll (entries : list (string * Q)) (s : State) : list string * State :=
  fold_left setEntry entries ([], s).

(** [this.stats.activeMorphCount = this.activeMorphs.size]. *)
Definition countActive (s : State) : State := {|
  lodEnabled := lodEnabled s;
  selectiveUpdates := selectiveUpdates s;
  quality := quality s;
  priorityMorphs := priorityMorphs s;
  morphMap := morphMap s;
  morphStates := morphStates s;
  dirtyMorphs := dirtyMorphs s;
  activeMorphs := activeMorphs s;
  lodLevel := lodLevel s;
  frameCounter := frameCounter s;
  skippedUpdates := skippedUpdates s;
  activeMorphCount := size (activeMorphs s)
|}.

(** The names [updateMorphs] collects in [updates], in order. *)
Definition updatedMorphs (morphData : list (string * Q)) (s : State) : list string :=
  (setAll (sortedEntries morphData s) s).1.

(** [updateMorphs(morphData)]: [updates.length] and the new state. *)
Definition updateMorphs (morphData : list (string * Q)) (s : State) : nat * State :=
  let r := setAll (sortedEntries morphData s) s in
  (length r.1, countActive r.2).

(** [shouldUpdateMorph(morphName, preset)]. *)
Definition shouldUpdateMorph (morphName : string) (preset : Preset) (s : State) : bool :=
  if bool_decide (morphName ∈ priorityMorphs s) then true
  else if negb (frameCounter s mod updateFrequency preset =? 0)%nat then false
  else if lodEnabled s && (1 <? lodLevel s)%nat
       then bool_decide (morphName ∈ priorityMorphs s)
  else true.

(** [setQuality(quality)]; [optimizeMeshes] only touches materials. *)
Definition setQuality (name : string) (s : State) : State :=
  match lookupQuality name with
  | None => s
  | Some q => {|
      lodEnabled := lodEnabled s;
      selectiveUpdates := selectiveUpdates s;
      quality := q;
      priorityMorphs := priorityMorphs s;
      morphMap := morphMap s;
      morphStates := morphStates s;
      dirtyMorphs := dirtyMorphs s;
      activeMorphs := activeMorphs s;
      lodLevel := lodLevel s;
      frameCounter := frameCounter s;
      skippedUpdates := skippedUpdates s;
      activeMorphCount := activeMorphCount s
    |}
  end.

(** The change of a priority morph counts when selective updates are off
    or it reaches the preset's threshold. *)
Definition counts (name : string) (value : Q) (s : State) : Prop :=
  selectiveUpdates s = false
  \/ morphUpdateThreshold (qualityPresets (quality s))
     <= Qabs (value - orZero (morphStates s !! name)).

(** The parts of the state that decide whether [setMorph] accepts a value
    for [name], apart from the active set. *)
Definition agreeOn (name : string) (s s' : State) : Prop :=
  quality s' = quality s
  /\ selectiveUpdates s' = selectiveUpdates s
  /\ priorityMorphs s' = priorityMorphs s
  /\ morphMap s' = morphMap s
  /\ morphStates s' !! name = morphStates s !! name.

(** The admission property as the specification words it: every priority
    name of the incoming snapshot is among the admitted morphs. *)
Definition spec_priority_always_admitted
    (morphData : list (string * Q)) (s : State) : Prop :=
  forall (name : string) (value : Q),
    (name, value) ∈ morphData -> name ∈ priorityMorphs s ->
    name ∈ updatedMorphs morphData s.

End Morph.

(** ** The dynamic quality adjustment loop *)

Module Controller.
Import Num Morph.

(** [report.averages.fps < 30]; the average is [undefined] while the
    history is empty, and every comparison with [undefined] is false. *)
Definition fpsBelow (fps : option Q) (bound : Q) : bool :=
  match fps with Some f => Qltb f bound | None => false end.

Definition fpsAbove (fps : option Q) (bound : Q) : bool :=
  match fps with Some f => Qltb bound f | None => false end.

(** The body of the [setInterval] callback, for one observation window
    whose report has [averages.fps = fps]. *)
Definition adjustQuality (fps : option Q) (s : State) : State :=
  if fpsBelow fps 30 && negb (bool_decide (quality s = low))
  then setQuality "low" s
  else if fpsAbove fps 55 && bool_decide (quality s = low)
  then setQuality "medium" s
  else s.

(** Position of a tier in the order low, medium, high, ultra. *)
Definition tierRank (q : Quality) : Z :=
  match q with low => 0 | medium => 1 | high => 2 | ultra => 3 end%Z.

(** The stepping property as the specification words it: one observation
    window moves the active tier by at most one position. *)
Definition spec_one_tier_per_window (fps : option Q) (s : State) : Prop :=
  (Z.abs (tierRank (quality (adjustQuality fps s)) - tierRank (quality s)) <= 1)%Z.

End Controller.

(** ** Scenarios used as examples *)

Module Scenarios.
Import Client.

(** A transition in flight used by the examples below: a fresh client that
    has received the keyframe [{A: 0.8}] at clock reading 0. *)
Definition rising : State :=
  handleBlendshapeUpdate 0 (keyframeMsg {[ "A"%string := 4 # 5 ]}) (constructor true).



(** A client without interpolation that received [{A: 0.8}] at time 0. *)
Definition holdingA : State :=
  handleBlendshapeUpdate 0 (keyframeMsg {[ "A"%string := 4 # 5 ]}) (constructor false).

(** The keyframe [{A: 0.5, B: 0.2, C: 0.3}] as the client's baseline. *)
Definition withBaseline : State :=
  handleBlendshapeUpdate 0
    (keyframeMsg {[ "A"%string := 1 # 2; "B"%string := 1 # 5; "C"%string := 3 # 10 ]})
    (constructor true).

(** A registry of three priority and 200 other channels. *)
Definition visemes : list string := ["V_Open"; "V_AA"; "V_EE"]%string.

Definition ambient (n : nat) : list string :=
  map (fun i : nat => ("m" +:+ pretty i)%string) (seq 0 n).

Definition registry203 : Morph.State :=
  Morph.initialize Morph.low (list_to_set visemes) (list_to_set (visemes ++ ambient 200)).

(** Fifty ambient channels driven to 1: under the [low] preset the active
    set is then at its cap of 50. *)
Definition saturated : Morph.State :=
  (Morph.updateMorphs (map (fun n => (n, 1)) (ambient 50)) registry203).2.

(** A snapshot that moves all 203 channels to 0.5, the priority ones last. *)
Definition snapshot203 : list (string * Q) :=
  map (fun n => (n, 1 # 2)) (ambient 200 ++ visemes).

End Scenarios.

(** Settle a decidable closed proposition by evaluating its decision. *)
Ltac decided := refine (bool_decide_unpack _ _); vm_compute; exact I.

(** ** Bounded buffers *)

Module Window.

(** [buffer.push(x); if (buffer.length > limit) buffer.shift()], which is
    also what [deque(maxlen=limit).append(x)] does for a positive limit. *)
Definition pushBounded {A : Type} (limit : nat) (x : A) (buffer : list A) : list A :=
  let pushed := buffer ++ [x] in
  if (limit <? length pushed)%nat then tail pushed else pushed.

(** The last [n] elements of a list. *)
Definition lastn {A : Type} (n : nat) (l : list A) : list A :=
  drop (length l - n) l.

End Window.

(** ** OptimizedMorphSystem: level of detail, the tick and the mesh *)

Module MorphOps.
Import Num Morph.

Definition withLodLevel (level : nat) (s : State) : State := {|
  lodEnabled := lodEnabled s;
  selectiveUpdates := selectiveUpdates s;
  quality := quality s;
  priorityMorphs := priorityMorphs s;
  morphMap := morphMap s;
  morphStates := morphStates s;
  dirtyMorphs := dirtyMorphs s;
  activeMorphs := activeMorphs s;
  lodLevel := level;
  frameCounter := frameCounter s;
  skippedUpdates := skippedUpdates s;
  activeMorphCount := activeMorphCount s
|}.

(** The cascade of comparisons of [updateLOD] against
    [distances[0]], [distances[1]], [distances[2]]. *)
Definition lodLevelFor (distance : Q) (distances : Q * Q * Q) : nat :=
  if Qltb distance distances.1.1 then 0%nat
  else if Qltb distance distances.1.2 then 1%nat
  else if Qltb distance distances.2 then 2%nat
  else 3%nat.

(** [updateLOD(distance)]: the returned level ([undefined] when LOD is
    disabled) and the new state. *)
Definition updateLOD (distance : Q) (s : State) : option nat * State :=
  if negb (lodEnabled s) then (None, withLodLevel 0 s)
  else
    let level := lodLevelFor distance (lodDistances (qualityPresets (quality s))) in
    (Some level, withLodLevel level s).

(** The morph system together with what it writes to the meshes.
    [influence !! name = Some v] says that every mesh binding of [name]
    holds [v]; a name the system has not written yet is absent.  The
    experimental morph texture only mirrors [morphStates] and is left out,
    as are the material flags. *)
Record System := {
  sys : State;
  influence : gmap string Q;
  previousStates : gmap string Q;
  morphUpdatesPerFrame : nat;
  lastUpdateTime : Q
}.

(** The system right after [initialize]: [initializeMorphStates] puts 0 in
    [morphStates] and [previousStates] for every morph of the map. *)
Definition start (q : Quality) (priority morphs : gset string) : System := {|
  sys := initialize q priority morphs;
  influence := ∅;
  previousStates := gset_to_gmap 0 morphs;
  morphUpdatesPerFrame := 0;
  lastUpdateTime := 0
|}.

(** Run an operation of the scheduler inside the system. *)
Definition onSys (f : State -> State) (r : System) : System := {|
  sys := f (sys r);
  influence := influence r;
  previousStates := previousStates r;
  morphUpdatesPerFrame := morphUpdatesPerFrame r;
  lastUpdateTime := lastUpdateTime r
|}.

(** [applyMorph(morphName, value)]: write the value to every binding of the
    morph and count the update; nothing happens for an unknown name. *)
Definition applyMorph (morphName : string) (value : Q) (r : System) : System :=
  if bool_decide (morphName ∈ morphMap (sys r)) then {|
    sys := sys r;
    influence := <[morphName := value]> (influence r);
    previousStates := previousStates r;
    morphUpdatesPerFrame := S (morphUpdatesPerFrame r);
    lastUpdateTime := lastUpdateTime r
  |} else r.

(** The callback of the [forEach] in [processDirtyMorphs].  A dirty name
    always has a state ([setMorph] records the value before it marks the
    morph dirty), so the read of [morphStates] cannot miss. *)
Definition processDirty (morphName : string) (r : System) : System :=
  match morphStates (sys r) !! morphName with
  | Some value =>
      if shouldUpdateMorph morphName (qualityPresets (quality (sys r))) (sys r)
      then applyMorph morphName value r
      else r
  | None => r
  end.

Definition clearDirty (s : State) : State := {|
  lodEnabled := lodEnabled s;
  selectiveUpdates := selectiveUpdates s;
  quality := quality s;
  priorityMorphs := priorityMorphs s;
  morphMap := morphMap s;
  morphStates := morphStates s;
  dirtyMorphs := ∅;
  activeMorphs := activeMorphs s;
  lodLevel := lodLevel s;
  frameCounter := frameCounter s;
  skippedUpdates := skippedUpdates s;
  activeMorphCount := activeMorphCount s
|}.

(** [processDirtyMorphs()]. *)
Definition processDirtyMorphs (r : System) : System :=
  onSys clearDirty (set_fold processDirty r (dirtyMorphs (sys r))).

Definition nextFrame (s : State) : State := {|
  lodEnabled := lodEnabled s;
  selectiveUpdates := selectiveUpdates s;
  quality := quality s;
  priorityMorphs := priorityMorphs s;
  morphMap := morphMap s;
  morphStates := morphStates s;
  dirtyMorphs := dirtyMorphs s;
  activeMorphs := activeMorphs s;
  lodLevel := lodLevel s;
  frameCounter := S (frameCounter s);
  skippedUpdates := skippedUpdates s;
  activeMorphCount := activeMorphCount s
|}.

(** [tick(deltaTime)]: count the frame, process the dirty morphs, copy
    every state into [previousStates], advance [lastUpdateTime]. *)
Definition tick (deltaTime : Q) (r : System) : System :=
  let r1 := processDirtyMorphs {|
    sys := nextFrame (sys r);
    influence := influence r;
    previousStates := previousStates r;
    morphUpdatesPerFrame := 0;
    lastUpdateTime := lastUpdateTime r
  |} in {|
    sys := sys r1;
    influence := influence r1;
    previousStates := morphStates (sys r1) ∪ previousStates r1;
    morphUpdatesPerFrame := morphUpdatesPerFrame r1;
    lastUpdateTime := lastUpdateTime r1 + deltaTime
  |}.

Definition zeroStates (s : State) : State := {|
  lodEnabled := lodEnabled s;
  selectiveUpdates := selectiveUpdates s;
  quality := quality s;
  priorityMorphs := priorityMorphs s;
  morphMap := morphMap s;
  morphStates := (fun _ => 0) <$> morphStates s;
  dirtyMorphs := ∅;
  activeMorphs := ∅;
  lodLevel := lodLevel s;
  frameCounter := frameCounter s;
  skippedUpdates := skippedUpdates s;
  activeMorphCount := 0
|}.

(** [resetAll()]: every state to 0, no dirty and no active morph, and
    [morphTargetInfluences.fill(0)] on every mesh. *)
Definition resetAll (r : System) : System := {|
  sys := zeroStates (sys r);
  influence := gset_to_gmap 0 (morphMap (sys r)) ∪ influence r;
  previousStates := previousStates r;
  morphUpdatesPerFrame := morphUpdatesPerFrame r;
  lastUpdateTime := lastUpdateTime r
|}.

(** The value [interpolateMorphs] computes for one morph. *)
Definition blended (alpha : Q) (r : System) (morphName : string) (targetValue : Q) : Q :=
  let previousValue := orZero (previousStates r !! morphName) in
  previousValue + (targetValue - previousValue) * alpha.

(** [interpolateMorphs(alpha)]: for every morph with a state, write the
    blend of its previous and current state to its bindings. *)
Definition interpolateMorphs (alpha : Q) (r : System) : System := {|
  sys := sys r;
  influence :=
    map_fold (fun morphName targetValue acc =>
                if bool_decide (morphName ∈ morphMap (sys r))
                then <[morphName := blended alpha r morphName targetValue]> acc
                else acc)
             (influence r) (morphStates (sys r));
  previousStates := previousStates r;
  morphUpdatesPerFrame := morphUpdatesPerFrame r;
  lastUpdateTime := lastUpdateTime r
|}.

(** The calls a render loop makes on the system. *)
Inductive Op :=
| OpSetMorph (morphName : string) (value : Q) (force : bool)
| OpUpdateMorphs (morphData : list (string * Q))
| OpUpdateLOD (distance : Q)
| OpSetQuality (name : string)
| OpTick (deltaTime : Q)
| OpInterpolate (alpha : Q)
| OpResetAll.

Definition runOp (r : System) (op : Op) : System :=
  match op with
  | OpSetMorph n v f => onSys (fun s => (setMorph n v f s).2) r
  | OpUpdateMorphs d => onSys (fun s => (updateMorphs d s).2) r
  | OpUpdateLOD d => onSys (fun s => (updateLOD d s).2) r
  | OpSetQuality n => onSys (setQuality n) r
  | OpTick dt => tick dt r
  | OpInterpolate a => interpolateMorphs a r
  | OpResetAll => resetAll r
  end.

Definition runOps (ops : list Op) (r : System) : System := fold_left runOp ops r.

(** The bookkeeping the scheduler relies on: states exist exactly for the
    morphs of the map, the active set is the set of morphs whose state
    exceeds 0.001, and only morphs of the map are dirty. *)
Definition consistent (s : State) : Prop :=
  dom (morphStates s) = morphMap s
  /\ (forall name : string,
         name ∈ activeMorphs s
         <-> exists v : Q, morphStates s !! name = Some v /\ 1 # 1000 < v)
  /\ dirtyMorphs s ⊆ morphMap s.

End MorphOps.

(** ** OptimizedFacialAnimationClient: the public switches *)

Module ClientOps.
Import Client.

(** [setInterpolationEnabled(enabled)]: only the configuration changes. *)
Definition setInterpolationEnabled (enabled : bool) (c : State) : State := {|
  enableInterpolation := enabled;
  currentBlendshapes := currentBlendshapes c;
  targetBlendshapes := targetBlendshapes c;
  keyframeBlendshapes := keyframeBlendshapes c;
  interpolationActive := interpolationActive c;
  interpolationStartTime := interpolationStartTime c;
  interpolationDuration := interpolationDuration c;
  interpolationStartValues := interpolationStartValues c;
  deltasApplied := deltasApplied c;
  keyframesReceived := keyframesReceived c
|}.

(** A message whose payload is a delta. *)
Definition isDelta (e : Event) : bool :=
  match e with
  | Msg _ {| compression := Some comp |} =>
      negb (String.eqb (ctype comp) "keyframe") && String.eqb (ctype comp) "delta"
  | _ => false
  end.

End ClientOps.

(** ** Emotion blending (enhanced_facial_animation_system.py) *)

Module Emotion.
Import Num.

(** The table [EMOTION_PRESETS]. *)
Definition EMOTION_PRESETS (emotion : string) : option (gmap string Q) :=
  if String.eqb emotion "happy" then
    Some (list_to_map [("Mouth_Smile_L"%string, 3 # 5); ("Mouth_Smile_R"%string, 3 # 5);
                       ("Cheek_Squint_L"%string, 3 # 10); ("Cheek_Squint_R"%string, 3 # 10);
                       ("Eye_Squint_L"%string, 1 # 10); ("Eye_Squint_R"%string, 1 # 10)])
  else if String.eqb emotion "sad" then
    Some (list_to_map [("Mouth_Frown_L"%string, 1 # 2); ("Mouth_Frown_R"%string, 1 # 2);
                       ("Brow_Drop_L"%string, 2 # 5); ("Brow_Drop_R"%string, 2 # 5);
                       ("Eye_Look_Down_L"%string, 1 # 5); ("Eye_Look_Down_R"%string, 1 # 5)])
  else None.

(** [min(1.0, x)]. *)
Definition saturate (x : Q) : Q := if Qltb x 1 then x else 1.

(** The loop of [blend_emotion] over the entries of one preset. *)
Definition blendPreset (preset : gmap string Q) (intensity : Q)
    (base_morphs : gmap string Q) : gmap string Q :=
  map_fold (fun morph value result =>
              let current := default 0 (result !! morph) in
              <[morph := saturate (current + value * intensity)]> result)
           base_morphs preset.

(** [blend_emotion(base_morphs, emotion, intensity)]. *)
Definition blend_emotion (base_morphs : gmap string Q) (emotion : string)
    (intensity : Q) : gmap string Q :=
  match EMOTION_PRESETS emotion with
  | Some preset => blendPreset preset intensity base_morphs
  | None => base_morphs
  end.

End Emotion.

(** ** RateLimiter (rate limiting of the backend) *)

Module RateLimiter.
Import Num.

(** [requests] is a [defaultdict(deque)]: a client without an entry has
    the empty deque, and [check_limit] leaves an entry for every client it
    has seen. *)
Record State := {
  max_requests : nat;
  window : Q;
  requests : gmap string (list Q)
}.

(** [RateLimiter(max_requests, window_seconds)]. *)
Definition init (max_requests : nat) (window_seconds : Q) : State :=
  {| max_requests := max_requests; window := window_seconds; requests := ∅ |}.

(** [while requests and requests[0] < cutoff: requests.popleft()]. *)
Fixpoint popOld (cutoff : Q) (requests : list Q) : list Q :=
  match requests with
  | [] => []
  | first :: rest =>
      if Qltb first cutoff then popOld cutoff rest else first :: rest
  end.

(** [check_limit(client_id)], with the value of [time.time()] passed in:
    the answer and the new state. *)
Definition check_limit (now : Q) (client_id : string) (s : State) : bool * State :=
  let kept := popOld (now - window s) (default [] (requests s !! client_id)) in
  if (max_requests s <=? length kept)%nat
  then (false, {| max_requests := max_requests s; window := window s;
                  requests := <[client_id := kept]> (requests s) |})
  else (true, {| max_requests := max_requests s; window := window s;
                 requests := <[client_id := kept ++ [now]]> (requests s) |}).

(** A sequence of calls, each with its clock reading and client; the
    result is the list of the calls that were let through, and the state. *)
Definition call (acc : list (Q * string) * State) (c : Q * string)
  : list (Q * string) * State :=
  let r := check_limit c.1 c.2 acc.2 in
  (if r.1 then acc.1 ++ [c] else acc.1, r.2).

Definition calls (cs : list (Q * string)) (s : State) : list (Q * string) * State :=
  fold_left call cs ([], s).

(** The clock readings of the calls of one client that were let through. *)
Definition admitted (client_id : string) (log : list (Q * string)) : list Q :=
  map fst (List.filter (fun c : Q * string => String.eqb c.2 client_id) log).

(** The readings of a list that are not before [cutoff]. *)
Definition since (cutoff : Q) (times : list Q) : list Q :=
  List.filter (fun t => negb (Qltb t cutoff)) times.

(** [time.time()] does not go back along a sequence of calls that starts
    at reading [t]. *)
Fixpoint clockAdvances (t : Q) (cs : list (Q * string)) : Prop :=
  match cs with
  | [] => True
  | c :: cs => t <= c.1 /\ clockAdvances c.1 cs
  end.

End RateLimiter.

(** ** StateManager (state recovery of the backend) *)

Module StateManager.
Import Num.

(** One entry of [state_buffer]. *)
Record Checkpoint := {
  timestamp : Q;
  morphs : gmap string Q;
  emotion : string;
  frame : nat
}.

(** [checkpoint(state)] on [state_buffer = deque(maxlen=10)], with the
    value of [time.time()] passed in. *)
Definition checkpoint (now : Q) (current_morphs : gmap string Q)
    (emotion : string) (frame_count : nat) (state_buffer : list Checkpoint)
  : list Checkpoint :=
  Window.pushBounded 10
    {| timestamp := now; morphs := current_morphs;
       emotion := emotion; frame := frame_count |}
    state_buffer.

(** The loop of [recover] over [reversed(state_buffer)]. *)
Fixpoint firstAtOrBefore (target_time : Q) (newestFirst : list Checkpoint)
  : option Checkpoint :=
  match newestFirst with
  | [] => None
  | c :: older =>
      if Qle_bool (timestamp c) target_time then Some c
      else firstAtOrBefore target_time older
  end.

(** [recover(target_time)]: the checkpoint the state is rebuilt from, or
    [None] where the code returns [AnimationState.default()]. *)
Definition recover (target_time : Q) (state_buffer : list Checkpoint)
  : option Checkpoint :=
  firstAtOrBefore target_time (rev state_buffer).

End StateManager.

(** ** PerformanceMonitor *)

Module Monitor.
Import Num.

(** The timing part of the monitor.  The panel, the GPU timer and the
    counters copied from [renderer.info] are left out; of the four
    histories, the two fed by the monitor itself are kept ([fps],
    [frameTime]).  [frameTimeMin] is [None] for [Infinity]. *)
Record State := {
  updateInterval : Q;
  trackHistory : bool;
  historySize : nat;
  fps : Q;
  frameTime : Q;
  frameTimeMin : option Q;
  frameTimeMax : Q;
  frameCount : nat;
  lastUpdateTime : Q;
  frameStartTime : Q;
  frameTimes : list Q;
  history_fps : list Q;
  history_frameTime : list Q
}.

(** [new PerformanceMonitor(renderer, options)] at clock reading [now]. *)
Definition constructor (now : Q) (updateInterval : Q) (trackHistory : bool)
    (historySize : nat) : State := {|
  updateInterval := updateInterval;
  trackHistory := trackHistory;
  historySize := historySize;
  fps := 0;
  frameTime := 0;
  frameTimeMin := None;
  frameTimeMax := 0;
  frameCount := 0;
  lastUpdateTime := now;
  frameStartTime := 0;
  frameTimes := [];
  history_fps := [];
  history_frameTime := []
|}.

(** [Math.round(x)]: the nearest integer, halves upwards. *)
Definition Math_round (x : Q) : Q := inject_Z (Qfloor (x + (1 # 2))).

(** [values.reduce((a, b) => a + b) / values.length] for a non-empty
    array. *)
Definition mean (values : list Q) : Q :=
  fold_left Qplus (tail values) (hd 0 values) / inject_Z (Z.of_nat (length values)).

(** [begin()]. *)
Definition begin (now : Q) (s : State) : State := {|
  updateInterval := updateInterval s;
  trackHistory := trackHistory s;
  historySize := historySize s;
  fps := fps s;
  frameTime := frameTime s;
  frameTimeMin := frameTimeMin s;
  frameTimeMax := frameTimeMax s;
  frameCount := frameCount s;
  lastUpdateTime := lastUpdateTime s;
  frameStartTime := now;
  frameTimes := frameTimes s;
  history_fps := history_fps s;
  history_frameTime := history_frameTime s
|}.

(** [updateStats(now)], with [updateHistory()] inlined for the two
    histories. *)
Definition updateStats (now : Q) (s : State) : State :=
  let delta := now - lastUpdateTime s in
  let newFps := Math_round (inject_Z (Z.of_nat (frameCount s)) * 1000 / delta) in
  let newFrameTime :=
    if (0 <? length (frameTimes s))%nat then mean (frameTimes s) else frameTime s in {|
  updateInterval := updateInterval s;
  trackHistory := trackHistory s;
  historySize := historySize s;
  fps := newFps;
  frameTime := newFrameTime;
  frameTimeMin := None;
  frameTimeMax := 0;
  frameCount := 0;
  lastUpdateTime := now;
  frameStartTime := frameStartTime s;
  frameTimes := frameTimes s;
  history_fps :=
    if trackHistory s
    then Window.pushBounded (historySize s) newFps (history_fps s)
    else history_fps s;
  history_frameTime :=
    if trackHistory s
    then Window.pushBounded (historySize s) newFrameTime (history_frameTime s)
    else history_frameTime s
|}.

(** [end(morphStats)], with [performance.now()] passed in. *)
Definition end_ (now : Q) (s : State) : State :=
  let frameTime_ := now - frameStartTime s in
  let s1 := {|
    updateInterval := updateInterval s;
    trackHistory := trackHistory s;
    historySize := historySize s;
    fps := fps s;
    frameTime := frameTime s;
    frameTimeMin :=
      Some (match frameTimeMin s with
            | None => frameTime_
            | Some m => Math_min m frameTime_
            end);
    frameTimeMax := if Qltb (frameTimeMax s) frameTime_ then frameTime_
                    else frameTimeMax s;
    frameCount := S (frameCount s);
    lastUpdateTime := lastUpdateTime s;
    frameStartTime := frameStartTime s;
    frameTimes := Window.pushBounded 10 frameTime_ (frameTimes s);
    history_fps := history_fps s;
    history_frameTime := history_frameTime s
  |} in
  if Qgeb (now - lastUpdateTime s) (updateInterval s) then updateStats now s1
  else s1.

(** One rendered frame: [begin()] at the first reading, [end()] at the
    second. *)
Definition frame (s : State) (times : Q * Q) : State :=
  end_ times.2 (begin times.1 s).

Definition frames (fs : list (Q * Q)) (s : State) : State := fold_left frame fs s.

(** [getReport().averages.fps]: [undefined] unless history is tracked and
    not empty. *)
Definition averageFps (s : State) : option Q :=
  if trackHistory s && (0 <? length (history_fps s))%nat
  then Some (mean (history_fps s)) else None.

(** Whether [getReport()] recommends reducing the quality:
    [report.averages.fps < 30]. *)
Definition lowFpsRecommended (s : State) : bool :=
  Controller.fpsBelow (averageFps s) 30.

(** [reset()]; the renderer's own counters are not modelled. *)
Definition reset (s : State) : State := {|
  updateInterval := updateInterval s;
  trackHistory := trackHistory s;
  historySize := historySize s;
  fps := fps s;
  frameTime := frameTime s;
  frameTimeMin := None;
  frameTimeMax := 0;
  frameCount := 0;
  lastUpdateTime := lastUpdateTime s;
  frameStartTime := frameStartTime s;
  frameTimes := [];
  history_fps := history_fps s;
  history_frameTime := history_frameTime s
|}.

End Monitor.

(** ** RateLimiter: what the deques stand for *)

Module RateLimiterInv.
Import Num RateLimiter.

(** The deque of a client (empty when the client has none). *)
Definition deque (s : State) (client_id : string) : list Q :=
  default [] (requests s !! client_id).

(** How the deques relate to the log of admitted calls at clock reading
    [t]: for every client the admitted readings are in ascending order and
    not after [t], the deque holds at most [max_requests] readings, and it
    consists of the admitted readings since some cutoff that is not after
    [t - window]. *)
Definition tracked (s : State) (log : list (Q * string)) (t : Q) : Prop :=
  forall client_id : string,
    StronglySorted Qle (admitted client_id log)
    /\ Forall (fun x => x <= t) (admitted client_id log)
    /\ (length (deque s client_id) <= max_requests s)%nat
    /\ exists cutoff : Q,
        cutoff <= t - window s
        /\ deque s client_id = since cutoff (admitted client_id log).

(** The calls of one client in a sequence of calls. *)
Definition callsOf (client_id : string) (cs : list (Q * string)) : list (Q * string) :=
  List.filter (fun c : Q * string => String.eqb c.2 client_id) cs.

End RateLimiterInv.

(** ** Scenarios with interpolation switched off *)

Module SwitchedOff.
Import Client ClientOps.





End SwitchedOff.

(** * Properties *)

(** ** Comparisons and [Math.min] *)

Module NumFacts.
Import Num.

Lemma orZero_Some (v : Q) : orZero (Some v) = v.
Proof. reflexivity. Qed.

Lemma orZero_None : orZero None = 0.
Proof. reflexivity. Qed.

Lemma Qltb_lt a b : Qltb a b = true <-> a < b.
Proof.
  unfold Qltb. rewrite negb_true_iff, <- not_true_iff_false, Qle_bool_iff.
  split; [apply Qnot_le_lt | apply Qlt_not_le].
Qed.

Lemma Qltb_ge a b : Qltb a b = false <-> b <= a.
Proof.
  unfold Qltb. rewrite negb_false_iff. apply Qle_bool_iff.
Qed.

Lemma Qgeb_ge a b : Qgeb a b = true <-> b <= a.
Proof. apply Qle_bool_iff. Qed.

Lemma Qgeb_lt a b : Qgeb a b = false <-> a < b.
Proof.
  unfold Qgeb. rewrite <- not_true_iff_false, Qle_bool_iff.
  split; [apply Qnot_le_lt | apply Qlt_not_le].
Qed.

Lemma Math_min_le_r a b : Math_min a b <= b.
Proof.
  unfold Math_min. destruct (Qltb b a) eqn:E.
  - apply Qle_refl.
  - now apply Qltb_ge in E.
Qed.

Lemma Math_min_l a b : a <= b -> Math_min a b = a.
Proof.
  intros H. unfold Math_min. destruct (Qltb b a) eqn:E; [|reflexivity].
  apply Qltb_lt in E. exfalso. apply (Qlt_not_le _ _ E H).
Qed.

Lemma Math_min_r a b : b < a -> Math_min a b = b.
Proof.
  intros H. unfold Math_min. now apply Qltb_lt in H as ->.
Qed.

End NumFacts.

(** ** The easing curve *)

Module EasingFacts.
Import Num NumFacts Easing.

Lemma eased_spec t : eased t == spec_eased t.
Proof.
  unfold eased, spec_eased. destruct (Qltb t (1#2)); cbv zeta; field.
Qed.

Lemma eased_0 : eased 0 == 0.
Proof. reflexivity. Qed.

Lemma eased_1 : eased 1 == 1.
Proof. reflexivity. Qed.

Lemma sq_nonneg (x : Q) : 0 <= x * x.
Proof. destruct (Qlt_le_dec x 0); nra. Qed.

Lemma cube_mono (a b : Q) : a <= b -> a * a * a <= b * b * b.
Proof.
  intros Hab.
  assert (H1 : 0 <= (a + b) * (a + b) + a * a + b * b).
  { pose proof (sq_nonneg (a + b)). pose proof (sq_nonneg a).
    pose proof (sq_nonneg b). lra. }
  assert (H2 : 0 <= (b - a) * ((a + b) * (a + b) + a * a + b * b)).
  { apply Qmult_le_0_compat; lra. }
  assert (E : (b - a) * ((a + b) * (a + b) + a * a + b * b)
              == 2 * (b * b * b - a * a * a)) by ring.
  rewrite E in H2. lra.
Qed.

(** The curve never decreases. *)
Lemma eased_mono a b : a <= b -> eased a <= eased b.
Proof.
  intros Hab. unfold eased.
  destruct (Qltb a (1#2)) eqn:Ea, (Qltb b (1#2)) eqn:Eb; cbv zeta.
  - pose proof (cube_mono a b Hab). lra.
  - apply Qltb_lt in Ea. apply Qltb_ge in Eb.
    assert (Ha : a <= 1#2) by lra.
    pose proof (cube_mono a (1#2) Ha) as H1.
    assert (Hb : 2 * (1#2) - 2 <= 2 * b - 2) by lra.
    pose proof (cube_mono _ _ Hb) as H2.
    assert (E1 : (1#2) * (1#2) * (1#2) == 1#8) by reflexivity.
    assert (E2 : (2 * (1#2) - 2) * (2 * (1#2) - 2) * (2 * (1#2) - 2) == -1)
      by reflexivity.
    rewrite E1 in H1. rewrite E2 in H2.
    assert (E3 : (2 * b - 2) * (2 * b - 2) * (2 * b - 2) / 2
                 == (1#2) * ((2 * b - 2) * (2 * b - 2) * (2 * b - 2))) by field.
    rewrite E3. lra.
  - apply Qltb_ge in Ea. apply Qltb_lt in Eb. lra.
  - assert (H : 2 * a - 2 <= 2 * b - 2) by lra.
    pose proof (cube_mono _ _ H) as H2.
    assert (E3 : forall x, x / 2 == (1#2) * x) by (intros; field).
    rewrite !E3. lra.
Qed.

(** The curve respects equality of rationals. *)
Lemma eased_proper a b : a == b -> eased a == eased b.
Proof.
  intros E. apply Qle_antisym; apply eased_mono; rewrite E; apply Qle_refl.
Qed.

Lemma eased_nonneg t : 0 <= t -> 0 <= eased t.
Proof. intros H. apply (eased_mono 0 t H). Qed.

Lemma eased_le_1 t : t <= 1 -> eased t <= 1.
Proof.
  intros H. pose proof (eased_mono t 1 H) as H1. now rewrite eased_1 in H1.
Qed.

Lemma sq_pos (x : Q) : ~ x == 0 -> 0 < x * x.
Proof.
  intros H. destruct (Q_dec x 0) as [[Hlt|Hgt]|He]; [nra | nra | contradiction].
Qed.

Lemma cube_strict_mono (a b : Q) : a < b -> a * a * a < b * b * b.
Proof.
  intros Hab.
  assert (H1 : 0 < (a + b) * (a + b) + a * a + b * b).
  { pose proof (sq_nonneg (a + b)). pose proof (sq_nonneg a).
    pose proof (sq_nonneg b). destruct (Qeq_dec a 0) as [E|E].
    - assert (Hb : ~ b == 0) by lra. pose proof (sq_pos b Hb). lra.
    - pose proof (sq_pos a E). lra. }
  assert (H2 : 0 < (b - a) * ((a + b) * (a + b) + a * a + b * b)).
  { apply Qmult_lt_0_compat; lra. }
  assert (E : (b - a) * ((a + b) * (a + b) + a * a + b * b)
              == 2 * (b * b * b - a * a * a)) by ring.
  rewrite E in H2. lra.
Qed.

(** The curve is strictly increasing. *)
Lemma eased_strict_mono a b : a < b -> eased a < eased b.
Proof.
  intros Hab. unfold eased.
  destruct (Qltb a (1#2)) eqn:Ea, (Qltb b (1#2)) eqn:Eb; cbv zeta.
  - pose proof (cube_strict_mono a b Hab). lra.
  - apply Qltb_lt in Ea. apply Qltb_ge in Eb.
    pose proof (cube_strict_mono a (1#2) Ea) as H1.
    assert (Hb : 2 * (1#2) - 2 <= 2 * b - 2) by lra.
    pose proof (cube_mono _ _ Hb) as H2.
    assert (E1 : (1#2) * (1#2) * (1#2) == 1#8) by reflexivity.
    assert (E2 : (2 * (1#2) - 2) * (2 * (1#2) - 2) * (2 * (1#2) - 2) == -1)
      by reflexivity.
    rewrite E1 in H1. rewrite E2 in H2.
    assert (E3 : (2 * b - 2) * (2 * b - 2) * (2 * b - 2) / 2
                 == (1#2) * ((2 * b - 2) * (2 * b - 2) * (2 * b - 2))) by field.
    rewrite E3. lra.
  - apply Qltb_ge in Ea. apply Qltb_lt in Eb. lra.
  - assert (H : 2 * a - 2 < 2 * b - 2) by lra.
    pose proof (cube_strict_mono _ _ H) as H2.
    assert (E3 : forall x, x / 2 == (1#2) * x) by (intros; field).
    rewrite !E3. lra.
Qed.


End EasingFacts.

(** ** The client: decoding and interpolation *)

Module ClientFacts.
Import Num NumFacts Easing EasingFacts Client Scenarios ClientOps SwitchedOff.

(** Assigning the entries of [data] over [base] gives [data]'s value where
    it has one and [base]'s elsewhere. *)
Lemma lookup_assignEntries (data base : gmap string Q) (k : string) :
  assignEntries data base !! k
  = match data !! k with Some v => Some v | None => base !! k end.
Proof.
  unfold assignEntries. revert k.
  apply (map_fold_weak_ind
           (fun (r : gmap string Q) (m : gmap string Q) =>
              forall k, r !! k = match m !! k with
                                 | Some v => Some v
                                 | None => base !! k
                                 end)).
  - intros k. now rewrite lookup_empty.
  - intros i x m r Hi IH k. destruct (decide (i = k)) as [->|Hne].
    + now rewrite !lookup_insert_eq.
    + rewrite !lookup_insert_ne by exact Hne. apply IH.
Qed.

Lemma assignEntries_empty_base (data : gmap string Q) :
  assignEntries data ∅ = data.
Proof.
  apply map_eq. intros k. rewrite lookup_assignEntries, lookup_empty.
  now destruct (data !! k).
Qed.

(** The object [interpolated] has one entry per member of [allMorphs]. *)
Lemma lookup_interpolated (t : Q) (c : State) (m : string) :
  interpolated t c !! m
  = if decide (m ∈ allMorphs c) then Some (morphValue t c m) else None.
Proof.
  unfold interpolated. generalize (allMorphs c) as X.
  apply (set_fold_ind_L
           (fun (r : gmap string Q) (X : gset string) =>
              r !! m = if decide (m ∈ X) then Some (morphValue t c m) else None)).
  - rewrite lookup_empty. destruct (decide (m ∈ (∅ : gset string))) as [H|H];
      [set_solver | reflexivity].
  - intros x X r Hx IH. destruct (decide (x = m)) as [->|Hne].
    + rewrite lookup_insert_eq.
      destruct (decide (m ∈ {[m]} ∪ X)) as [H|H]; [reflexivity | set_solver].
    + rewrite lookup_insert_ne by exact Hne. rewrite IH.
      destruct (decide (m ∈ X)) as [H1|H1].
      * rewrite decide_True by set_solver. reflexivity.
      * rewrite decide_False; [reflexivity|].
        rewrite elem_of_union, elem_of_singleton. intros [E|E]; congruence.
Qed.


(** A morph outside [allMorphs] has start and target value 0. *)
Lemma morphValue_outside (t : Q) (c : State) (m : string) :
  m ∉ allMorphs c -> morphValue t c m == 0.
Proof.
  unfold allMorphs, morphValue. intros H.
  assert (H1 : interpolationStartValues c !! m = None)
    by (apply not_elem_of_dom; set_solver).
  assert (H2 : targetBlendshapes c !! m = None)
    by (apply not_elem_of_dom; set_solver).
  rewrite H1, H2. unfold orZero; simpl. ring.
Qed.

(** The progress of a transition, for a clock that has not gone back. *)
Lemma progress_range (now : Q) (c : State) :
  0 < interpolationDuration c -> interpolationStartTime c <= now ->
  0 <= progress now c /\ progress now c <= 1.
Proof.
  intros Hd Hs. unfold progress. cbv zeta. split; [|apply Math_min_le_r].
  assert (H0 : 0 <= (now - interpolationStartTime c) / interpolationDuration c).
  { apply Qle_shift_div_l; [exact Hd | lra]. }
  unfold Math_min. destruct (Qltb _ _); [lra | exact H0].
Qed.

Lemma progress_mono (t1 t2 : Q) (c : State) :
  0 < interpolationDuration c -> t1 <= t2 ->
  progress t1 c <= progress t2 c.
Proof.
  intros Hd H12. unfold progress. cbv zeta.
  set (d := interpolationDuration c) in *. set (s := interpolationStartTime c).
  assert (H : (t1 - s) / d <= (t2 - s) / d).
  { unfold Qdiv. apply Qmult_le_compat_r; [lra|].
    apply Qlt_le_weak, Qinv_lt_0_compat, Hd. }
  unfold Math_min.
  destruct (Qltb 1 ((t1 - s) / d)) eqn:E1, (Qltb 1 ((t2 - s) / d)) eqn:E2;
    try apply Qltb_lt in E1; try apply Qltb_lt in E2;
    try apply Qltb_ge in E1; try apply Qltb_ge in E2; lra.
Qed.

(** Past the end of the transition the progress is exactly 1. *)
Lemma progress_done (now : Q) (c : State) :
  0 < interpolationDuration c ->
  interpolationStartTime c + interpolationDuration c <= now ->
  Qgeb (progress now c) 1 = true.
Proof.
  intros Hd He. apply Qgeb_ge. unfold progress. cbv zeta.
  set (d := interpolationDuration c) in *. set (s := interpolationStartTime c) in *.
  assert (H : 1 <= (now - s) / d).
  { apply Qle_shift_div_l; [exact Hd | lra]. }
  unfold Math_min. destruct (Qltb 1 ((now - s) / d)); [lra | exact H].
Qed.

(** While a transition is in flight, a frame leaves in [currentBlendshapes]
    the eased value of every morph. *)
Lemma sample_updateInterpolation (c : State) (now : Q) (m : string) :
  interpolationActive c = true ->
  0 < interpolationDuration c ->
  interpolationStartTime c <= now ->
  sample (updateInterpolation now c) m == morphValue (progress now c) c m.
Proof.
  intros Ha Hd Hs. unfold updateInterpolation, sample. rewrite Ha. simpl.
  destruct (Qgeb (progress now c) 1) eqn:Hdone.
  - apply Qgeb_ge in Hdone.
    destruct (progress_range now c Hd Hs) as [_ Hle].
    assert (E : progress now c == 1) by (apply Qle_antisym; assumption).
    unfold morphValue. cbv zeta. rewrite (eased_proper _ _ E), eased_1. ring.
  - rewrite lookup_interpolated.
    destruct (decide (m ∈ allMorphs c)) as [H|H]; simpl.
    + reflexivity.
    + symmetry. now apply morphValue_outside.
Qed.

(** A frame before the end of the transition keeps it in flight and leaves
    its parameters alone, so the next frame computes as if it came first. *)
Lemma updateInterpolation_twice (c : State) (t1 t2 : Q) :
  interpolationActive c = true ->
  Qgeb (progress t1 c) 1 = false ->
  updateInterpolation t2 (updateInterpolation t1 c) = updateInterpolation t2 c.
Proof.
  intros Ha Hnd. unfold updateInterpolation. rewrite Ha. simpl.
  rewrite Hnd. simpl. reflexivity.
Qed.

(** Once settled, frames change nothing. *)
Lemma updateInterpolation_inactive (c : State) (now : Q) :
  interpolationActive c = false -> updateInterpolation now c = c.
Proof. intros Ha. unfold updateInterpolation. now rewrite Ha. Qed.

Lemma runFrames_inactive (ts : list Q) (c : State) :
  interpolationActive c = false -> runFrames ts c = c.
Proof.
  intros Ha. unfold runFrames, run. induction ts as [|t ts IH]; simpl.
  - reflexivity.
  - unfold animate. rewrite (updateInterpolation_inactive c t Ha). exact IH.
Qed.

(** A frame at or after the end of the transition settles it on the target. *)
Lemma updateInterpolation_settles (c : State) (now : Q) :
  interpolationActive c = true ->
  Qgeb (progress now c) 1 = true ->
  interpolationActive (updateInterpolation now c) = false
  /\ currentBlendshapes (updateInterpolation now c) = targetBlendshapes c.
Proof.
  intros Ha Hdone. unfold updateInterpolation. rewrite Ha. simpl.
  now rewrite Hdone.
Qed.

(** Distance to the target in terms of the curve. *)
Lemma distance_to_target (c : State) (t : Q) (m : string) :
  0 <= t -> t <= 1 ->
  Qabs (orZero (targetBlendshapes c !! m) - morphValue t c m)
  == Qabs (orZero (targetBlendshapes c !! m)
           - orZero (interpolationStartValues c !! m)) * (1 - eased t).
Proof.
  intros H0 H1. unfold morphValue. cbv zeta.
  set (tv := orZero (targetBlendshapes c !! m)).
  set (sv := orZero (interpolationStartValues c !! m)).
  assert (E : tv - (sv + (tv - sv) * eased t) == (tv - sv) * (1 - eased t))
    by ring.
  rewrite E, Qabs_Qmult.
  pose proof (eased_le_1 t H1) as He.
  rewrite (Qabs_pos (1 - eased t)) by lra. reflexivity.
Qed.

(** Two successive frames of a transition in flight: the second is at
    least as close to the target as the first. *)
Lemma frames_approach_target (c : State) (m : string) (t1 t2 : Q) :
  interpolationActive c = true ->
  0 < interpolationDuration c ->
  interpolationStartTime c <= t1 -> t1 <= t2 ->
  Qabs (orZero (targetBlendshapes c !! m) - sample (animate t2 (animate t1 c)) m)
  <= Qabs (orZero (targetBlendshapes c !! m) - sample (animate t1 c) m).
Proof.
  intros Ha Hd Hs H12. unfold animate.
  destruct (Qgeb (progress t1 c) 1) eqn:Hdone.
  - destruct (updateInterpolation_settles c t1 Ha Hdone) as [Hi _].
    rewrite (updateInterpolation_inactive _ t2 Hi). apply Qle_refl.
  - rewrite (updateInterpolation_twice c t1 t2 Ha Hdone).
    assert (Hs2 : interpolationStartTime c <= t2) by lra.
    rewrite (sample_updateInterpolation c t1 m Ha Hd Hs).
    rewrite (sample_updateInterpolation c t2 m Ha Hd Hs2).
    destruct (progress_range t1 c Hd Hs) as [H10 H11].
    destruct (progress_range t2 c Hd Hs2) as [H20 H21].
    rewrite (distance_to_target c _ m H10 H11).
    rewrite (distance_to_target c _ m H20 H21).
    rewrite !(Qmult_comm (Qabs _)).
    apply Qmult_le_compat_r; [|apply Qabs_nonneg].
    pose proof (eased_mono _ _ (progress_mono t1 t2 c Hd H12)). lra.
Qed.

(** After a frame at or past the end of the transition the channel map is
    the target map, and later frames keep it there. *)
Lemma frames_settled (c : State) (t1 t2 : Q) (later : list Q) :
  interpolationActive c = true ->
  0 < interpolationDuration c ->
  interpolationStartTime c + interpolationDuration c <= t2 ->
  runFrames later (animate t2 (animate t1 c))
  = animate t2 (animate t1 c)
  /\ interpolationActive (animate t2 (animate t1 c)) = false
  /\ currentBlendshapes (animate t2 (animate t1 c)) = targetBlendshapes c.
Proof.
  intros Ha Hd He. unfold animate.
  assert (H : interpolationActive (updateInterpolation t2 (updateInterpolation t1 c))
              = false
              /\ currentBlendshapes (updateInterpolation t2 (updateInterpolation t1 c))
                 = targetBlendshapes c).
  { destruct (Qgeb (progress t1 c) 1) eqn:Hdone.
    - destruct (updateInterpolation_settles c t1 Ha Hdone) as [Hi Hc].
      rewrite (updateInterpolation_inactive _ t2 Hi). now split.
    - rewrite (updateInterpolation_twice c t1 t2 Ha Hdone).
      apply (updateInterpolation_settles c t2 Ha).
      now apply progress_done. }
  destruct H as [Hi Hc]. split; [|now split].
  now apply runFrames_inactive.
Qed.

(** [applyCompression] touches only the keyframe, the target and the two
    counters. *)
Lemma applyCompression_preserves (comp : Compression) (c : State) :
  enableInterpolation (applyCompression comp c) = enableInterpolation c
  /\ currentBlendshapes (applyCompression comp c) = currentBlendshapes c
  /\ interpolationDuration (applyCompression comp c) = interpolationDuration c.
Proof.
  unfold applyCompression.
  destruct (String.eqb (ctype comp) "keyframe");
    [|destruct (String.eqb (ctype comp) "delta")]; simpl; repeat split.
Qed.


(** The first frame of a transition, taken at its start time, shows the
    start value. *)
Lemma sample_at_start (c : State) (m : string) :
  interpolationActive c = true ->
  0 < interpolationDuration c ->
  sample (animate (interpolationStartTime c) c) m
  == orZero (interpolationStartValues c !! m).
Proof.
  intros Ha Hd. unfold animate.
  rewrite (sample_updateInterpolation c _ m Ha Hd) by apply Qle_refl.
  assert (E : progress (interpolationStartTime c) c == 0).
  { unfold progress. cbv zeta.
    set (x := (interpolationStartTime c - interpolationStartTime c)
              / interpolationDuration c).
    assert (Ex : x == 0) by (unfold x; field; lra).
    unfold Math_min. destruct (Qltb 1 x) eqn:E1; [|exact Ex].
    apply Qltb_lt in E1. lra. }
  unfold morphValue. cbv zeta. rewrite (eased_proper _ _ E), eased_0. ring.
Qed.

(** No event changes the duration of a transition, and with a monotonic
    clock the start of the transition is never ahead of the last reading:
    every state the client reaches meets the side conditions of the
    statements below. *)
Lemma reachable_transition (evs : list Event) (c : State) (t : Q) :
  interpolationStartTime c <= t ->
  clockAdvances t evs ->
  interpolationDuration (run evs c) = interpolationDuration c
  /\ interpolationStartTime (run evs c) <= lastReading t evs.
Proof.
  unfold run, lastReading. revert c t.
  induction evs as [|e evs IH]; intros c t Hs Hclk; simpl.
  - now split.
  - destruct Hclk as [Hte Hclk].
    assert (Hstep : interpolationDuration (step c e) = interpolationDuration c
                    /\ interpolationStartTime (step c e) <= eventTime e).
    { destruct e as [now [[comp|]]|now]; simpl in *.
      - unfold handleBlendshapeUpdate. simpl.
        destruct (applyCompression_preserves comp c) as (_ & _ & Hd).
        destruct (enableInterpolation (applyCompression comp c)); simpl.
        + split; [exact Hd | apply Qle_refl].
        + split; [exact Hd|]. unfold applyCompression.
          destruct (String.eqb (ctype comp) "keyframe");
            [|destruct (String.eqb (ctype comp) "delta")]; simpl; lra.
      - unfold handleBlendshapeUpdate. simpl. split; [reflexivity | lra].
      - unfold animate, updateInterpolation.
        destruct (negb (interpolationActive c)); simpl;
          (split; [reflexivity | lra]). }
    destruct Hstep as [Hd Hs'].
    destruct (IH (step c e) (eventTime e) Hs' Hclk) as [IHd IHs].
    split; [now rewrite IHd | exact IHs].
Qed.

(** Before the end of the transition the progress is below 1. *)
Lemma progress_before_end (now : Q) (c : State) :
  0 < interpolationDuration c ->
  now < interpolationStartTime c + interpolationDuration c ->
  Qgeb (progress now c) 1 = false.
Proof.
  intros Hd He. apply Qgeb_lt. unfold progress. cbv zeta.
  set (d := interpolationDuration c) in *. set (s := interpolationStartTime c) in *.
  assert (H : (now - s) / d < 1).
  { apply Qlt_shift_div_r; [exact Hd | lra]. }
  unfold Math_min. destruct (Qltb 1 ((now - s) / d)) eqn:E; [|exact H].
  apply Qltb_lt in E. lra.
Qed.


(** Before the end of the transition a later frame is strictly further
    along. *)
Lemma progress_strict_mono (t1 t2 : Q) (c : State) :
  0 < interpolationDuration c -> t1 < t2 ->
  t1 < interpolationStartTime c + interpolationDuration c ->
  progress t1 c < progress t2 c.
Proof.
  intros Hd H12 He. unfold progress. cbv zeta.
  set (d := interpolationDuration c) in *. set (s := interpolationStartTime c) in *.
  assert (H : (t1 - s) / d < (t2 - s) / d).
  { unfold Qdiv. apply Qmult_lt_compat_r; [apply Qinv_lt_0_compat, Hd | lra]. }
  assert (H1 : (t1 - s) / d < 1).
  { apply Qlt_shift_div_r; [exact Hd | lra]. }
  unfold Math_min.
  destruct (Qltb 1 ((t1 - s) / d)) eqn:E1, (Qltb 1 ((t2 - s) / d)) eqn:E2;
    try apply Qltb_lt in E1; try apply Qltb_lt in E2;
    try apply Qltb_ge in E1; try apply Qltb_ge in E2; lra.
Qed.


(** Two successive frames of a transition in flight, the first before its
    end: a channel whose start value differs from its target is strictly
    closer to the target at the second. *)
Lemma frames_approach_target_strict (c : State) (m : string) (t1 t2 : Q) :
  interpolationActive c = true ->
  0 < interpolationDuration c ->
  interpolationStartTime c <= t1 -> t1 < t2 ->
  t1 < interpolationStartTime c + interpolationDuration c ->
  ~ orZero (interpolationStartValues c !! m) == orZero (targetBlendshapes c !! m) ->
  Qabs (orZero (targetBlendshapes c !! m) - sample (animate t2 (animate t1 c)) m)
  < Qabs (orZero (targetBlendshapes c !! m) - sample (animate t1 c) m).
Proof.
  intros Ha Hd Hs H12 He Hne. unfold animate.
  rewrite (updateInterpolation_twice c t1 t2 Ha (progress_before_end t1 c Hd He)).
  assert (Hs2 : interpolationStartTime c <= t2) by lra.
  rewrite (sample_updateInterpolation c t1 m Ha Hd Hs).
  rewrite (sample_updateInterpolation c t2 m Ha Hd Hs2).
  destruct (progress_range t1 c Hd Hs) as [H10 H11].
  destruct (progress_range t2 c Hd Hs2) as [H20 H21].
  rewrite (distance_to_target c _ m H10 H11).
  rewrite (distance_to_target c _ m H20 H21).
  rewrite !(Qmult_comm (Qabs _)).
  apply Qmult_lt_compat_r.
  - destruct (Qle_lt_or_eq _ _ (Qabs_nonneg (orZero (targetBlendshapes c !! m)
               - orZero (interpolationStartValues c !! m)))) as [Hp|Hz];
      [exact Hp|].
    exfalso. apply Hne.
    assert (Hle : Qabs (orZero (targetBlendshapes c !! m)
                        - orZero (interpolationStartValues c !! m)) <= 0)
      by (rewrite <- Hz; apply Qle_refl).
    apply Qabs_Qle_condition in Hle. lra.
  - pose proof (eased_strict_mono _ _ (progress_strict_mono t1 t2 c Hd H12 He)).
    lra.
Qed.

(** A frame of a transition in flight shows every channel between its
    start value and its target. *)
Lemma sample_between (c : State) (m : string) (t : Q) :
  interpolationActive c = true ->
  0 < interpolationDuration c ->
  interpolationStartTime c <= t ->
  Qabs (orZero (targetBlendshapes c !! m) - sample (animate t c) m)
  + Qabs (sample (animate t c) m - orZero (interpolationStartValues c !! m))
  == Qabs (orZero (targetBlendshapes c !! m)
           - orZero (interpolationStartValues c !! m)).
Proof.
  intros Ha Hd Hs. unfold animate.
  rewrite (sample_updateInterpolation c t m Ha Hd Hs).
  destruct (progress_range t c Hd Hs) as [H0 H1].
  rewrite (distance_to_target c _ m H0 H1).
  unfold morphValue. cbv zeta.
  set (tv := orZero (targetBlendshapes c !! m)).
  set (sv := orZero (interpolationStartValues c !! m)).
  assert (E : sv + (tv - sv) * eased (progress t c) - sv
              == (tv - sv) * eased (progress t c)) by ring.
  rewrite E, Qabs_Qmult.
  rewrite (Qabs_pos (eased (progress t c))) by (now apply eased_nonneg).
  ring.
Qed.





(** *** Claims on the interpolation stage *)

(** C7.  For every morph, a frame at clock reading [now] of a transition in
    flight leaves the value
    [previousValue + (targetValue - previousValue) * eased(t)], where
    [t = clamp((now - transitionStartTime) / transitionDuration, 0, 1)] and
    [eased] is the ease-in-out cubic of the specification.  The code takes
    only [Math.min(.., 1)]; the lower clamp is vacuous for a clock that does
    not run backwards, which is the third hypothesis. *)
Theorem interpolation_formula (c : State) (now : Q) (morph : string) :
  interpolationActive c = true ->
  0 < interpolationDuration c ->
  interpolationStartTime c <= now ->
  sample (updateInterpolation now c) morph
  == orZero (interpolationStartValues c !! morph)
     + (orZero (targetBlendshapes c !! morph)
        - orZero (interpolationStartValues c !! morph))
       * spec_eased
           (spec_clamp
              ((now - interpolationStartTime c) / interpolationDuration c) 0 1).
Proof.
  intros Ha Hd Hs. rewrite (sample_updateInterpolation c now morph Ha Hd Hs).
  unfold morphValue. cbv zeta. rewrite eased_spec.
  assert (E : progress now c
              = spec_clamp
                  ((now - interpolationStartTime c) / interpolationDuration c)
                  0 1).
  { unfold progress, spec_clamp, Math_min. cbv zeta.
    assert (H0 : 0 <= (now - interpolationStartTime c) / interpolationDuration c).
    { apply Qle_shift_div_l; [exact Hd | lra]. }
    apply Qltb_ge in H0. now rewrite H0. }
  rewrite E. reflexivity.
Qed.

Lemma interpolation_formula_witness :
  interpolationActive rising = true
  /\ 0 < interpolationDuration rising
  /\ interpolationStartTime rising <= 11
  /\ sample (updateInterpolation 11 rising) "A"
     == 0 + ((4 # 5) - 0) * spec_eased (spec_clamp ((11 - 0) / 33) 0 1).
Proof.
  split; [reflexivity|]. split; [reflexivity|]. split; [vm_compute; discriminate|].
  apply (interpolation_formula rising 11 "A");
    [reflexivity | reflexivity | vm_compute; discriminate].
Defined.

(** C3.  For a channel in transition from [previousValue] to
    [targetValue]: a frame at the start of the transition shows
    [previousValue]; every frame not before the start shows the value on the
    eased curve, which lies between [previousValue] and [targetValue]; of
    two successive frames at clock readings [t1 <= t2] the second is never
    further from [targetValue] than the first, and it is strictly closer
    when [t1 < t2], the first comes before the end of the transition and the
    two values differ; and once a frame has come at or after
    [transitionStartTime + transitionDuration], the sampled value is exactly
    [targetValue] and every later frame leaves it there. *)
Theorem transition_monotone_then_settled
    (c : State) (morph : string) (t1 t2 : Q) (later : list Q) :
  interpolationActive c = true ->
  0 < interpolationDuration c ->
  interpolationStartTime c <= t1 -> t1 <= t2 ->
  sample (animate (interpolationStartTime c) c) morph
  == orZero (interpolationStartValues c !! morph)
  /\ sample (animate t1 c) morph
     == orZero (interpolationStartValues c !! morph)
        + (orZero (targetBlendshapes c !! morph)
           - orZero (interpolationStartValues c !! morph))
          * eased (progress t1 c)
  /\ Qabs (orZero (targetBlendshapes c !! morph) - sample (animate t1 c) morph)
     + Qabs (sample (animate t1 c) morph
             - orZero (interpolationStartValues c !! morph))
     == Qabs (orZero (targetBlendshapes c !! morph)
              - orZero (interpolationStartValues c !! morph))
  /\ Qabs (orZero (targetBlendshapes c !! morph)
           - sample (animate t2 (animate t1 c)) morph)
     <= Qabs (orZero (targetBlendshapes c !! morph) - sample (animate t1 c) morph)
  /\ (t1 < t2 ->
      t1 < interpolationStartTime c + interpolationDuration c ->
      ~ orZero (interpolationStartValues c !! morph)
        == orZero (targetBlendshapes c !! morph) ->
      Qabs (orZero (targetBlendshapes c !! morph)
            - sample (animate t2 (animate t1 c)) morph)
      < Qabs (orZero (targetBlendshapes c !! morph) - sample (animate t1 c) morph))
  /\ (interpolationStartTime c + interpolationDuration c <= t2 ->
      sample (runFrames later (animate t2 (animate t1 c))) morph
      = orZero (targetBlendshapes c !! morph)
      /\ currentBlendshapes (runFrames later (animate t2 (animate t1 c)))
         = targetBlendshapes c).
Proof.
  intros Ha Hd Hs H12.
  split; [now apply sample_at_start|].
  split; [exact (sample_updateInterpolation c t1 morph Ha Hd Hs)|].
  split; [now apply sample_between|].
  split; [now apply frames_approach_target|].
  split; [intros Hlt He Hne; now apply frames_approach_target_strict|].
  intros He.
  destruct (frames_settled c t1 t2 later Ha Hd He) as (-> & _ & Hc).
  unfold sample. now rewrite Hc.
Qed.

Lemma transition_monotone_then_settled_witness :
  interpolationActive rising = true
  /\ 0 < interpolationDuration rising
  /\ interpolationStartTime rising <= 11
  /\ 11 <= 40
  /\ sample (animate 0 rising) "A" == 0
  /\ sample (animate 11 rising) "A" == 0 + ((4 # 5) - 0) * eased (progress 11 rising)
  /\ Qabs ((4 # 5) - sample (animate 40 (animate 11 rising)) "A")
     < Qabs ((4 # 5) - sample (animate 11 rising) "A")
  /\ sample (runFrames [50; 600] (animate 40 (animate 11 rising))) "A" = 4 # 5.
Proof.
  split; [reflexivity|]. split; [reflexivity|].
  split; [vm_compute; discriminate|]. split; [vm_compute; discriminate|].
  destruct (transition_monotone_then_settled rising "A" 11 40 [50; 600])
    as (H0 & Hc & _ & _ & Hlt & Hs);
    [reflexivity | reflexivity | vm_compute; discriminate
    | vm_compute; discriminate |].
  split; [exact H0|]. split; [exact Hc|]. split.
  - apply Hlt; [reflexivity | reflexivity | vm_compute; discriminate].
  - apply Hs. vm_compute; discriminate.
Defined.







(** *** Claims on the stream of messages *)

(** Without a keyframe among the events, the client still has the empty
    baseline of its constructor. *)
Lemma no_keyframe_baseline (evs : list Event) (c : State) :
  forallb (fun e => negb (isKeyframe e)) evs = true ->
  keyframeBlendshapes c = ∅ -> keyframesReceived c = 0%nat ->
  keyframeBlendshapes (run evs c) = ∅ /\ keyframesReceived (run evs c) = 0%nat.
Proof.
  unfold run. revert c. induction evs as [|e evs IH]; intros c Hno Hk Hn; simpl.
  - now split.
  - simpl in Hno. apply andb_true_iff in Hno as [He Hno].
    apply IH; [exact Hno | |].
    + destruct e as [now [[comp|]]|now]; simpl in *.
      * unfold handleBlendshapeUpdate, applyCompression. simpl.
        apply negb_true_iff in He. rewrite He.
        destruct (String.eqb (ctype comp) "delta"); simpl;
          destruct (enableInterpolation c); simpl; exact Hk.
      * exact Hk.
      * unfold animate, updateInterpolation.
        destruct (interpolationActive c); simpl; exact Hk.
    + destruct e as [now [[comp|]]|now]; simpl in *.
      * unfold handleBlendshapeUpdate, applyCompression. simpl.
        apply negb_true_iff in He. rewrite He.
        destruct (String.eqb (ctype comp) "delta"); simpl;
          destruct (enableInterpolation c); simpl; exact Hn.
      * exact Hn.
      * unfold animate, updateInterpolation.
        destruct (interpolationActive c); simpl; exact Hn.
Qed.

(** C4, as the code has it.  A delta that arrives before any keyframe is
    not rejected: it is applied against the empty baseline left by the
    constructor, so the targets become exactly the delta's entries and the
    delta is counted as applied. *)
Theorem delta_before_keyframe_applied
    (evs : list Event) (enable : bool) (now : Q) (d : gmap string Q) :
  forallb (fun e => negb (isKeyframe e)) evs = true ->
  keyframesReceived (run evs (constructor enable)) = 0%nat
  /\ targetBlendshapes
       (handleBlendshapeUpdate now (deltaMsg d) (run evs (constructor enable)))
     = d
  /\ deltasApplied
       (handleBlendshapeUpdate now (deltaMsg d) (run evs (constructor enable)))
     = S (deltasApplied (run evs (constructor enable))).
Proof.
  intros Hno.
  destruct (no_keyframe_baseline evs (constructor enable) Hno eq_refl eq_refl)
    as [Hk Hn].
  split; [exact Hn|].
  unfold handleBlendshapeUpdate, deltaMsg, applyCompression. simpl.
  destruct (enableInterpolation (run evs (constructor enable))); simpl;
    rewrite Hk, assignEntries_empty_base; now split.
Qed.

Lemma delta_before_keyframe_applied_witness :
  targetBlendshapes
    (handleBlendshapeUpdate 16 (deltaMsg {[ "A"%string := 3 # 5 ]})
       (run [Frame 5] (constructor true)))
  = {[ "A"%string := 3 # 5 ]}.
Proof.
  apply (delta_before_keyframe_applied [Frame 5] true 16 {[ "A"%string := 3 # 5 ]}).
  reflexivity.
Defined.

(** C4, as stated, fails: the first message a fresh client receives is a
    delta, and the client's state changes (the delta becomes the target). *)
Lemma delta_before_keyframe_not_rejected :
  keyframesReceived (constructor true) = 0%nat
  /\ targetBlendshapes
       (handleBlendshapeUpdate 0 (deltaMsg {[ "A"%string := 3 # 5 ]}) (constructor true))
     !! "A"%string = Some (3 # 5)
  /\ handleBlendshapeUpdate 0 (deltaMsg {[ "A"%string := 3 # 5 ]}) (constructor true)
     <> constructor true.
Proof.
  split; [reflexivity|]. split; [reflexivity|].
  intros H. apply (f_equal deltasApplied) in H. discriminate H.
Qed.

(** C5, as the code has it.  There is no decay timeout.  With no further
    message, after a frame at or past the end of the transition and after
    every later frame, the channel map is the last target map, or the
    unchanged current map when no transition was in flight: a channel holds
    its value however much time passes. *)
Theorem channels_hold_without_snapshots (c : State) (t : Q) (ts : list Q) :
  0 < interpolationDuration c ->
  interpolationStartTime c + interpolationDuration c <= t ->
  currentBlendshapes (runFrames (t :: ts) c)
  = if interpolationActive c then targetBlendshapes c else currentBlendshapes c.
Proof.
  intros Hd He. destruct (interpolationActive c) eqn:Ha.
  - change (runFrames (t :: ts) c) with (runFrames ts (animate t c)).
    destruct (updateInterpolation_settles c t Ha (progress_done t c Hd He))
      as [Hi Hc].
    unfold animate. now rewrite (runFrames_inactive ts _ Hi).
  - now rewrite (runFrames_inactive (t :: ts) c Ha).
Qed.

Lemma channels_hold_without_snapshots_witness :
  0 < interpolationDuration rising
  /\ interpolationStartTime rising + interpolationDuration rising <= 33
  /\ currentBlendshapes (runFrames [33; 300; 600] rising)
     = {[ "A"%string := 4 # 5 ]}.
Proof.
  split; [reflexivity|]. split; [vm_compute; discriminate|].
  apply (channels_hold_without_snapshots rising 33 [300; 600]);
    [reflexivity | vm_compute; discriminate].
Defined.

(** C5, as stated, fails: a channel at 0.8 at time 0 that receives nothing
    more is still at 0.8 at 600 ms, with or without interpolation. *)
Lemma no_decay_after_timeout :
  sample holdingA "A" = 4 # 5
  /\ sample (runFrames [16; 300; 500; 600] holdingA) "A" = 4 # 5
  /\ sample (runFrames [16; 33; 300; 500; 600] rising) "A" = 4 # 5
  /\ ~ (4 # 5 <= 1 # 100).
Proof.
  split; [reflexivity|]. split; [reflexivity|]. split; [reflexivity|].
  vm_compute. intros H. apply H. reflexivity.
Qed.

End ClientFacts.

(** ** The codec: delta encoding and its decoding by the client *)

Module CodecFacts.
Import Num NumFacts Codec Client ClientFacts Scenarios.

(** A loop that conditionally assigns [g key value] under [key], run over
    the entries of [m] on top of [base]. *)
Lemma lookup_fold_assign
    (p : string -> Q -> bool) (g : string -> Q -> Q)
    (base m : gmap string Q) (k : string) :
  map_fold (fun key value acc =>
              if p key value then <[key := g key value]> acc else acc) base m
  !! k
  = match m !! k with
    | Some v => if p k v then Some (g k v) else base !! k
    | None => base !! k
    end.
Proof.
  revert k.
  apply (map_fold_weak_ind
           (fun (r : gmap string Q) (m : gmap string Q) =>
              forall k, r !! k = match m !! k with
                                 | Some v => if p k v then Some (g k v)
                                             else base !! k
                                 | None => base !! k
                                 end)).
  - intros k. now rewrite lookup_empty.
  - intros i x m' r Hi IH k. destruct (decide (i = k)) as [->|Hne].
    + rewrite lookup_insert_eq. destruct (p k x).
      * now rewrite lookup_insert_eq.
      * rewrite IH, Hi. reflexivity.
    + rewrite (lookup_insert_ne m') by exact Hne.
      destruct (p i x); [rewrite lookup_insert_ne by exact Hne|]; apply IH.
Qed.

(** The content of the encoded delta, channel by channel. *)
Lemma lookup_compress (current previous : gmap string Q) (k : string) :
  compress current previous !! k
  = match current !! k with
    | Some v => if changed previous k v then Some v else None
    | None =>
        match previous !! k with
        | Some old => if Qltb wire_epsilon old then Some 0 else None
        | None => None
        end
    end.
Proof.
  unfold compress. cbv zeta.
  rewrite (lookup_fold_assign (removed current) (fun _ _ => 0)).
  rewrite (lookup_fold_assign (changed previous) (fun _ v => v)).
  rewrite lookup_empty. unfold removed.
  destruct (current !! k) as [v|] eqn:Hc.
  - now destruct (previous !! k).
  - destruct (previous !! k) as [old|]; [|reflexivity].
    now destruct (Qltb wire_epsilon old).
Qed.

(** What the client holds as targets after decoding a delta against its
    keyframe. *)
Lemma decoded_delta (c : State) (now : Q) (delta : gmap string Q) (k : string) :
  targetBlendshapes (handleBlendshapeUpdate now (deltaMsg delta) c) !! k
  = match delta !! k with
    | Some v => Some v
    | None => keyframeBlendshapes c !! k
    end.
Proof.
  unfold handleBlendshapeUpdate, deltaMsg, applyCompression. simpl.
  destruct (enableInterpolation c); simpl; apply lookup_assignEntries.
Qed.

(** C2, as the code has it.  Decoding [compress S K] against the keyframe
    [K] (whose values are not negative) gives every channel whose value
    differs from [K] by more than 0.001 its value in [S], written out as 0
    when [S] lacks the channel; it keeps [K]'s value for every channel of
    [K] within 0.001 of [S]; and it also carries every channel of [S] that
    [K] does not have, whatever its value. *)
Theorem roundtrip_delta
    (S K : gmap string Q) (c : State) (now : Q) (k : string) :
  keyframeBlendshapes c = K ->
  (forall v, K !! k = Some v -> 0 <= v) ->
  (wire_epsilon < Qabs (orZero (S !! k) - orZero (K !! k)) ->
   targetBlendshapes (handleBlendshapeUpdate now (deltaMsg (compress S K)) c) !! k
   = Some (orZero (S !! k)))
  /\ (~ wire_epsilon < Qabs (orZero (S !! k) - orZero (K !! k)) ->
      is_Some (K !! k) ->
      targetBlendshapes (handleBlendshapeUpdate now (deltaMsg (compress S K)) c) !! k
      = K !! k)
  /\ (K !! k = None ->
      targetBlendshapes (handleBlendshapeUpdate now (deltaMsg (compress S K)) c) !! k
      = S !! k).
Proof.
  intros HK Hpos. rewrite decoded_delta, lookup_compress, HK. unfold changed.
  destruct (S !! k) as [v|] eqn:HS; destruct (K !! k) as [old|] eqn:HKk;
    rewrite ?orZero_Some, ?orZero_None; cbv beta iota.
  - destruct (Qltb wire_epsilon (Qabs (v - old))) eqn:E.
    + split; [reflexivity|]. split; [|discriminate].
      intros H. apply Qltb_lt in E. contradiction.
    + split; [|split; [reflexivity | discriminate]].
      intros H. apply Qltb_lt in H. congruence.
  - split; [reflexivity|]. split; [intros _ [? ?]; discriminate | reflexivity].
  - pose proof (Hpos old eq_refl) as Hold.
    assert (Habs : Qabs (0 - old) == old).
    { transitivity (Qabs (- old)); [apply Qabs_wd; ring|].
      rewrite Qabs_opp. now apply Qabs_pos. }
    rewrite Habs.
    destruct (Qltb wire_epsilon old) eqn:E.
    + split; [reflexivity|]. split; [|discriminate].
      intros H. apply Qltb_lt in E. contradiction.
    + split; [|split; [reflexivity | discriminate]].
      intros H. apply Qltb_lt in H. congruence.
  - split; [|split; reflexivity].
    intros H. exfalso. revert H. vm_compute. discriminate.
Qed.

Lemma roundtrip_delta_witness :
  targetBlendshapes
    (handleBlendshapeUpdate 33
       (deltaMsg (compress {[ "A"%string := 3 # 5; "B"%string := 401 # 2000 ]}
                           (keyframeBlendshapes withBaseline)))
       withBaseline) !! "C"%string
  = Some 0.
Proof.
  destruct (roundtrip_delta {[ "A"%string := 3 # 5; "B"%string := 401 # 2000 ]}
              (keyframeBlendshapes withBaseline) withBaseline 33 "C")
    as (H & _ & _).
  - reflexivity.
  - intros v Hv. vm_compute in Hv. injection Hv as <-. vm_compute. discriminate.
  - apply H. vm_compute. reflexivity.
Defined.

(** C2, as stated, fails: a channel that the reference lacks is carried and
    reconstructed although its value is within 0.001 of the 0 it counts
    for. *)
Lemma roundtrip_law_fails :
  compress {[ "N"%string := 1 # 2000 ]} ∅ !! "N"%string = Some (1 # 2000)
  /\ targetBlendshapes
       (handleBlendshapeUpdate 0
          (deltaMsg (compress {[ "N"%string := 1 # 2000 ]} ∅)) (constructor true))
     !! "N"%string = Some (1 # 2000)
  /\ ~ spec_roundtrip_law {[ "N"%string := 1 # 2000 ]} ∅.
Proof.
  split; [reflexivity|]. split; [reflexivity|].
  intros H. destruct (H "N"%string) as [H1 _].
  assert (Hs : is_Some (compress {[ "N"%string := 1 # 2000 ]} ∅ !! "N"%string))
    by (eexists; reflexivity).
  specialize (H1 Hs). revert H1. vm_compute. discriminate.
Qed.

End CodecFacts.

(** ** The morph system: selective updates, the cap and priority morphs *)

Module MorphFacts.
Import Num NumFacts Morph Scenarios.

Lemma agreeOn_refl name s : agreeOn name s s.
Proof. repeat split. Qed.

Lemma agreeOn_trans name s1 s2 s3 :
  agreeOn name s1 s2 -> agreeOn name s2 s3 -> agreeOn name s1 s3.
Proof.
  intros (A1 & A2 & A3 & A4 & A5) (B1 & B2 & B3 & B4 & B5).
  repeat split; congruence.
Qed.

(** [setMorph] on another morph leaves all of that alone. *)
Lemma setMorph_agreeOn (name other : string) (v : Q) (force : bool) (s : State) :
  other <> name -> agreeOn name s (setMorph other v force s).2.
Proof.
  intros Hne. unfold setMorph.
  destruct (negb (bool_decide (other ∈ morphMap s))); [apply agreeOn_refl|].
  destruct (negligible other v force s); [repeat split|].
  destruct (overLimit other v force s); [repeat split|].
  repeat split. simpl. now apply lookup_insert_ne.
Qed.

(** [setMorph] never touches the configuration. *)
Lemma setMorph_priorityMorphs (name : string) (v : Q) (force : bool) (s : State) :
  priorityMorphs (setMorph name v force s).2 = priorityMorphs s.
Proof.
  unfold setMorph.
  destruct (negb (bool_decide (name ∈ morphMap s))); [reflexivity|].
  destruct (negligible name v force s); [reflexivity|].
  destruct (overLimit name v force s); reflexivity.
Qed.

Lemma counts_not_negligible name value s :
  counts name value s -> negligible name value false s = false.
Proof.
  unfold counts, negligible. cbv zeta. intros [H|H].
  - rewrite H. reflexivity.
  - apply Qltb_ge in H. rewrite H. apply andb_false_r.
Qed.

Lemma counts_agreeOn name value s s' :
  agreeOn name s s' -> counts name value s -> counts name value s'.
Proof.
  intros (A1 & A2 & _ & _ & A5). unfold counts. now rewrite A1, A2, A5.
Qed.

(** A priority morph known to the registry whose change counts is accepted
    whatever the active set. *)
Lemma setMorph_priority (name : string) (value : Q) (s : State) :
  name ∈ priorityMorphs s -> name ∈ morphMap s -> counts name value s ->
  setMorph name value false s = (true, store name value s).
Proof.
  intros Hp Hm Hc. unfold setMorph.
  rewrite (bool_decide_eq_true_2 _ Hm). simpl.
  rewrite (counts_not_negligible _ _ _ Hc).
  unfold overLimit. cbv zeta. rewrite (bool_decide_eq_true_2 _ Hp). simpl.
  now rewrite andb_false_r.
Qed.

(** The list [updates] only grows during the [forEach]. *)
Lemma updates_kept (entries : list (string * Q)) (acc : list string * State)
      (name : string) :
  name ∈ acc.1 -> name ∈ (fold_left setEntry entries acc).1.
Proof.
  revert acc. induction entries as [|e entries IH]; intros acc H; simpl.
  - exact H.
  - apply IH. unfold setEntry. simpl.
    destruct (setMorph e.1 e.2 false acc.2).1; [|exact H].
    apply elem_of_app. now left.
Qed.

(** Entries for other morphs leave [name] as it was. *)
Lemma others_agreeOn (entries : list (string * Q)) (acc : list string * State)
      (name : string) :
  name ∉ map fst entries ->
  agreeOn name acc.2 (fold_left setEntry entries acc).2.
Proof.
  revert acc. induction entries as [|e entries IH]; intros acc H; simpl.
  - apply agreeOn_refl.
  - simpl in H. apply not_elem_of_cons in H as [Hne Hrest].
    eapply agreeOn_trans; [|apply IH; exact Hrest].
    unfold setEntry. simpl. apply setMorph_agreeOn. congruence.
Qed.

(** The [forEach] accepts the entry of a priority morph whose change
    counts, and nothing later in the list overwrites it. *)
Lemma forEach_admits_priority
      (entries : list (string * Q)) (acc : list string * State)
      (name : string) (value : Q) :
  NoDup (map fst entries) ->
  (name, value) ∈ entries ->
  name ∈ priorityMorphs acc.2 -> name ∈ morphMap acc.2 ->
  counts name value acc.2 ->
  name ∈ (fold_left setEntry entries acc).1
  /\ morphStates (fold_left setEntry entries acc).2 !! name = Some value.
Proof.
  revert acc. induction entries as [|e entries IH];
    intros acc Hnd Hin Hp Hm Hc; simpl.
  - apply elem_of_nil in Hin. contradiction.
  - simpl in Hnd. apply NoDup_cons in Hnd as [Hfresh Hnd].
    apply elem_of_cons in Hin as [<-|Hin].
    + simpl in Hfresh. split.
      * apply updates_kept. unfold setEntry. simpl.
        rewrite (setMorph_priority name value acc.2 Hp Hm Hc). simpl.
        apply elem_of_app. right. apply list_elem_of_singleton. reflexivity.
      * destruct (others_agreeOn entries (setEntry acc (name, value)) name Hfresh)
          as (_ & _ & _ & _ & ->).
        unfold setEntry. simpl.
        rewrite (setMorph_priority name value acc.2 Hp Hm Hc). simpl.
        apply lookup_insert_eq.
    + assert (Hne : e.1 <> name).
      { intros E. apply Hfresh. rewrite E.
        change name with ((name, value).1).
        apply list_elem_of_fmap_2. exact Hin. }
      pose proof (setMorph_agreeOn name e.1 e.2 false acc.2 Hne) as Hag.
      apply IH; try assumption; unfold setEntry; simpl.
      * destruct Hag as (_ & _ & -> & _). exact Hp.
      * destruct Hag as (_ & _ & _ & -> & _). exact Hm.
      * eapply counts_agreeOn; eassumption.
Qed.

(** Sorting the entries by priority only reorders them. *)
Lemma sortedEntries_perm (morphData : list (string * Q)) (s : State) :
  Permutation morphData (sortedEntries morphData s).
Proof.
  unfold sortedEntries. cbv zeta.
  induction morphData as [|e l IH]; simpl.
  - constructor.
  - destruct (bool_decide (e.1 ∈ priorityMorphs s)); simpl.
    + now constructor.
    + now apply Permutation_cons_app.
Qed.

(** *** Claims on the scheduler *)

(** C1, as the code has it.  A priority morph of the incoming snapshot that
    the registry knows and whose change counts (selective updates are off,
    or the change reaches the preset's [morphUpdateThreshold]) is admitted
    whatever the size of the active set: [setMorph] accepts it,
    [updateMorphs] lists it and stores its new value, and
    [shouldUpdateMorph] returns true for it under every preset. *)
Theorem priority_morph_admitted
    (s : State) (morphData : list (string * Q)) (name : string) (value : Q)
    (preset : Preset) :
  NoDup (map fst morphData) ->
  (name, value) ∈ morphData ->
  name ∈ priorityMorphs s ->
  name ∈ morphMap s ->
  counts name value s ->
  (setMorph name value false s).1 = true
  /\ name ∈ updatedMorphs morphData s
  /\ morphStates (updateMorphs morphData s).2 !! name = Some value
  /\ shouldUpdateMorph name preset (updateMorphs morphData s).2 = true.
Proof.
  intros Hnd Hin Hp Hm Hc.
  pose proof (sortedEntries_perm morphData s) as Hperm.
  assert (Hnd' : NoDup (map fst (sortedEntries morphData s))).
  { assert (Hpm : Permutation (map fst morphData)
                              (map fst (sortedEntries morphData s)))
      by (now apply Permutation_map).
    now rewrite <- Hpm. }
  assert (Hin' : (name, value) ∈ sortedEntries morphData s)
    by (now rewrite <- Hperm).
  destruct (forEach_admits_priority (sortedEntries morphData s) ([], s)
              name value Hnd' Hin' Hp Hm Hc) as [Hu Hv].
  split; [now rewrite (setMorph_priority name value s Hp Hm Hc)|].
  split; [exact Hu|]. split; [exact Hv|].
  unfold shouldUpdateMorph, updateMorphs, setAll. simpl.
  assert (Hpr : forall entries acc,
             priorityMorphs (fold_left setEntry entries acc).2
             = priorityMorphs acc.2).
  { induction entries as [|e entries IH]; intros acc; simpl; [reflexivity|].
    rewrite IH. unfold setEntry. simpl. apply setMorph_priorityMorphs. }
  rewrite Hpr. simpl. now rewrite (bool_decide_eq_true_2 _ Hp).
Qed.

Lemma priority_morph_admitted_witness :
  size (activeMorphs saturated) = 50%nat
  /\ (setMorph "V_AA" (1 # 2) false saturated).1 = true
  /\ "V_AA"%string ∈ updatedMorphs snapshot203 saturated
  /\ morphStates (updateMorphs snapshot203 saturated).2 !! "V_AA"%string
     = Some (1 # 2).
Proof.
  split; [vm_compute; reflexivity|].
  destruct (priority_morph_admitted saturated snapshot203 "V_AA" (1 # 2)
              (qualityPresets low)) as (H1 & H2 & H3 & _).
  - decided.
  - apply (list_elem_of_lookup_2 _ 201). vm_compute. reflexivity.
  - decided.
  - decided.
  - right. vm_compute. discriminate.
  - split; [exact H1|]. split; [exact H2 | exact H3].
Defined.

(** The concrete case of the specification, computed: with the active set
    at the cap, the snapshot of 203 changes admits the 50 active ambient
    channels and all 3 priority channels, and defers the other 150. *)
Example snapshot203_admits_priority :
  size (activeMorphs saturated) = maxActiveMorphs (qualityPresets low)
  /\ length snapshot203 = 203%nat
  /\ (updateMorphs snapshot203 saturated).1 = 53%nat
  /\ take 3 (updatedMorphs snapshot203 saturated) = visemes.
Proof. vm_compute. repeat split. Qed.

(** C1, as stated, fails: a priority morph whose value in the snapshot is
    within the preset's threshold of its current value is skipped. *)
Lemma priority_morph_below_threshold_skipped :
  "V_Open"%string ∈ priorityMorphs (initialize medium defaultPriorityMorphs
                                      (list_to_set visemes))
  /\ (setMorph "V_Open" (1 # 200) false
        (initialize medium defaultPriorityMorphs (list_to_set visemes))).1 = false
  /\ updatedMorphs [("V_Open"%string, 1 # 200)]
       (initialize medium defaultPriorityMorphs (list_to_set visemes)) = []
  /\ ~ spec_priority_always_admitted [("V_Open"%string, 1 # 200)]
         (initialize medium defaultPriorityMorphs (list_to_set visemes)).
Proof.
  split; [decided|].
  split; [vm_compute; reflexivity|]. split; [vm_compute; reflexivity|].
  intros H. specialize (H "V_Open"%string (1 # 200)).
  assert (Hu : updatedMorphs [("V_Open"%string, 1 # 200)]
                 (initialize medium defaultPriorityMorphs (list_to_set visemes))
               = []) by (vm_compute; reflexivity).
  rewrite Hu in H. apply (not_elem_of_nil "V_Open"%string). apply H.
  - apply list_elem_of_singleton. reflexivity.
  - decided.
Qed.

End MorphFacts.

(** ** Decoding: what is stored for a wire value *)

Module DecodeFacts.
Import Num NumFacts Client ClientFacts.

(** Where the engine does clamp: the backend's input validator returns
    values in [[0,1]] only. *)
Lemma validate_morphs_clamped (morphs : gmap string Q) :
  spec_clamped (Validator.validate_morphs morphs).
Proof.
  intros morph v. unfold Validator.validate_morphs.
  rewrite (CodecFacts.lookup_fold_assign
             (fun name _ => Validator.matchName name false)
             (fun _ value => Validator.clampUnit value)).
  rewrite lookup_empty.
  destruct (morphs !! morph) as [w|]; [|discriminate].
  destruct (Validator.matchName morph false); [|discriminate].
  intros [= <-]. unfold Validator.clampUnit. cbv zeta.
  destruct (Qltb w 1) eqn:E1.
  - apply Qltb_lt in E1. destruct (Qltb 0 w) eqn:E0.
    + apply Qltb_lt in E0. lra.
    + lra.
  - destruct (Qltb 0 1) eqn:E0; lra.
Qed.

Example matchName_viseme : Validator.matchName "V_Open" false = true.
Proof. reflexivity. Qed.

Example matchName_rejects_space : Validator.matchName "jaw open" false = false.
Proof. reflexivity. Qed.

Example matchName_rejects_empty : Validator.matchName EmptyString false = false.
Proof. reflexivity. Qed.

(** C9, as the code has it.  Nothing clamps at decode time: for a keyframe
    or a delta, the client stores every wire value as it came, as target
    and, without interpolation, as current value; and when [setMorph]
    accepts a value it stores that very value. *)
Theorem wire_values_stored_unclamped
    (c : State) (now : Q) (comp : Compression) (morph : string) (v : Q) :
  ctype comp = "keyframe"%string \/ ctype comp = "delta"%string ->
  cdata comp !! morph = Some v ->
  targetBlendshapes (handleBlendshapeUpdate now {| compression := Some comp |} c)
    !! morph = Some v
  /\ (enableInterpolation c = false ->
      currentBlendshapes
        (handleBlendshapeUpdate now {| compression := Some comp |} c)
        !! morph = Some v)
  /\ (forall (s : Morph.State) (force : bool),
        (Morph.setMorph morph v force s).1 = true ->
        Morph.morphStates (Morph.setMorph morph v force s).2 !! morph = Some v).
Proof.
  intros Hty Hv.
  assert (Ht : targetBlendshapes (applyCompression comp c) !! morph = Some v).
  { unfold applyCompression. destruct Hty as [E|E]; rewrite E; simpl.
    - exact Hv.
    - rewrite lookup_assignEntries. now rewrite Hv. }
  destruct (applyCompression_preserves comp c) as (Hen & _ & _).
  split; [|split].
  - unfold handleBlendshapeUpdate. simpl.
    destruct (enableInterpolation (applyCompression comp c)); exact Ht.
  - intros He. unfold handleBlendshapeUpdate. simpl.
    rewrite Hen, He. exact Ht.
  - intros s force. unfold Morph.setMorph.
    destruct (negb (bool_decide (morph ∈ Morph.morphMap s))); [discriminate|].
    destruct (Morph.negligible morph v force s); [discriminate|].
    destruct (Morph.overLimit morph v force s); [discriminate|].
    intros _. simpl. apply lookup_insert_eq.
Qed.

Lemma wire_values_stored_unclamped_witness :
  currentBlendshapes
    (handleBlendshapeUpdate 0 (keyframeMsg {[ "A"%string := 3 # 2 ]})
       (constructor false)) !! "A"%string
  = Some (3 # 2).
Proof.
  destruct (wire_values_stored_unclamped (constructor false) 0
              {| ctype := "keyframe"; cdata := {[ "A"%string := 3 # 2 ]} |}
              "A" (3 # 2)) as (_ & H & _).
  - left. reflexivity.
  - reflexivity.
  - apply H. reflexivity.
Defined.

(** C9, as stated, fails: a keyframe with the wire values 1.5 and -0.25 is
    stored and shown with those values, and [setMorph] stores 1.5 as well. *)
Lemma out_of_range_value_stored :
  targetBlendshapes
    (handleBlendshapeUpdate 0
       (keyframeMsg {[ "A"%string := 3 # 2; "B"%string := -1 # 4 ]})
       (constructor false)) !! "A"%string = Some (3 # 2)
  /\ ~ spec_clamped
         (currentBlendshapes
            (handleBlendshapeUpdate 0
               (keyframeMsg {[ "A"%string := 3 # 2; "B"%string := -1 # 4 ]})
               (constructor false)))
  /\ ~ spec_clamped
         (targetBlendshapes
            (handleBlendshapeUpdate 0
               (keyframeMsg {[ "A"%string := 3 # 2; "B"%string := -1 # 4 ]})
               (constructor true)))
  /\ Morph.morphStates
       (Morph.setMorph "V_Open" (3 # 2) false
          (Morph.initialize Morph.medium Morph.defaultPriorityMorphs
             {[ "V_Open"%string ]})).2 !! "V_Open"%string = Some (3 # 2).
Proof.
  split; [reflexivity|]. split; [|split].
  - intros H. destruct (H "A"%string (3 # 2) eq_refl) as [_ H1].
    revert H1. vm_compute. intros H1. apply H1. reflexivity.
  - intros H. destruct (H "B"%string (-1 # 4) eq_refl) as [H0 _].
    revert H0. vm_compute. intros H0. apply H0. reflexivity.
  - vm_compute. reflexivity.
Qed.

End DecodeFacts.

(** ** The quality controller *)

Module ControllerFacts.
Import Num NumFacts Morph Controller.

Lemma setQuality_low (s : State) : quality (setQuality "low" s) = low.
Proof. reflexivity. Qed.

Lemma setQuality_medium (s : State) : quality (setQuality "medium" s) = medium.
Proof. reflexivity. Qed.

(** C6, as the code has it.  One window of the adjustment loop sends the
    active tier straight to [low] when the average frame rate is under 30,
    from whatever tier; it raises [low] to [medium] when the rate is over
    55; otherwise it keeps the tier.  So a tier is raised by one position at
    most, while a drop may skip tiers. *)
Theorem quality_adjustment_steps (fps : option Q) (s : State) :
  quality (adjustQuality fps s)
  = (if fpsBelow fps 30 then low
     else if fpsAbove fps 55 && bool_decide (quality s = low) then medium
     else quality s)
  /\ (tierRank (quality (adjustQuality fps s)) <= tierRank (quality s) + 1)%Z.
Proof.
  assert (Hx : fpsBelow fps 30 = true -> fpsAbove fps 55 = false).
  { destruct fps as [f|]; simpl; [|reflexivity].
    intros H. apply Qltb_lt in H. apply Qltb_ge. lra. }
  unfold adjustQuality.
  destruct (fpsBelow fps 30) eqn:Hb; simpl.
  - rewrite (Hx eq_refl). simpl.
    destruct (bool_decide (quality s = low)) eqn:Hq; simpl.
    + apply bool_decide_eq_true_1 in Hq. rewrite Hq. split; [reflexivity|].
      simpl. lia.
    + rewrite ?setQuality_low. split; [reflexivity|].
      destruct (quality s); simpl; lia.
  - destruct (fpsAbove fps 55); simpl.
    + destruct (bool_decide (quality s = low)) eqn:Hq; simpl.
      * apply bool_decide_eq_true_1 in Hq. rewrite ?setQuality_medium, Hq.
        split; [reflexivity|]. simpl. lia.
      * split; [reflexivity|]. lia.
    + split; [reflexivity|]. lia.
Qed.

(** C6, as stated, fails: starting at [high], one window at 20 frames per
    second (three times the 60 fps frame budget) ends at [low], two tiers
    down. *)
Lemma high_drops_to_low_in_one_window :
  quality (initialize high defaultPriorityMorphs ∅) = high
  /\ quality (adjustQuality (Some 20) (initialize high defaultPriorityMorphs ∅))
     = low
  /\ ~ spec_one_tier_per_window (Some 20)
         (initialize high defaultPriorityMorphs ∅).
Proof.
  split; [reflexivity|]. split; [reflexivity|].
  unfold spec_one_tier_per_window. vm_compute. intros H. apply H. reflexivity.
Qed.

End ControllerFacts.

(** ** The morph system over whole runs *)

Module MorphOpsFacts.
Import Num NumFacts Morph MorphFacts MorphOps.

Lemma consistent_initialize (q : Quality) (priority morphs : gset string) :
  consistent (initialize q priority morphs).
Proof.
  unfold consistent. simpl. split; [apply dom_gset_to_gmap|]. split.
  - intros name. split.
    + intros H. apply elem_of_empty in H. contradiction.
    + intros (v & Hv & Hlt). apply lookup_gset_to_gmap_Some in Hv as [_ <-].
      exfalso. revert Hlt. vm_compute. discriminate.
  - apply empty_subseteq.
Qed.

Lemma consistent_store (name : string) (value : Q) (s : State) :
  name ∈ morphMap s -> consistent s -> consistent (store name value s).
Proof.
  intros Hm (Hdom & Hact & Hdirty). unfold consistent. simpl. split; [|split].
  - rewrite dom_insert_L, Hdom. apply set_eq. intros x.
    rewrite elem_of_union, elem_of_singleton. split; [intros [->|H]|]; auto.
  - intros x. destruct (decide (x = name)) as [->|Hne].
    + rewrite lookup_insert_eq. destruct (Qltb (1 # 1000) value) eqn:E.
      * apply Qltb_lt in E. split.
        -- intros _. exists value. now split.
        -- intros _. apply elem_of_union. left. now apply elem_of_singleton.
      * apply Qltb_ge in E. split.
        -- intros H. apply elem_of_difference in H as [_ H].
           exfalso. apply H. now apply elem_of_singleton.
        -- intros (v & [= <-] & Hlt). exfalso. lra.
    + rewrite lookup_insert_ne by congruence. rewrite <- Hact.
      destruct (Qltb (1 # 1000) value).
      * rewrite elem_of_union, elem_of_singleton. split; [intros [E|H]|]; auto.
        contradiction.
      * rewrite elem_of_difference, elem_of_singleton. split; [intros [H _]|]; auto.
  - intros x. rewrite elem_of_union, elem_of_singleton.
    intros [->|H]; [exact Hm | now apply Hdirty].
Qed.

(** [setMorph] keeps the bookkeeping consistent, accepted or not. *)
Lemma consistent_setMorph (name : string) (value : Q) (force : bool) (s : State) :
  consistent s -> consistent (setMorph name value force s).2.
Proof.
  intros Hc. unfold setMorph.
  destruct (bool_decide (name ∈ morphMap s)) eqn:Hm; simpl; [|exact Hc].
  apply bool_decide_eq_true_1 in Hm.
  destruct (negligible name value force s); [exact Hc|].
  destruct (overLimit name value force s); [exact Hc|].
  now apply consistent_store.
Qed.

Lemma consistent_forEach (entries : list (string * Q)) (acc : list string * State) :
  consistent acc.2 -> consistent (fold_left setEntry entries acc).2.
Proof.
  revert acc. induction entries as [|e entries IH]; intros acc H; simpl.
  - exact H.
  - apply IH. unfold setEntry. simpl. now apply consistent_setMorph.
Qed.

Lemma consistent_updateMorphs (morphData : list (string * Q)) (s : State) :
  consistent s -> consistent (updateMorphs morphData s).2.
Proof.
  intros H. unfold updateMorphs, setAll. simpl.
  pose proof (consistent_forEach (sortedEntries morphData s) ([], s) H) as Hc.
  exact Hc.
Qed.

(** Processing dirty morphs writes to the meshes only. *)
Lemma sys_processDirty (name : string) (r : System) :
  sys (processDirty name r) = sys r.
Proof.
  unfold processDirty, applyMorph.
  destruct (morphStates (sys r) !! name); [|reflexivity].
  destruct (shouldUpdateMorph _ _ _); [|reflexivity].
  destruct (bool_decide _); reflexivity.
Qed.

Lemma sys_fold_processDirty (X : gset string) (r : System) :
  sys (set_fold processDirty r X) = sys r.
Proof.
  apply (set_fold_ind_L (fun (acc : System) (_ : gset string) => sys acc = sys r)).
  - reflexivity.
  - intros x Y acc _ IH. now rewrite sys_processDirty.
Qed.

Lemma sys_tick (deltaTime : Q) (r : System) :
  sys (tick deltaTime r) = clearDirty (nextFrame (sys r)).
Proof.
  unfold tick, processDirtyMorphs. simpl. now rewrite sys_fold_processDirty.
Qed.

Lemma consistent_runOp (op : Op) (r : System) :
  consistent (sys r) -> consistent (sys (runOp r op)).
Proof.
  intros Hc. destruct op; cbn [runOp onSys sys].
  - now apply consistent_setMorph.
  - now apply consistent_updateMorphs.
  - unfold updateLOD. destruct (negb (lodEnabled (sys r))); exact Hc.
  - unfold setQuality. destruct (lookupQuality name); exact Hc.
  - rewrite sys_tick. destruct Hc as (H1 & H2 & H3).
    split; [exact H1|]. split; [exact H2|]. simpl. apply empty_subseteq.
  - exact Hc.
  - destruct Hc as (H1 & H2 & H3). unfold consistent. simpl. split; [|split].
    + now rewrite dom_fmap_L.
    + intros name. split.
      * intros H. apply elem_of_empty in H. contradiction.
      * intros (v & Hv & Hlt). rewrite lookup_fmap in Hv.
        destruct (morphStates (sys r) !! name); simpl in Hv; [|discriminate].
        injection Hv as <-. exfalso. revert Hlt. vm_compute. discriminate.
    + apply empty_subseteq.
Qed.

Lemma consistent_runOps (ops : list Op) (r : System) :
  consistent (sys r) -> consistent (sys (runOps ops r)).
Proof.
  unfold runOps. revert r. induction ops as [|op ops IH]; intros r Hc; simpl.
  - exact Hc.
  - apply IH. now apply consistent_runOp.
Qed.

(** X1.  Whatever the render loop calls and in whatever order, starting
    from [initialize]: a state exists exactly for the morphs of the map,
    the active set is exactly the set of morphs whose state exceeds 0.001,
    and every dirty morph is a morph of the map. *)
Theorem bookkeeping_consistent
    (ops : list Op) (q : Quality) (priority morphs : gset string) :
  consistent (sys (runOps ops (start q priority morphs))).
Proof.
  apply consistent_runOps. simpl. apply consistent_initialize.
Qed.

(** [setMorph] never touches the quality tier or the registry. *)
Lemma setMorph_config (name : string) (v : Q) (force : bool) (s : State) :
  quality (setMorph name v force s).2 = quality s
  /\ morphMap (setMorph name v force s).2 = morphMap s
  /\ selectiveUpdates (setMorph name v force s).2 = selectiveUpdates s.
Proof.
  unfold setMorph.
  destruct (negb (bool_decide (name ∈ morphMap s))); [repeat split|].
  destruct (negligible name v force s); [repeat split|].
  destruct (overLimit name v force s); repeat split.
Qed.

Lemma size_add (name : string) (X : gset string) :
  (size ({[name]} ∪ X) <= S (size X))%nat.
Proof.
  destruct (decide (name ∈ X)) as [H|H].
  - assert (E : {[name]} ∪ X = X).
    { apply set_eq. intros x. rewrite elem_of_union, elem_of_singleton.
      split; [intros [->|Hx]|]; auto. }
    rewrite E. lia.
  - rewrite size_union.
    + rewrite size_singleton. lia.
    + intros x Hx HX. apply elem_of_singleton in Hx. congruence.
Qed.

Lemma size_remove (name : string) (X : gset string) :
  (size (X ∖ {[name]}) <= size X)%nat.
Proof.
  apply subseteq_size. intros x Hx. now apply elem_of_difference in Hx as [Hx _].
Qed.

(** One unforced [setMorph] adds at most one morph to the active set, and
    none beyond the cap when the morph has no priority. *)
Lemma setMorph_size (name : string) (v : Q) (s : State) :
  (size (activeMorphs (setMorph name v false s).2) <= S (size (activeMorphs s)))%nat
  /\ (name ∉ priorityMorphs s ->
      (size (activeMorphs (setMorph name v false s).2)
       <= Nat.max (size (activeMorphs s))
                  (maxActiveMorphs (qualityPresets (quality s))))%nat).
Proof.
  unfold setMorph.
  destruct (negb (bool_decide (name ∈ morphMap s))); [simpl; split; lia|].
  destruct (negligible name v false s); [simpl; split; lia|].
  destruct (overLimit name v false s) eqn:Hover; [simpl; split; lia|].
  simpl. destruct (Qltb (1 # 1000) v) eqn:Hv.
  - split; [apply size_add|]. intros Hp.
    unfold overLimit in Hover. cbv zeta in Hover. simpl in Hover.
    assert (H0 : Qltb 0 v = true).
    { apply Qltb_lt. apply Qltb_lt in Hv.
      apply Qlt_trans with (1 # 1000); [reflexivity | exact Hv]. }
    rewrite H0 in Hover. simpl in Hover.
    rewrite (bool_decide_eq_false_2 _ Hp) in Hover. simpl in Hover.
    rewrite andb_true_r in Hover.
    destruct (bool_decide (name ∈ activeMorphs s)) eqn:Ha; simpl in Hover.
    + apply bool_decide_eq_true_1 in Ha.
      assert (E : {[name]} ∪ activeMorphs s = activeMorphs s).
      { apply set_eq. intros x. rewrite elem_of_union, elem_of_singleton.
        split; [intros [->|Hx]|]; auto. }
      rewrite E. lia.
    + apply Nat.leb_gt in Hover. pose proof (size_add name (activeMorphs s)). lia.
  - pose proof (size_remove name (activeMorphs s)). split; [lia|]. intros _. lia.
Qed.

Lemma forEach_size (P : gset string) (cap : nat)
      (entries : list (string * Q)) (acc : list string * State) :
  priorityMorphs acc.2 = P ->
  maxActiveMorphs (qualityPresets (quality acc.2)) = cap ->
  (Nat.max (size (activeMorphs (fold_left setEntry entries acc).2)) cap
   <= Nat.max (size (activeMorphs acc.2)) cap
      + length (List.filter (fun e : string * Q => bool_decide (e.1 ∈ P)) entries))%nat.
Proof.
  revert acc. induction entries as [|e entries IH]; intros acc HP Hcap; simpl.
  - lia.
  - assert (HP' : priorityMorphs (setEntry acc e).2 = P)
      by (unfold setEntry; simpl; now rewrite setMorph_priorityMorphs).
    assert (Hcap' : maxActiveMorphs (qualityPresets (quality (setEntry acc e).2)) = cap).
    { unfold setEntry. simpl.
      destruct (setMorph_config e.1 e.2 false acc.2) as (-> & _ & _). exact Hcap. }
    specialize (IH (setEntry acc e) HP' Hcap').
    destruct (setMorph_size e.1 e.2 acc.2) as [H1 H2].
    rewrite HP, Hcap in H2.
    change (activeMorphs (setEntry acc e).2)
      with (activeMorphs (setMorph e.1 e.2 false acc.2).2) in IH.
    destruct (bool_decide (e.1 ∈ P)) eqn:Hp; simpl.
    + lia.
    + apply bool_decide_eq_false_1 in Hp. specialize (H2 Hp). lia.
Qed.

(** Counting the entries that satisfy a test does not depend on their
    order. *)
Lemma filter_length_perm {A : Type} (f : A -> bool) (l l' : list A) :
  Permutation l l' -> length (List.filter f l) = length (List.filter f l').
Proof.
  induction 1 as [|x l l' _ IH|x y l|l l' l'' _ IH1 _ IH2]; simpl.
  - reflexivity.
  - destruct (f x); simpl; now rewrite IH.
  - destruct (f x), (f y); reflexivity.
  - now rewrite IH1.
Qed.

(** X2.  One [updateMorphs] leaves at most
    [max(active before, maxActiveMorphs)] active morphs plus one per
    priority entry of the snapshot: entries without priority never push the
    active set beyond the cap of the current preset. *)
Theorem active_set_bounded (morphData : list (string * Q)) (s : State) :
  (size (activeMorphs (updateMorphs morphData s).2)
   <= Nat.max (size (activeMorphs s)) (maxActiveMorphs (qualityPresets (quality s)))
      + length (List.filter
                  (fun e : string * Q => bool_decide (e.1 ∈ priorityMorphs s))
                  morphData))%nat.
Proof.
  unfold updateMorphs, setAll. simpl.
  pose proof (forEach_size (priorityMorphs s)
                (maxActiveMorphs (qualityPresets (quality s)))
                (sortedEntries morphData s) ([], s) eq_refl eq_refl) as H.
  simpl in H.
  rewrite <- (filter_length_perm _ _ _ (sortedEntries_perm morphData s)) in H.
  lia.
Qed.

Lemma forEach_accounting (known : gset string)
      (entries : list (string * Q)) (acc : list string * State) :
  morphMap acc.2 = known ->
  (length (fold_left setEntry entries acc).1
   + skippedUpdates (fold_left setEntry entries acc).2
   = length acc.1 + skippedUpdates acc.2
     + length (List.filter (fun e : string * Q => bool_decide (e.1 ∈ known)) entries))%nat.
Proof.
  revert acc. induction entries as [|e entries IH]; intros acc Hk; simpl.
  - lia.
  - assert (Hk' : morphMap (setEntry acc e).2 = known).
    { unfold setEntry. simpl.
      destruct (setMorph_config e.1 e.2 false acc.2) as (_ & -> & _). exact Hk. }
    rewrite (IH (setEntry acc e) Hk'). unfold setEntry, setMorph. simpl.
    rewrite Hk. destruct (bool_decide (e.1 ∈ known)); simpl; [|lia].
    destruct (negligible e.1 e.2 false acc.2); simpl; [lia|].
    destruct (overLimit e.1 e.2 false acc.2); simpl; [lia|].
    rewrite length_app. simpl. lia.
Qed.

(** X3.  Every entry of a snapshot whose name the registry knows is either
    admitted (counted in the returned number) or counted in
    [stats.skippedUpdates]; an entry with an unknown name is counted
    nowhere.  [stats.activeMorphCount] is the size of the active set. *)
Theorem updates_accounted (morphData : list (string * Q)) (s : State) :
  ((updateMorphs morphData s).1 + skippedUpdates (updateMorphs morphData s).2
   = skippedUpdates s
     + length (List.filter
                 (fun e : string * Q => bool_decide (e.1 ∈ morphMap s)) morphData))%nat
  /\ activeMorphCount (updateMorphs morphData s).2
     = size (activeMorphs (updateMorphs morphData s).2).
Proof.
  split; [|reflexivity].
  unfold updateMorphs, setAll. simpl.
  pose proof (forEach_accounting (morphMap s) (sortedEntries morphData s)
                ([], s) eq_refl) as H.
  simpl in H.
  rewrite <- (filter_length_perm _ _ _ (sortedEntries_perm morphData s)) in H.
  exact H.
Qed.

Lemma threshold_positive (q : Quality) :
  0 < morphUpdateThreshold (qualityPresets q).
Proof. destruct q; reflexivity. Qed.

(** X4.  With selective updates on, offering a morph the same value twice
    in a row is never accepted the second time, whatever happened to the
    first offer. *)
Theorem repeated_value_not_accepted (name : string) (value : Q) (s : State) :
  selectiveUpdates s = true ->
  (setMorph name value false (setMorph name value false s).2).1 = false.
Proof.
  intros Hsel. unfold setMorph at 2.
  destruct (bool_decide (name ∈ morphMap s)) eqn:Hm; simpl.
  - destruct (negligible name value false s) eqn:Hn; simpl.
    + unfold setMorph. simpl. rewrite Hm. simpl.
      change (negligible name value false (skip s))
        with (negligible name value false s).
      now rewrite Hn.
    + destruct (overLimit name value false s) eqn:Ho; simpl.
      * unfold setMorph. simpl. rewrite Hm. simpl.
        change (negligible name value false (skip s))
          with (negligible name value false s).
        change (overLimit name value false (skip s))
          with (overLimit name value false s).
        now rewrite Hn, Ho.
      * unfold setMorph. simpl. rewrite Hm. simpl.
        assert (Hneg : negligible name value false (store name value s) = true).
        { unfold negligible. cbv zeta. cbn [store selectiveUpdates quality morphStates].
          rewrite Hsel, lookup_insert_eq, orZero_Some. simpl.
          apply Qltb_lt.
          assert (E : Qabs (value - value) == 0).
          { transitivity (Qabs 0); [apply Qabs_wd; ring | reflexivity]. }
          rewrite E. apply threshold_positive. }
        now rewrite Hneg.
  - unfold setMorph. now rewrite Hm.
Qed.

Lemma repeated_value_not_accepted_witness :
  (setMorph "V_AA" (1 # 2) false Scenarios.registry203).1 = true
  /\ (setMorph "V_AA" (1 # 2) false
        (setMorph "V_AA" (1 # 2) false Scenarios.registry203).2).1 = false.
Proof.
  split; [vm_compute; reflexivity|].
  apply (repeated_value_not_accepted "V_AA" (1 # 2) Scenarios.registry203).
  reflexivity.
Defined.

(** What [processDirtyMorphs] leaves on the meshes: a dirty morph of the
    map that passes [shouldUpdateMorph] shows its state, everything else
    is untouched. *)
Lemma fold_processDirty_spec (X : gset string) (r : System) (name : string) :
  sys (set_fold processDirty r X) = sys r
  /\ influence (set_fold processDirty r X) !! name
     = if decide (name ∈ X)
    then match morphStates (sys r) !! name with
         | Some v =>
             if shouldUpdateMorph name (qualityPresets (quality (sys r))) (sys r)
                && bool_decide (name ∈ morphMap (sys r))
             then Some v else influence r !! name
         | None => influence r !! name
         end
    else influence r !! name.
Proof.
  pose (P := fun (acc : System) (Y : gset string) =>
               sys acc = sys r
               /\ influence acc !! name
                  = if decide (name ∈ Y)
                    then match morphStates (sys r) !! name with
                         | Some v =>
                             if shouldUpdateMorph name
                                  (qualityPresets (quality (sys r))) (sys r)
                                && bool_decide (name ∈ morphMap (sys r))
                             then Some v else influence r !! name
                         | None => influence r !! name
                         end
                    else influence r !! name).
  change (P (set_fold processDirty r X) X).
  apply set_fold_ind_L; unfold P; clear P.
  - split; [reflexivity|]. rewrite decide_False; [reflexivity|].
    intros H. apply elem_of_empty in H. contradiction.
  - intros x Y acc Hx [Hs IH]. split; [now rewrite sys_processDirty|].
    destruct (decide (x = name)) as [->|Hne].
    + rewrite decide_True
        by (apply elem_of_union; left; now apply elem_of_singleton).
      rewrite decide_False in IH by exact Hx.
      unfold processDirty, applyMorph. rewrite Hs.
      destruct (morphStates (sys r) !! name) as [v|]; [|exact IH].
      destruct (shouldUpdateMorph name _ (sys r)); simpl; [|exact IH].
      destruct (bool_decide (name ∈ morphMap (sys r))); simpl; [|exact IH].
      apply lookup_insert_eq.
    + assert (E : influence (processDirty x acc) !! name = influence acc !! name).
      { unfold processDirty, applyMorph.
        destruct (morphStates (sys acc) !! x); [|reflexivity].
        destruct (shouldUpdateMorph x _ (sys acc)); [|reflexivity].
        destruct (bool_decide (x ∈ morphMap (sys acc))); [|reflexivity].
        simpl. now apply lookup_insert_ne. }
      rewrite E, IH.
      destruct (decide (name ∈ Y)) as [HY|HY].
      * rewrite decide_True; [reflexivity|]. apply elem_of_union. now right.
      * rewrite decide_False; [reflexivity|].
        rewrite elem_of_union, elem_of_singleton. intros [E'|E']; congruence.
Qed.

Lemma influence_fold_processDirty (X : gset string) (r : System) (name : string) :
  influence (set_fold processDirty r X) !! name
  = if decide (name ∈ X)
    then match morphStates (sys r) !! name with
         | Some v =>
             if shouldUpdateMorph name (qualityPresets (quality (sys r))) (sys r)
                && bool_decide (name ∈ morphMap (sys r))
             then Some v else influence r !! name
         | None => influence r !! name
         end
    else influence r !! name.
Proof. apply fold_processDirty_spec. Qed.

(** The mesh after a tick, morph by morph. *)
Lemma influence_tick (deltaTime : Q) (r : System) (name : string) :
  influence (tick deltaTime r) !! name
  = if decide (name ∈ dirtyMorphs (sys r))
    then match morphStates (sys r) !! name with
         | Some v =>
             if shouldUpdateMorph name (qualityPresets (quality (sys r)))
                  (nextFrame (sys r))
                && bool_decide (name ∈ morphMap (sys r))
             then Some v else influence r !! name
         | None => influence r !! name
         end
    else influence r !! name.
Proof.
  unfold tick, processDirtyMorphs. simpl.
  now rewrite influence_fold_processDirty.
Qed.

(** An accepted entry is marked dirty and stays so until the next tick. *)
Lemma dirty_kept (entries : list (string * Q)) (acc : list string * State)
      (name : string) :
  name ∈ dirtyMorphs acc.2 -> name ∈ dirtyMorphs (fold_left setEntry entries acc).2.
Proof.
  revert acc. induction entries as [|e entries IH]; intros acc H; simpl.
  - exact H.
  - apply IH. unfold setEntry, setMorph. simpl.
    destruct (negb (bool_decide (e.1 ∈ morphMap acc.2))); [exact H|].
    destruct (negligible e.1 e.2 false acc.2); [exact H|].
    destruct (overLimit e.1 e.2 false acc.2); [exact H|].
    simpl. apply elem_of_union. now right.
Qed.

Lemma forEach_marks_dirty
      (entries : list (string * Q)) (acc : list string * State)
      (name : string) (value : Q) :
  NoDup (map fst entries) ->
  (name, value) ∈ entries ->
  name ∈ priorityMorphs acc.2 -> name ∈ morphMap acc.2 ->
  counts name value acc.2 ->
  name ∈ dirtyMorphs (fold_left setEntry entries acc).2.
Proof.
  revert acc. induction entries as [|e entries IH];
    intros acc Hnd Hin Hp Hm Hc; simpl.
  - apply elem_of_nil in Hin. contradiction.
  - simpl in Hnd. apply NoDup_cons in Hnd as [Hfresh Hnd].
    apply elem_of_cons in Hin as [<-|Hin].
    + apply dirty_kept. unfold setEntry. simpl.
      rewrite (setMorph_priority name value acc.2 Hp Hm Hc). simpl.
      apply elem_of_union. left. now apply elem_of_singleton.
    + assert (Hne : e.1 <> name).
      { intros E. apply Hfresh. rewrite E.
        change name with ((name, value).1).
        apply list_elem_of_fmap_2. exact Hin. }
      pose proof (setMorph_agreeOn name e.1 e.2 false acc.2 Hne) as Hag.
      apply IH; try assumption; unfold setEntry; simpl.
      * destruct Hag as (_ & _ & -> & _). exact Hp.
      * destruct Hag as (_ & _ & _ & -> & _). exact Hm.
      * eapply counts_agreeOn; eassumption.
Qed.

Lemma forEach_config (entries : list (string * Q)) (acc : list string * State) :
  priorityMorphs (fold_left setEntry entries acc).2 = priorityMorphs acc.2
  /\ morphMap (fold_left setEntry entries acc).2 = morphMap acc.2.
Proof.
  revert acc. induction entries as [|e entries IH]; intros acc; simpl.
  - now split.
  - destruct (IH (setEntry acc e)) as [-> ->]. unfold setEntry. simpl.
    split; [apply setMorph_priorityMorphs|].
    now destruct (setMorph_config e.1 e.2 false acc.2) as (_ & -> & _).
Qed.

(** X5.  A priority morph of a snapshot that the registry knows and whose
    change counts is on the mesh after the next tick, whatever the frame
    counter, the LOD level and the size of the active set. *)
Theorem priority_morph_reaches_mesh
    (r : System) (morphData : list (string * Q)) (name : string) (value : Q)
    (deltaTime : Q) :
  NoDup (map fst morphData) ->
  (name, value) ∈ morphData ->
  name ∈ priorityMorphs (sys r) ->
  name ∈ morphMap (sys r) ->
  counts name value (sys r) ->
  influence (runOps [OpUpdateMorphs morphData; OpTick deltaTime] r) !! name
  = Some value.
Proof.
  intros Hnd Hin Hp Hm Hc. unfold runOps. cbn [fold_left runOp].
  rewrite influence_tick. cbn [onSys sys].
  pose proof (sortedEntries_perm morphData (sys r)) as Hperm.
  assert (Hnd' : NoDup (map fst (sortedEntries morphData (sys r)))).
  { assert (Hpm : Permutation (map fst morphData)
                              (map fst (sortedEntries morphData (sys r))))
      by (now apply Permutation_map).
    now rewrite <- Hpm. }
  assert (Hin' : (name, value) ∈ sortedEntries morphData (sys r))
    by (now rewrite <- Hperm).
  destruct (forEach_admits_priority _ ([], sys r) name value Hnd' Hin' Hp Hm Hc)
    as [_ Hv].
  pose proof (forEach_marks_dirty _ ([], sys r) name value Hnd' Hin' Hp Hm Hc)
    as Hd.
  destruct (forEach_config (sortedEntries morphData (sys r)) ([], sys r))
    as [Hpr Hmm].
  unfold updateMorphs, setAll. cbn [snd countActive dirtyMorphs morphStates
    quality morphMap].
  rewrite decide_True by exact Hd. rewrite Hv.
  unfold shouldUpdateMorph. cbn [nextFrame priorityMorphs countActive].
  rewrite Hpr, Hmm. cbn [snd].
  rewrite (bool_decide_eq_true_2 _ Hp), (bool_decide_eq_true_2 _ Hm).
  reflexivity.
Qed.

Lemma priority_morph_reaches_mesh_witness :
  influence
    (runOps [OpUpdateMorphs [("m1"%string, 1 # 2); ("V_AA"%string, 1 # 2)];
             OpTick 16]
       (runOps [OpUpdateLOD 100] (start low (list_to_set Scenarios.visemes)
                  (list_to_set (Scenarios.visemes ++ Scenarios.ambient 3)))))
    !! "V_AA"%string
  = Some (1 # 2).
Proof.
  apply priority_morph_reaches_mesh.
  - decided.
  - apply (list_elem_of_lookup_2 _ 1). reflexivity.
  - decided.
  - decided.
  - right. vm_compute. discriminate.
Defined.

(** Ticks with nothing dirty write nothing. *)
Lemma ticks_without_dirty (dts : list Q) (r : System) :
  dirtyMorphs (sys r) = ∅ ->
  influence (runOps (map OpTick dts) r) = influence r
  /\ morphStates (sys (runOps (map OpTick dts) r)) = morphStates (sys r).
Proof.
  unfold runOps. revert r. induction dts as [|dt dts IH]; intros r Hd; simpl.
  - now split.
  - assert (Hd' : dirtyMorphs (sys (tick dt r)) = ∅)
      by (now rewrite sys_tick).
    destruct (IH (tick dt r) Hd') as [-> ->]. split.
    + apply map_eq. intros name. rewrite influence_tick, Hd.
      rewrite decide_False; [reflexivity|].
      intros H. apply elem_of_empty in H. contradiction.
    + now rewrite sys_tick.
Qed.

(** X6.  A dirty morph that [shouldUpdateMorph] turns down on a tick is
    not retried: the tick clears the dirty set, so the mesh keeps the old
    value of that morph over this and all later ticks, while [morphStates]
    keeps the new one. *)
Theorem deferred_update_dropped
    (r : System) (name : string) (deltaTime : Q) (later : list Q) :
  shouldUpdateMorph name (qualityPresets (quality (sys r))) (nextFrame (sys r))
  = false ->
  influence (runOps (map OpTick (deltaTime :: later)) r) !! name
  = influence r !! name
  /\ morphStates (sys (runOps (map OpTick (deltaTime :: later)) r))
     = morphStates (sys r)
  /\ dirtyMorphs (sys (runOps (map OpTick (deltaTime :: later)) r)) = ∅.
Proof.
  intros Hno.
  change (runOps (map OpTick (deltaTime :: later)) r)
    with (runOps (map OpTick later) (tick deltaTime r)).
  assert (Hd : dirtyMorphs (sys (tick deltaTime r)) = ∅)
    by (now rewrite sys_tick).
  destruct (ticks_without_dirty later (tick deltaTime r) Hd) as [Hi Hs].
  split; [|split].
  - rewrite Hi, influence_tick, Hno. simpl.
    destruct (decide (name ∈ dirtyMorphs (sys r))); [|reflexivity].
    now destruct (morphStates (sys r) !! name).
  - rewrite Hs. now rewrite sys_tick.
  - clear Hi Hs. revert Hd. generalize (tick deltaTime r).
    unfold runOps. induction later as [|dt dts IH]; intros r' Hd'; simpl.
    + exact Hd'.
    + apply IH. now rewrite sys_tick.
Qed.

Lemma deferred_update_dropped_witness :
  morphStates
    (sys (runOps (OpSetMorph "m1" (1 # 2) false :: map OpTick [16; 16; 16; 16])
            (start low (list_to_set Scenarios.visemes)
               (list_to_set (Scenarios.visemes ++ Scenarios.ambient 3)))))
    !! "m1"%string = Some (1 # 2)
  /\ influence
       (runOps (OpSetMorph "m1" (1 # 2) false :: map OpTick [16; 16; 16; 16])
          (start low (list_to_set Scenarios.visemes)
             (list_to_set (Scenarios.visemes ++ Scenarios.ambient 3))))
       !! "m1"%string = None.
Proof.
  destruct (deferred_update_dropped
              (runOps [OpSetMorph "m1" (1 # 2) false]
                 (start low (list_to_set Scenarios.visemes)
                    (list_to_set (Scenarios.visemes ++ Scenarios.ambient 3))))
              "m1" 16 [16; 16; 16]) as (Hi & Hs & _).
  - vm_compute. reflexivity.
  - split.
    + change (runOps (OpSetMorph "m1" (1 # 2) false :: map OpTick [16; 16; 16; 16]) ?r)
        with (runOps (map OpTick [16; 16; 16; 16])
                (runOps [OpSetMorph "m1" (1 # 2) false] r)).
      rewrite Hs. vm_compute. reflexivity.
    + change (runOps (OpSetMorph "m1" (1 # 2) false :: map OpTick [16; 16; 16; 16]) ?r)
        with (runOps (map OpTick [16; 16; 16; 16])
                (runOps [OpSetMorph "m1" (1 # 2) false] r)).
      rewrite Hi. vm_compute. reflexivity.
Defined.

Lemma presets_sorted (q : Quality) :
  (lodDistances (qualityPresets q)).1.1 <= (lodDistances (qualityPresets q)).1.2
  /\ (lodDistances (qualityPresets q)).1.2 <= (lodDistances (qualityPresets q)).2.
Proof. destruct q; split; vm_compute; discriminate. Qed.

(** X7.  With LOD enabled, at or beyond the second distance of the current
    preset [updateLOD] selects level 2 or 3, and from then on a morph
    without priority is turned down by [shouldUpdateMorph] on every frame. *)
Theorem distant_morphs_not_updated
    (distance : Q) (s : State) (name : string) (frames : nat) :
  lodEnabled s = true ->
  name ∉ priorityMorphs s ->
  (lodDistances (qualityPresets (quality s))).1.2 <= distance ->
  (2 <= lodLevel (updateLOD distance s).2 <= 3)%nat
  /\ shouldUpdateMorph name (qualityPresets (quality s))
       (Nat.iter frames nextFrame (updateLOD distance s).2) = false.
Proof.
  intros Hlod Hp Hd. unfold updateLOD. rewrite Hlod. simpl.
  destruct (presets_sorted (quality s)) as [H01 H12].
  assert (Hl : (2 <= lodLevelFor distance (lodDistances (qualityPresets (quality s)))
                <= 3)%nat).
  { unfold lodLevelFor.
    assert (E0 : Qltb distance (lodDistances (qualityPresets (quality s))).1.1 = false)
      by (apply Qltb_ge; lra).
    assert (E1 : Qltb distance (lodDistances (qualityPresets (quality s))).1.2 = false)
      by (apply Qltb_ge; lra).
    rewrite E0, E1.
    destruct (Qltb distance (lodDistances (qualityPresets (quality s))).2); lia. }
  split; [exact Hl|].
  set (l := lodLevelFor distance _) in *.
  assert (Hiter : forall k,
             priorityMorphs (Nat.iter k nextFrame (withLodLevel l s)) = priorityMorphs s
             /\ lodEnabled (Nat.iter k nextFrame (withLodLevel l s)) = true
             /\ lodLevel (Nat.iter k nextFrame (withLodLevel l s)) = l).
  { induction k as [|k IH]; simpl; [now repeat split | exact IH]. }
  destruct (Hiter frames) as (Hpr & Hen & Hlv).
  unfold shouldUpdateMorph. rewrite Hpr, Hen, Hlv.
  rewrite (bool_decide_eq_false_2 _ Hp).
  destruct (negb _); [reflexivity|]. simpl.
  assert (E : (1 <? l)%nat = true) by (apply Nat.ltb_lt; lia).
  now rewrite E.
Qed.

Lemma distant_morphs_not_updated_witness :
  lodLevel (updateLOD 9 Scenarios.registry203).2 = 2%nat
  /\ shouldUpdateMorph "m7" (qualityPresets low)
       (Nat.iter 3 nextFrame (updateLOD 9 Scenarios.registry203).2) = false.
Proof.
  split; [vm_compute; reflexivity|].
  apply (distant_morphs_not_updated 9 Scenarios.registry203 "m7" 3).
  - reflexivity.
  - refine (bool_decide_eq_false_1 _ _). vm_compute. reflexivity.
  - vm_compute. discriminate.
Defined.

(** X8.  For each of the four presets the LOD level never decreases with
    the distance, and it is at most 3. *)
Theorem lod_level_monotone (q : Quality) (d1 d2 : Q) :
  d1 <= d2 ->
  (lodLevelFor d1 (lodDistances (qualityPresets q))
   <= lodLevelFor d2 (lodDistances (qualityPresets q)) <= 3)%nat.
Proof.
  intros Hd. destruct (presets_sorted q) as [H01 H12]. unfold lodLevelFor.
  set (a := (lodDistances (qualityPresets q)).1.1) in *.
  set (b := (lodDistances (qualityPresets q)).1.2) in *.
  set (c := (lodDistances (qualityPresets q)).2) in *.
  destruct (Qltb d1 a) eqn:E1a, (Qltb d1 b) eqn:E1b, (Qltb d1 c) eqn:E1c,
           (Qltb d2 a) eqn:E2a, (Qltb d2 b) eqn:E2b, (Qltb d2 c) eqn:E2c;
    try (split; lia);
    repeat match goal with
           | H : Qltb _ _ = true |- _ => apply Qltb_lt in H
           | H : Qltb _ _ = false |- _ => apply Qltb_ge in H
           end; exfalso; lra.
Qed.

Lemma lod_level_monotone_witness :
  (lodLevelFor 4 (lodDistances (qualityPresets medium))
   <= lodLevelFor 9 (lodDistances (qualityPresets medium)) <= 3)%nat.
Proof. apply (lod_level_monotone medium 4 9). vm_compute. discriminate. Defined.

(** What [interpolateMorphs] leaves on the meshes, morph by morph. *)
Lemma influence_interpolateMorphs (alpha : Q) (r : System) (name : string) :
  influence (interpolateMorphs alpha r) !! name
  = match morphStates (sys r) !! name with
    | Some targetValue =>
        if bool_decide (name ∈ morphMap (sys r))
        then Some (blended alpha r name targetValue)
        else influence r !! name
    | None => influence r !! name
    end.
Proof.
  unfold interpolateMorphs. simpl.
  apply (CodecFacts.lookup_fold_assign
           (fun n _ => bool_decide (n ∈ morphMap (sys r)))
           (fun n v => blended alpha r n v)).
Qed.



(** X10.  Right after a tick the previous states equal the current ones,
    so [interpolateMorphs] then writes the current state of every morph
    for every [alpha], also for morphs the tick itself turned down. *)
Theorem interpolateMorphs_after_tick
    (alpha deltaTime : Q) (r : System) (name : string) (value : Q) :
  morphStates (sys r) !! name = Some value ->
  name ∈ morphMap (sys r) ->
  exists written : Q,
    influence (interpolateMorphs alpha (tick deltaTime r)) !! name = Some written
    /\ written == value.
Proof.
  intros Hs Hm. rewrite influence_interpolateMorphs, sys_tick.
  cbn [clearDirty nextFrame morphStates morphMap]. rewrite Hs.
  rewrite (bool_decide_eq_true_2 _ Hm). eexists. split; [reflexivity|].
  unfold blended. cbv zeta.
  assert (Hp : previousStates (tick deltaTime r) !! name = Some value).
  { unfold tick. cbn [previousStates]. apply lookup_union_Some_l.
    unfold processDirtyMorphs. cbn [onSys sys].
    rewrite sys_fold_processDirty. exact Hs. }
  rewrite Hp, orZero_Some. ring.
Qed.

Lemma interpolateMorphs_after_tick_witness :
  exists written : Q,
    influence
      (interpolateMorphs (1 # 3)
         (tick 16 (runOps [OpSetMorph "m1" (1 # 2) false]
                     (start low (list_to_set Scenarios.visemes)
                        (list_to_set (Scenarios.visemes ++ Scenarios.ambient 3))))))
      !! "m1"%string = Some written
    /\ written == 1 # 2.
Proof.
  apply (interpolateMorphs_after_tick (1 # 3) 16
           (runOps [OpSetMorph "m1" (1 # 2) false]
              (start low (list_to_set Scenarios.visemes)
                 (list_to_set (Scenarios.visemes ++ Scenarios.ambient 3))))
           "m1" (1 # 2)).
  - vm_compute. reflexivity.
  - decided.
Defined.

(** X11.  [resetAll] puts the state and the mesh value of every morph of
    the map to 0 and empties the active and the dirty set; it leaves
    [previousStates] alone, so an [interpolateMorphs(0)] that follows
    writes the values from before the reset back to the mesh. *)
Theorem resetAll_zeroes (r : System) (name : string) :
  consistent (sys r) ->
  name ∈ morphMap (sys r) ->
  morphStates (sys (resetAll r)) !! name = Some 0
  /\ influence (resetAll r) !! name = Some 0
  /\ activeMorphs (sys (resetAll r)) = ∅
  /\ dirtyMorphs (sys (resetAll r)) = ∅
  /\ influence (interpolateMorphs 0 (resetAll r)) !! name
     = Some (orZero (previousStates r !! name)
             + (0 - orZero (previousStates r !! name)) * 0).
Proof.
  intros (Hdom & _ & _) Hm.
  assert (Hs : is_Some (morphStates (sys r) !! name))
    by (apply elem_of_dom; now rewrite Hdom).
  destruct Hs as [v Hv].
  assert (H0 : morphStates (sys (resetAll r)) !! name = Some 0).
  { unfold resetAll. cbn [sys zeroStates morphStates].
    now rewrite lookup_fmap, Hv. }
  split; [exact H0|]. split.
  { unfold resetAll. cbn [influence]. apply lookup_union_Some_l.
    apply lookup_gset_to_gmap_Some. now split. }
  split; [reflexivity|]. split; [reflexivity|].
  rewrite influence_interpolateMorphs, H0.
  unfold resetAll at 1. cbn [sys zeroStates morphMap].
  rewrite (bool_decide_eq_true_2 _ Hm). reflexivity.
Qed.

Lemma resetAll_zeroes_witness :
  morphStates
    (sys (resetAll (runOps [OpSetMorph "V_AA" (1 # 2) false; OpTick 16]
                      (start high (list_to_set Scenarios.visemes)
                         (list_to_set Scenarios.visemes)))))
    !! "V_AA"%string = Some 0
  /\ influence
       (interpolateMorphs 0
          (resetAll (runOps [OpSetMorph "V_AA" (1 # 2) false; OpTick 16]
                       (start high (list_to_set Scenarios.visemes)
                          (list_to_set Scenarios.visemes)))))
       !! "V_AA"%string
     = Some ((1 # 2) + (0 - (1 # 2)) * 0).
Proof.
  destruct (resetAll_zeroes
              (runOps [OpSetMorph "V_AA" (1 # 2) false; OpTick 16]
                 (start high (list_to_set Scenarios.visemes)
                    (list_to_set Scenarios.visemes)))
              "V_AA") as (H1 & _ & _ & _ & H2).
  - apply consistent_runOps. simpl. apply consistent_initialize.
  - decided.
  - split; [exact H1 | exact H2].
Defined.

End MorphOpsFacts.

(** ** The client and the codec over whole streams *)

Module StreamFacts.
Import Num NumFacts Easing EasingFacts Codec Client ClientFacts CodecFacts ClientOps.

(** A delta message changes neither the keyframe nor the interpolation
    switch. *)
Lemma delta_keeps_keyframe (now : Q) (d : gmap string Q) (c : State) :
  keyframeBlendshapes (handleBlendshapeUpdate now (deltaMsg d) c)
  = keyframeBlendshapes c.
Proof.
  unfold handleBlendshapeUpdate, deltaMsg, applyCompression. simpl.
  now destruct (enableInterpolation c).
Qed.

(** X12.  Deltas do not accumulate: every delta is decoded against the
    last keyframe, so after two deltas in a row the targets are what the
    second delta alone would have given; a channel that only the first
    delta changed is back at its keyframe value. *)
Theorem deltas_do_not_accumulate
    (c : State) (t1 t2 : Q) (d1 d2 : gmap string Q) :
  targetBlendshapes
    (handleBlendshapeUpdate t2 (deltaMsg d2)
       (handleBlendshapeUpdate t1 (deltaMsg d1) c))
  = targetBlendshapes (handleBlendshapeUpdate t2 (deltaMsg d2) c)
  /\ forall k : string,
      targetBlendshapes
        (handleBlendshapeUpdate t2 (deltaMsg d2)
           (handleBlendshapeUpdate t1 (deltaMsg d1) c)) !! k
      = match d2 !! k with
        | Some v => Some v
        | None => keyframeBlendshapes c !! k
        end.
Proof.
  assert (H : forall k : string,
             targetBlendshapes
               (handleBlendshapeUpdate t2 (deltaMsg d2)
                  (handleBlendshapeUpdate t1 (deltaMsg d1) c)) !! k
             = match d2 !! k with
               | Some v => Some v
               | None => keyframeBlendshapes c !! k
               end).
  { intros k. now rewrite decoded_delta, delta_keeps_keyframe. }
  split; [|exact H].
  apply map_eq. intros k. now rewrite H, decoded_delta.
Qed.

(** The scenario of a keyframe [{A: 0.5, B: 0.2}] followed by the delta
    [{A: 0.6}]: the targets are [{A: 0.6, B: 0.2}]. *)
Example keyframe_then_delta :
  targetBlendshapes
    (run [Msg 0 (keyframeMsg {[ "A"%string := 1 # 2; "B"%string := 1 # 5 ]});
          Msg 33 (deltaMsg {[ "A"%string := 3 # 5 ]})] (constructor true))
  = {[ "A"%string := 3 # 5; "B"%string := 1 # 5 ]}.
Proof. reflexivity. Qed.

(** X13.  An interpolated value never leaves the interval spanned by the
    start value and the target value of its morph: if both lie in
    [[lo, hi]], so does every sample of the transition.  In particular
    channel maps with values in [[0,1]] are interpolated within [[0,1]]. *)
Theorem interpolation_stays_in_range
    (c : State) (now lo hi : Q) (morph : string) :
  interpolationActive c = true ->
  0 < interpolationDuration c ->
  interpolationStartTime c <= now ->
  lo <= orZero (interpolationStartValues c !! morph) <= hi ->
  lo <= orZero (targetBlendshapes c !! morph) <= hi ->
  lo <= sample (updateInterpolation now c) morph <= hi.
Proof.
  intros Ha Hd Hs [Hs1 Hs2] [Ht1 Ht2].
  rewrite (sample_updateInterpolation c now morph Ha Hd Hs).
  destruct (progress_range now c Hd Hs) as [H0 H1].
  pose proof (eased_nonneg _ H0) as He0. pose proof (eased_le_1 _ H1) as He1.
  unfold morphValue. cbv zeta.
  set (sv := orZero (interpolationStartValues c !! morph)) in *.
  set (tv := orZero (targetBlendshapes c !! morph)) in *.
  set (e := eased (progress now c)) in *.
  assert (A1 : 0 <= (1 - e) * (sv - lo)) by (apply Qmult_le_0_compat; lra).
  assert (A2 : 0 <= e * (tv - lo)) by (apply Qmult_le_0_compat; lra).
  assert (A3 : 0 <= (1 - e) * (hi - sv)) by (apply Qmult_le_0_compat; lra).
  assert (A4 : 0 <= e * (hi - tv)) by (apply Qmult_le_0_compat; lra).
  assert (E1 : sv + (tv - sv) * e - lo == (1 - e) * (sv - lo) + e * (tv - lo))
    by ring.
  assert (E2 : hi - (sv + (tv - sv) * e) == (1 - e) * (hi - sv) + e * (hi - tv))
    by ring.
  split; lra.
Qed.

Lemma interpolation_stays_in_range_witness :
  0 <= sample (updateInterpolation 20 Scenarios.rising) "A" <= 1.
Proof.
  apply (interpolation_stays_in_range Scenarios.rising 20 0 1 "A");
    [reflexivity | reflexivity | vm_compute; discriminate
    | split; vm_compute; discriminate | split; vm_compute; discriminate].
Defined.

(** X14.  The easing curve is symmetric about its midpoint:
    [eased(1 - t) = 1 - eased(t)] for every [t], with [eased(1/2) = 1/2]. *)
Theorem eased_symmetric (t : Q) :
  eased (1 - t) == 1 - eased t /\ eased (1 # 2) == 1 # 2.
Proof.
  split; [|reflexivity].
  destruct (Qlt_le_dec t (1 # 2)) as [Hlt|Hge].
  - unfold eased. apply Qltb_lt in Hlt as Hb. rewrite Hb.
    assert (Hb' : Qltb (1 - t) (1 # 2) = false) by (apply Qltb_ge; lra).
    rewrite Hb'. cbv zeta. field.
  - destruct (Qle_lt_or_eq _ _ Hge) as [Hgt|Heq].
    + unfold eased.
      assert (Hb : Qltb t (1 # 2) = false) by (apply Qltb_ge; lra).
      assert (Hb' : Qltb (1 - t) (1 # 2) = true) by (apply Qltb_lt; lra).
      rewrite Hb, Hb'. cbv zeta. field.
    + assert (E1 : 1 - t == 1 # 2) by (rewrite <- Heq; reflexivity).
      assert (E2 : t == 1 # 2) by (symmetry; exact Heq).
      rewrite (eased_proper _ _ E1), (eased_proper _ _ E2).
      reflexivity.
Qed.

(** X15.  A client constructed without interpolation never starts a
    transition: after any stream of messages and frames its current
    channel map is its target map, so every message takes effect at once
    and frames change nothing. *)
Theorem direct_updates_without_interpolation (evs : list Event) :
  currentBlendshapes (run evs (constructor false))
  = targetBlendshapes (run evs (constructor false))
  /\ interpolationActive (run evs (constructor false)) = false
  /\ enableInterpolation (run evs (constructor false)) = false.
Proof.
  assert (H : forall c,
             currentBlendshapes c = targetBlendshapes c ->
             interpolationActive c = false -> enableInterpolation c = false ->
             currentBlendshapes (run evs c) = targetBlendshapes (run evs c)
             /\ interpolationActive (run evs c) = false
             /\ enableInterpolation (run evs c) = false).
  { unfold run. induction evs as [|e evs IH]; intros c Hc Ha He; simpl.
    - now repeat split.
    - destruct e as [now [[comp|]]|now]; simpl.
      + unfold handleBlendshapeUpdate. simpl.
        destruct (applyCompression_preserves comp c) as (Hen & _ & _).
        rewrite Hen, He.
        apply IH; simpl; [reflexivity | | exact (eq_trans Hen He)].
        unfold applyCompression.
        destruct (String.eqb (ctype comp) "keyframe");
          [|destruct (String.eqb (ctype comp) "delta")]; simpl; exact Ha.
      + apply IH; assumption.
      + unfold animate. rewrite (updateInterpolation_inactive c now Ha).
        apply IH; assumption. }
  apply H; reflexivity.
Qed.

(** X16.  Over any stream the two counters count the messages by kind:
    [keyframesReceived] the keyframe payloads, [deltasApplied] the delta
    payloads; frames and other messages are not counted. *)
Theorem payloads_counted (evs : list Event) (enable : bool) :
  keyframesReceived (run evs (constructor enable))
  = length (List.filter isKeyframe evs)
  /\ deltasApplied (run evs (constructor enable))
     = length (List.filter isDelta evs).
Proof.
  assert (H : forall c,
             keyframesReceived (run evs c)
             = (keyframesReceived c + length (List.filter isKeyframe evs))%nat
             /\ deltasApplied (run evs c)
                = (deltasApplied c + length (List.filter isDelta evs))%nat).
  { unfold run. induction evs as [|e evs IH]; intros c; simpl.
    - split; lia.
    - destruct (IH (step c e)) as [-> ->].
      destruct e as [now [[comp|]]|now]; simpl.
      + unfold handleBlendshapeUpdate, applyCompression. simpl.
        destruct (String.eqb (ctype comp) "keyframe");
          [|destruct (String.eqb (ctype comp) "delta")]; simpl;
          destruct (enableInterpolation c); simpl; split; lia.
      + unfold handleBlendshapeUpdate. simpl. split; lia.
      + unfold animate, updateInterpolation.
        destruct (negb (interpolationActive c)); simpl; split; lia. }
  destruct (H (constructor enable)) as [-> ->]. now split.
Qed.

(** X17.  Switching interpolation off does not cancel a transition in
    flight.  A keyframe that arrives afterwards is shown at once, but the
    old transition keeps its start values and start time, and the next
    frame before its end moves every channel back onto the curve between
    the old start value and the new target. *)
Theorem disabling_keeps_transition
    (c : State) (now later : Q) (d : gmap string Q) (morph : string) :
  interpolationActive c = true ->
  0 < interpolationDuration c ->
  interpolationStartTime c <= later ->
  currentBlendshapes
    (handleBlendshapeUpdate now (keyframeMsg d) (setInterpolationEnabled false c))
  = d
  /\ interpolationActive
       (handleBlendshapeUpdate now (keyframeMsg d) (setInterpolationEnabled false c))
     = true
  /\ sample
       (animate later
          (handleBlendshapeUpdate now (keyframeMsg d)
             (setInterpolationEnabled false c))) morph
     == orZero (interpolationStartValues c !! morph)
        + (orZero (d !! morph) - orZero (interpolationStartValues c !! morph))
          * eased (progress later c).
Proof.
  intros Ha Hd Hs.
  set (c' := handleBlendshapeUpdate now (keyframeMsg d)
               (setInterpolationEnabled false c)).
  assert (Ha' : interpolationActive c' = true) by exact Ha.
  split; [reflexivity|]. split; [exact Ha'|].
  unfold animate.
  rewrite (sample_updateInterpolation c' later morph Ha' Hd Hs).
  reflexivity.
Qed.

Lemma disabling_keeps_transition_witness :
  currentBlendshapes
    (handleBlendshapeUpdate 10 (keyframeMsg {[ "A"%string := 1 # 5 ]})
       (setInterpolationEnabled false Scenarios.rising))
  = {[ "A"%string := 1 # 5 ]}
  /\ sample
       (animate 11
          (handleBlendshapeUpdate 10 (keyframeMsg {[ "A"%string := 1 # 5 ]})
             (setInterpolationEnabled false Scenarios.rising))) "A"
     == 0 + ((1 # 5) - 0) * eased (progress 11 Scenarios.rising).
Proof.
  destruct (disabling_keeps_transition Scenarios.rising 10 11
              {[ "A"%string := 1 # 5 ]} "A") as (H1 & _ & H3);
    [reflexivity | reflexivity | vm_compute; discriminate |].
  split; [exact H1 | exact H3].
Defined.

(** X18.  An unchanged channel map encodes to the empty delta, and against
    an empty reference every channel of the map is carried as it is. *)
Theorem compress_unchanged_and_first (S : gmap string Q) :
  compress S S = ∅ /\ compress S ∅ = S.
Proof.
  split; apply map_eq; intros k; rewrite lookup_compress; unfold changed.
  - rewrite lookup_empty. destruct (S !! k) as [v|] eqn:Hv; [|reflexivity].
    assert (E : Qltb wire_epsilon (Qabs (v - v)) = false).
    { apply Qltb_ge.
      assert (E0 : Qabs (v - v) == 0)
        by (transitivity (Qabs 0); [apply Qabs_wd; ring | reflexivity]).
      rewrite E0. vm_compute. discriminate. }
    now rewrite E.
  - rewrite lookup_empty. now destruct (S !! k).
Qed.

(** X19.  Decoding [compress S K] against a keyframe [K] without negative
    values reproduces [S] up to the wire epsilon: on every channel the
    decoded target differs from the sender's value by at most 0.001, a
    missing channel counting as 0. *)
Theorem roundtrip_error_bounded
    (S K : gmap string Q) (c : State) (now : Q) (k : string) :
  keyframeBlendshapes c = K ->
  (forall v, K !! k = Some v -> 0 <= v) ->
  Qabs (orZero (targetBlendshapes
                  (handleBlendshapeUpdate now (deltaMsg (compress S K)) c) !! k)
        - orZero (S !! k))
  <= wire_epsilon.
Proof.
  intros HK Hpos. rewrite decoded_delta, lookup_compress, HK. unfold changed.
  assert (Hzero : forall x : Q, Qabs (x - x) <= wire_epsilon).
  { intros x.
    assert (E0 : Qabs (x - x) == 0)
      by (transitivity (Qabs 0); [apply Qabs_wd; ring | reflexivity]).
    rewrite E0. vm_compute. discriminate. }
  destruct (S !! k) as [v|] eqn:HS; destruct (K !! k) as [old|] eqn:HKk;
    rewrite ?orZero_Some, ?orZero_None; cbv beta iota.
  - destruct (Qltb wire_epsilon (Qabs (v - old))) eqn:E;
      cbv beta iota; rewrite ?orZero_Some.
    + apply Hzero.
    + apply Qltb_ge in E.
      assert (Es : Qabs (old - v) == Qabs (v - old)).
      { transitivity (Qabs (- (v - old))); [apply Qabs_wd; ring | apply Qabs_opp]. }
      now rewrite Es.
  - apply Hzero.
  - pose proof (Hpos old eq_refl) as Hold.
    destruct (Qltb wire_epsilon old) eqn:E;
      cbv beta iota; rewrite ?orZero_Some.
    + apply Hzero.
    + apply Qltb_ge in E.
      assert (Es : Qabs (old - 0) == old).
      { transitivity (Qabs old); [apply Qabs_wd; ring | now apply Qabs_pos]. }
      now rewrite Es.
  - apply Hzero.
Qed.

Lemma roundtrip_error_bounded_witness :
  Qabs (orZero (targetBlendshapes
                  (handleBlendshapeUpdate 33
                     (deltaMsg (compress {[ "A"%string := 3 # 5; "B"%string := 401 # 2000 ]}
                                         (keyframeBlendshapes Scenarios.withBaseline)))
                     Scenarios.withBaseline) !! "B"%string)
        - orZero (({[ "A"%string := 3 # 5; "B"%string := 401 # 2000 ]} : gmap string Q)
                    !! "B"%string))
  <= wire_epsilon.
Proof.
  apply (roundtrip_error_bounded {[ "A"%string := 3 # 5; "B"%string := 401 # 2000 ]}
           (keyframeBlendshapes Scenarios.withBaseline) Scenarios.withBaseline 33 "B").
  - reflexivity.
  - intros v Hv. vm_compute in Hv. injection Hv as <-. vm_compute. discriminate.
Defined.

(** The validated map, name by name. *)
Lemma lookup_validate_morphs (morphs : gmap string Q) (name : string) :
  Validator.validate_morphs morphs !! name
  = if Validator.matchName name false
    then Validator.clampUnit <$> morphs !! name
    else None.
Proof.
  unfold Validator.validate_morphs.
  rewrite (lookup_fold_assign
             (fun n _ => Validator.matchName n false)
             (fun _ value => Validator.clampUnit value)).
  rewrite lookup_empty.
  destruct (morphs !! name); destruct (Validator.matchName name false); reflexivity.
Qed.

Lemma clampUnit_idempotent (v : Q) :
  Validator.clampUnit (Validator.clampUnit v) = Validator.clampUnit v.
Proof.
  unfold Validator.clampUnit. cbv zeta.
  destruct (Qltb v 1) eqn:E1.
  - destruct (Qltb 0 v) eqn:E0.
    + now rewrite E1, E0.
    + reflexivity.
  - reflexivity.
Qed.

(** X20.  [validate_morphs] drops every entry whose name is not made of
    letters, digits and underscores, clamps the value of every other entry
    to [[0,1]], leaves a value strictly between 0 and 1 as it is, and
    validating twice gives the same map as validating once. *)
Theorem validate_morphs_sanitizes (morphs : gmap string Q) (name : string) :
  (Validator.matchName name false = false ->
   Validator.validate_morphs morphs !! name = None)
  /\ (forall v, Validator.validate_morphs morphs !! name = Some v ->
        0 <= v /\ v <= 1)
  /\ (forall v, Validator.matchName name false = true ->
        morphs !! name = Some v -> 0 < v -> v < 1 ->
        Validator.validate_morphs morphs !! name = Some v)
  /\ Validator.validate_morphs (Validator.validate_morphs morphs)
     = Validator.validate_morphs morphs.
Proof.
  split; [|split; [|split]].
  - intros H. now rewrite lookup_validate_morphs, H.
  - intros v. rewrite lookup_validate_morphs.
    destruct (Validator.matchName name false); [|discriminate].
    destruct (morphs !! name) as [w|]; [|discriminate].
    intros [= <-]. unfold Validator.clampUnit. cbv zeta.
    destruct (Qltb w 1) eqn:E1.
    + apply Qltb_lt in E1. destruct (Qltb 0 w) eqn:E0.
      * apply Qltb_lt in E0. lra.
      * lra.
    + destruct (Qltb 0 1) eqn:E0; lra.
  - intros v Hn Hv H0 H1. rewrite lookup_validate_morphs, Hn, Hv. simpl.
    unfold Validator.clampUnit. cbv zeta.
    apply Qltb_lt in H0, H1. now rewrite H1, H0.
  - apply map_eq. intros n. rewrite !lookup_validate_morphs.
    destruct (Validator.matchName n false); [|reflexivity].
    destruct (morphs !! n); simpl; [|reflexivity].
    now rewrite clampUnit_idempotent.
Qed.

Lemma validate_morphs_sanitizes_witness :
  Validator.validate_morphs
    {[ "V_Open"%string := 3 # 2; "jaw open"%string := 1 # 2; "V_AA"%string := 1 # 4 ]}
    !! "V_AA"%string = Some (1 # 4)
  /\ Validator.validate_morphs
       {[ "V_Open"%string := 3 # 2; "jaw open"%string := 1 # 2; "V_AA"%string := 1 # 4 ]}
       !! "jaw open"%string = None.
Proof.
  destruct (validate_morphs_sanitizes
              {[ "V_Open"%string := 3 # 2; "jaw open"%string := 1 # 2;
                 "V_AA"%string := 1 # 4 ]} "V_AA") as (_ & _ & H & _).
  destruct (validate_morphs_sanitizes
              {[ "V_Open"%string := 3 # 2; "jaw open"%string := 1 # 2;
                 "V_AA"%string := 1 # 4 ]} "jaw open") as (H0 & _).
  split.
  - apply H; reflexivity.
  - apply H0. reflexivity.
Defined.

End StreamFacts.

(** ** Bounded buffers, the performance monitor and state recovery *)

Module MonitorFacts.
Import Num NumFacts Window Monitor.

Lemma tail_drop {A : Type} (k : nat) (l : list A) : tail (drop k l) = drop (S k) l.
Proof.
  revert k. induction l as [|a l IH]; intros k.
  - now destruct k.
  - destruct k as [|k]; simpl.
    + now rewrite drop_0.
    + apply IH.
Qed.

Lemma pushBounded_length {A : Type} (limit : nat) (x : A) (buffer : list A) :
  (length buffer <= limit)%nat -> (length (pushBounded limit x buffer) <= limit)%nat.
Proof.
  intros H. unfold pushBounded. cbv zeta.
  destruct (limit <? length (buffer ++ [x]))%nat eqn:E.
  - destruct buffer as [|a buffer]; simpl in *.
    + lia.
    + rewrite length_app. simpl. lia.
  - apply Nat.ltb_ge in E. exact E.
Qed.

(** Pushing onto the last [limit] elements of a list gives the last
    [limit] elements of the extended list. *)
Lemma pushBounded_lastn {A : Type} (limit : nat) (x : A) (l : list A) :
  pushBounded limit x (lastn limit l) = lastn limit (l ++ [x]).
Proof.
  unfold pushBounded, lastn. cbv zeta.
  rewrite !length_app, length_drop. simpl.
  destruct (le_lt_dec limit (length l)) as [Hge|Hlt].
  - assert (E : (limit <? length l - (length l - limit) + 1)%nat = true)
      by (apply Nat.ltb_lt; lia).
    rewrite E.
    replace (length l + 1 - limit)%nat with (S (length l - limit)) by lia.
    rewrite <- tail_drop. rewrite drop_app_le by lia.
    destruct (drop (length l - limit) l) eqn:Hd; simpl.
    + assert (Hl : length (drop (length l - limit) l) = 0%nat) by (now rewrite Hd).
      rewrite length_drop in Hl.
      reflexivity.
    + reflexivity.
  - assert (E : (limit <? length l - (length l - limit) + 1)%nat = false)
      by (apply Nat.ltb_ge; lia).
    rewrite E.
    replace (length l - limit)%nat with 0%nat by lia.
    replace (length l + 1 - limit)%nat with 0%nat by lia.
    now rewrite !drop_0.
Qed.

Lemma frameTimes_updateStats (now : Q) (s : State) :
  frameTimes (updateStats now s) = frameTimes s.
Proof. reflexivity. Qed.

Lemma frameTimes_frame (s : State) (times : Q * Q) :
  frameTimes (frame s times) = pushBounded 10 (times.2 - times.1) (frameTimes s).
Proof.
  unfold frame, end_. cbv zeta. simpl.
  destruct (Qgeb _ _); reflexivity.
Qed.

(** X21.  After any number of rendered frames, [frameTimes] holds the
    durations of the last ten frames (of all of them while there are fewer),
    oldest first. *)
Theorem frameTimes_window
    (fs : list (Q * Q)) (now updateInterval : Q) (trackHistory : bool)
    (historySize : nat) :
  frameTimes (frames fs (constructor now updateInterval trackHistory historySize))
  = lastn 10 (map (fun times : Q * Q => times.2 - times.1) fs)
  /\ (length (frameTimes
                (frames fs (constructor now updateInterval trackHistory historySize)))
      <= 10)%nat.
Proof.
  assert (H : forall (s : State) (l : list Q),
             frameTimes s = lastn 10 l ->
             frameTimes (frames fs s)
             = lastn 10 (l ++ map (fun times : Q * Q => times.2 - times.1) fs)).
  { unfold frames. induction fs as [|f fs IH]; intros s l Hs; simpl.
    - now rewrite app_nil_r.
    - rewrite (IH (frame s f) (l ++ [f.2 - f.1])).
      + now rewrite <- app_assoc.
      + rewrite frameTimes_frame, Hs. apply pushBounded_lastn. }
  assert (E : frameTimes
                (frames fs (constructor now updateInterval trackHistory historySize))
              = lastn 10 (map (fun times : Q * Q => times.2 - times.1) fs))
    by (apply (H _ []); reflexivity).
  split; [exact E|]. rewrite E. unfold lastn. rewrite length_drop. lia.
Qed.

Lemma history_frame (s : State) (times : Q * Q) :
  (length (history_fps s) <= historySize s)%nat ->
  (length (history_frameTime s) <= historySize s)%nat ->
  historySize (frame s times) = historySize s
  /\ (length (history_fps (frame s times)) <= historySize s)%nat
  /\ (length (history_frameTime (frame s times)) <= historySize s)%nat.
Proof.
  intros H1 H2. unfold frame, end_. cbv zeta.
  destruct (Qgeb _ _); [|now repeat split].
  unfold updateStats. cbv zeta. simpl.
  destruct (trackHistory s); [|now repeat split].
  split; [reflexivity|]. split; now apply pushBounded_length.
Qed.

(** X22.  The two histories never hold more than [historySize] samples,
    however many frames and statistics updates have gone by. *)
Theorem history_bounded
    (fs : list (Q * Q)) (now updateInterval : Q) (trackHistory : bool)
    (historySize : nat) :
  (length (history_fps
             (frames fs (constructor now updateInterval trackHistory historySize)))
   <= historySize)%nat
  /\ (length (history_frameTime
                (frames fs (constructor now updateInterval trackHistory historySize)))
      <= historySize)%nat.
Proof.
  assert (H : forall s : State,
             (length (history_fps s) <= Monitor.historySize s)%nat ->
             (length (history_frameTime s) <= Monitor.historySize s)%nat ->
             (length (history_fps (frames fs s)) <= Monitor.historySize s)%nat
             /\ (length (history_frameTime (frames fs s)) <= Monitor.historySize s)%nat).
  { unfold frames. induction fs as [|f fs IH]; intros s H1 H2; simpl.
    - now split.
    - destruct (history_frame s f H1 H2) as (Hh & Ha & Hb).
      rewrite <- Hh. apply IH; now rewrite Hh. }
  apply (H (constructor now updateInterval trackHistory historySize)); simpl; lia.
Qed.

Lemma Math_round_near (x : Q) :
  x - (1 # 2) < Math_round x /\ Math_round x <= x + (1 # 2).
Proof.
  unfold Math_round. pose proof (Qfloor_le (x + (1 # 2))) as H1.
  pose proof (Qlt_floor (x + (1 # 2))) as H2.
  rewrite inject_Z_plus in H2. change (inject_Z 1) with 1 in H2. split; lra.
Qed.

(** X23.  A frame that ends at least [updateInterval] after the last
    statistics update sets [fps] to the integer nearest to the number of
    frames per 1000 ms since that update, and restarts the count from that
    instant; a frame that ends sooner only counts itself. *)
Theorem fps_is_rounded_rate (now : Q) (s : State) :
  0 < updateInterval s ->
  (updateInterval s <= now - lastUpdateTime s ->
   fps (end_ now s)
   = inject_Z (Qfloor (inject_Z (Z.of_nat (S (frameCount s))) * 1000
                       / (now - lastUpdateTime s) + (1 # 2)))
   /\ Qabs (fps (end_ now s)
            - inject_Z (Z.of_nat (S (frameCount s))) * 1000
              / (now - lastUpdateTime s)) <= 1 # 2
   /\ frameCount (end_ now s) = 0%nat
   /\ lastUpdateTime (end_ now s) = now)
  /\ (now - lastUpdateTime s < updateInterval s ->
      fps (end_ now s) = fps s
      /\ frameCount (end_ now s) = S (frameCount s)
      /\ lastUpdateTime (end_ now s) = lastUpdateTime s).
Proof.
  intros Hpos. split.
  - intros Hge. unfold end_. cbv zeta.
    apply Qgeb_ge in Hge. rewrite Hge. unfold updateStats. cbv zeta.
    cbn [fps frameCount lastUpdateTime]. unfold Math_round.
    split; [reflexivity|]. split; [|now split].
    destruct (Math_round_near (inject_Z (Z.of_nat (S (frameCount s))) * 1000
                               / (now - lastUpdateTime s))) as [H1 H2].
    unfold Math_round in H1, H2. apply Qabs_Qle_condition. split; lra.
  - intros Hlt. unfold end_. cbv zeta.
    apply Qgeb_lt in Hlt. rewrite Hlt. now repeat split.
Qed.

Lemma fps_is_rounded_rate_witness :
  fps (end_ 1016 (frames [(0, 16); (500, 516)] (constructor 0 1000 true 60)))
  = 3.
Proof.
  destruct (fps_is_rounded_rate 1016
              (frames [(0, 16); (500, 516)] (constructor 0 1000 true 60)))
    as [H _]; [reflexivity|].
  destruct H as (H & _); [vm_compute; discriminate|].
  rewrite H. reflexivity.
Defined.

Lemma sum_below (c : Q) (l : list Q) (a b : Q) :
  Forall (fun x => x < c) l -> a < b ->
  fold_left Qplus l a < b + c * inject_Z (Z.of_nat (length l)).
Proof.
  revert a b. induction l as [|x l IH]; intros a b Hall Hab;
    cbn [fold_left length].
  - assert (E0 : inject_Z (Z.of_nat 0) == 0) by reflexivity.
    rewrite E0. lra.
  - apply Forall_cons in Hall as [Hx Hall].
    assert (E : inject_Z (Z.of_nat (S (length l)))
                == 1 + inject_Z (Z.of_nat (length l))).
    { rewrite Nat2Z.inj_succ. unfold Z.succ. rewrite inject_Z_plus.
      change (inject_Z 1) with 1. ring. }
    rewrite E.
    assert (Hab' : a + x < b + c) by lra.
    pose proof (IH (a + x) (b + c) Hall Hab') as H. lra.
Qed.

(** The mean of samples that are all below a bound is below that bound. *)
Lemma mean_below (c : Q) (l : list Q) :
  l <> [] -> Forall (fun x => x < c) l -> mean l < c.
Proof.
  intros Hne Hall. destruct l as [|x l]; [congruence|].
  apply Forall_cons in Hall as [Hx Hall]. unfold mean.
  cbn [hd tail length].
  assert (Hn : 0 < inject_Z (Z.of_nat (S (length l)))).
  { change 0 with (inject_Z 0). rewrite <- Zlt_Qlt. lia. }
  apply Qlt_shift_div_r; [exact Hn|].
  assert (E : inject_Z (Z.of_nat (S (length l)))
              == 1 + inject_Z (Z.of_nat (length l))).
  { rewrite Nat2Z.inj_succ. unfold Z.succ. rewrite inject_Z_plus.
    change (inject_Z 1) with 1. ring. }
  rewrite E. pose proof (sum_below c l x c Hall Hx) as H. lra.
Qed.

(** X24.  The quality loop fed with the monitor's report: as long as no
    statistics update has filled the history (or history is not tracked)
    the averages are undefined and the loop changes nothing; once every
    sample of the history is below 30 fps the report recommends reducing
    the quality and the loop selects [low]. *)
Theorem report_drives_quality (s : State) (m : Morph.State) :
  (trackHistory s = false \/ history_fps s = [] ->
   averageFps s = None
   /\ lowFpsRecommended s = false
   /\ Controller.adjustQuality (averageFps s) m = m)
  /\ (trackHistory s = true -> history_fps s <> [] ->
      Forall (fun x => x < 30) (history_fps s) ->
      lowFpsRecommended s = true
      /\ Morph.quality (Controller.adjustQuality (averageFps s) m) = Morph.low).
Proof.
  split.
  - intros H.
    assert (E : averageFps s = None).
    { unfold averageFps. destruct H as [-> | ->]; [reflexivity|].
      now rewrite andb_false_r. }
    unfold lowFpsRecommended. rewrite E. now repeat split.
  - intros Ht Hne Hall.
    assert (E : averageFps s = Some (mean (history_fps s))).
    { unfold averageFps. rewrite Ht. destruct (history_fps s); [congruence|].
      reflexivity. }
    pose proof (mean_below 30 _ Hne Hall) as Hm. apply Qltb_lt in Hm.
    unfold lowFpsRecommended. rewrite E. simpl. split; [exact Hm|].
    unfold Controller.adjustQuality. simpl. rewrite Hm. simpl.
    destruct (bool_decide (Morph.quality m = Morph.low)) eqn:Hq; simpl.
    + apply bool_decide_eq_true_1 in Hq.
      assert (Hx : Qltb 55 (mean (history_fps s)) = false).
      { apply Qltb_ge. apply Qltb_lt in Hm. lra. }
      now rewrite Hx.
    + reflexivity.
Qed.

Lemma report_drives_quality_witness :
  Morph.quality
    (Controller.adjustQuality
       (averageFps (frames [(0, 400); (600, 1100)] (constructor 0 1000 true 60)))
       Scenarios.registry203)
  = Morph.low
  /\ Controller.adjustQuality (averageFps (constructor 0 1000 true 60))
       Scenarios.registry203
     = Scenarios.registry203.
Proof.
  destruct (report_drives_quality
              (frames [(0, 400); (600, 1100)] (constructor 0 1000 true 60))
              Scenarios.registry203) as [_ H].
  destruct (report_drives_quality (constructor 0 1000 true 60)
              Scenarios.registry203) as [H0 _].
  split.
  - apply H; [reflexivity | discriminate |].
    vm_compute. repeat constructor.
  - apply H0. now right.
Defined.

End MonitorFacts.

(** ** The backend helpers: state recovery, rate limiting, emotion blending *)

Module BackendFacts.
Import Num NumFacts Window.

(** *** StateManager *)

Lemma pushBounded_ends_with {A : Type} (limit : nat) (x : A) (buffer : list A) :
  (0 < limit)%nat -> exists front, pushBounded limit x buffer = front ++ [x].
Proof.
  intros Hl. unfold pushBounded. cbv zeta.
  destruct (limit <? length (buffer ++ [x]))%nat eqn:E.
  - destruct buffer as [|a buffer]; simpl.
    + apply Nat.ltb_lt in E. simpl in E. lia.
    + now exists buffer.
  - now exists buffer.
Qed.

Lemma firstAtOrBefore_spec (target : Q) (newestFirst : list StateManager.Checkpoint) :
  match StateManager.firstAtOrBefore target newestFirst with
  | Some c =>
      exists newer older,
        newestFirst = newer ++ c :: older
        /\ StateManager.timestamp c <= target
        /\ Forall (fun d => target < StateManager.timestamp d) newer
  | None => Forall (fun d => target < StateManager.timestamp d) newestFirst
  end.
Proof.
  induction newestFirst as [|c l IH]; simpl.
  - constructor.
  - destruct (Qle_bool (StateManager.timestamp c) target) eqn:E.
    + apply Qle_bool_iff in E. exists [], l. now repeat split.
    + assert (Hlt : target < StateManager.timestamp c).
      { apply Qnot_le_lt. intros H. apply Qle_bool_iff in H. congruence. }
      destruct (StateManager.firstAtOrBefore target l) as [d|].
      * destruct IH as (newer & older & -> & Hd & Hall).
        exists (c :: newer), older. repeat split; [exact Hd|].
        now constructor.
      * now constructor.
Qed.

(** X25.  [recover(target_time)] returns the newest checkpoint of the
    buffer that is not later than [target_time]: every checkpoint stored
    after it is later than [target_time]; it falls back to the default
    state exactly when every checkpoint of the buffer is later.  A
    checkpoint just taken at or before [target_time] is the one recovered,
    and the buffer never holds more than ten checkpoints. *)
Theorem recover_newest_at_or_before
    (target : Q) (buffer : list StateManager.Checkpoint) :
  match StateManager.recover target buffer with
  | Some c =>
      exists older newer,
        buffer = older ++ c :: newer
        /\ StateManager.timestamp c <= target
        /\ Forall (fun d => target < StateManager.timestamp d) newer
  | None => Forall (fun d => target < StateManager.timestamp d) buffer
  end
  /\ (forall now morphs emotion frame,
        now <= target ->
        StateManager.recover target
          (StateManager.checkpoint now morphs emotion frame buffer)
        = Some {| StateManager.timestamp := now; StateManager.morphs := morphs;
                  StateManager.emotion := emotion; StateManager.frame := frame |})
  /\ (forall now morphs emotion frame,
        (length buffer <= 10)%nat ->
        (length (StateManager.checkpoint now morphs emotion frame buffer) <= 10)%nat).
Proof.
  split; [|split].
  - unfold StateManager.recover.
    pose proof (firstAtOrBefore_spec target (rev buffer)) as H.
    destruct (StateManager.firstAtOrBefore target (rev buffer)) as [c|].
    + destruct H as (newer & older & Hrev & Hc & Hall).
      exists (rev older), (rev newer). split; [|split; [exact Hc|]].
      * rewrite <- (rev_involutive buffer), Hrev, rev_app_distr. simpl.
        now rewrite <- app_assoc.
      * apply Forall_forall. intros d Hd. rewrite Forall_forall in Hall.
        apply Hall. apply list_elem_of_In. apply list_elem_of_In in Hd.
        now apply in_rev.
    + apply Forall_forall. intros d Hd. rewrite Forall_forall in H.
      apply H. apply list_elem_of_In. apply list_elem_of_In in Hd.
      now apply in_rev in Hd.
  - intros now morphs emotion frame Hle.
    unfold StateManager.recover, StateManager.checkpoint.
    destruct (pushBounded_ends_with 10
                {| StateManager.timestamp := now; StateManager.morphs := morphs;
                   StateManager.emotion := emotion; StateManager.frame := frame |}
                buffer) as [front ->]; [lia|].
    rewrite rev_app_distr. simpl.
    apply Qle_bool_iff in Hle. now rewrite Hle.
  - intros now morphs emotion frame Hlen. unfold StateManager.checkpoint.
    now apply MonitorFacts.pushBounded_length.
Qed.

Lemma recover_newest_at_or_before_witness :
  StateManager.recover 5
    (StateManager.checkpoint 4 {[ "A"%string := 1 # 2 ]} "happy" 7
       (StateManager.checkpoint 2 ∅ "sad" 3 []))
  = Some {| StateManager.timestamp := 4;
            StateManager.morphs := {[ "A"%string := 1 # 2 ]};
            StateManager.emotion := "happy"; StateManager.frame := 7 |}.
Proof.
  destruct (recover_newest_at_or_before 5
              (StateManager.checkpoint 2 ∅ "sad" 3 [])) as (_ & H & _).
  apply H. vm_compute. discriminate.
Defined.

(** *** RateLimiter *)

Section RateLimiterProofs.
Import RateLimiter RateLimiterInv.

Lemma popOld_length (cutoff : Q) (l : list Q) :
  (length (popOld cutoff l) <= length l)%nat.
Proof.
  induction l as [|x l IH]; simpl; [lia|].
  destruct (Qltb x cutoff); simpl; lia.
Qed.

Lemma since_all (cutoff : Q) (l : list Q) :
  Forall (fun y => cutoff <= y) l -> since cutoff l = l.
Proof.
  unfold since. induction l as [|x l IH]; intros H; simpl; [reflexivity|].
  apply Forall_cons in H as [Hx H]. apply Qltb_ge in Hx. rewrite Hx. simpl.
  now rewrite IH.
Qed.

(** On readings in ascending order, popping the old ones from the front
    removes exactly the readings before the cutoff. *)
Lemma popOld_since (cutoff : Q) (l : list Q) :
  StronglySorted Qle l -> popOld cutoff l = since cutoff l.
Proof.
  induction 1 as [|x l Hs IH Hall]; simpl; [reflexivity|].
  unfold since. simpl. destruct (Qltb x cutoff) eqn:E; simpl.
  - exact IH.
  - f_equal. symmetry. apply since_all.
    apply Qltb_ge in E. eapply Forall_impl; [exact Hall|].
    intros y Hy. simpl in Hy. eapply Qle_trans; eassumption.
Qed.

Lemma since_sorted (cutoff : Q) (l : list Q) :
  StronglySorted Qle l -> StronglySorted Qle (since cutoff l).
Proof.
  unfold since. induction 1 as [|x l Hs IH Hall]; simpl; [constructor|].
  destruct (negb (Qltb x cutoff)); [|exact IH].
  constructor; [exact IH|].
  apply Forall_forall. intros y Hy. rewrite Forall_forall in Hall. apply Hall.
  apply list_elem_of_In in Hy. apply filter_In in Hy as [Hy _].
  now apply list_elem_of_In.
Qed.

Lemma since_since (cut1 cut2 : Q) (l : list Q) :
  cut1 <= cut2 -> since cut2 (since cut1 l) = since cut2 l.
Proof.
  intros Hc. unfold since. induction l as [|x l IH]; simpl; [reflexivity|].
  destruct (Qltb x cut1) eqn:E1; simpl.
  - apply Qltb_lt in E1.
    assert (E2 : Qltb x cut2 = true) by (apply Qltb_lt; lra).
    rewrite E2. simpl. exact IH.
  - destruct (Qltb x cut2); simpl; now rewrite IH.
Qed.

Lemma since_length (cutoff : Q) (l : list Q) :
  (length (since cutoff l) <= length l)%nat.
Proof.
  unfold since. induction l as [|x l IH]; simpl; [lia|].
  destruct (negb (Qltb x cutoff)); simpl; lia.
Qed.

Lemma since_snoc (cutoff now : Q) (l : list Q) :
  cutoff <= now -> since cutoff (l ++ [now]) = since cutoff l ++ [now].
Proof.
  intros H. unfold since. rewrite List.filter_app. simpl.
  apply Qltb_ge in H. now rewrite H.
Qed.

Lemma admitted_snoc (client_id : string) (log : list (Q * string)) (c : Q * string) :
  admitted client_id (log ++ [c])
  = admitted client_id log ++ (if String.eqb c.2 client_id then [c.1] else []).
Proof.
  unfold admitted. rewrite List.filter_app, map_app. simpl.
  now destruct (String.eqb c.2 client_id).
Qed.

Lemma sorted_snoc (now : Q) (l : list Q) :
  StronglySorted Qle l -> Forall (fun x => x <= now) l ->
  StronglySorted Qle (l ++ [now]).
Proof.
  induction 1 as [|x l Hs IH Hall]; intros Hle; simpl.
  - repeat constructor.
  - apply Forall_cons in Hle as [Hx Hle]. constructor; [now apply IH|].
    apply Forall_app. split; [exact Hall|]. now repeat constructor.
Qed.

Lemma last_cons (l : list Q) (x d : Q) : List.last (x :: l) d = List.last l x.
Proof.
  revert x d. induction l as [|y l IH]; intros x d; [reflexivity|].
  change (List.last (x :: y :: l) d) with (List.last (y :: l) d).
  now rewrite (IH y d), (IH y x).
Qed.

(** One call keeps the deques in step with the log. *)
Lemma tracked_call (s : State) (log : list (Q * string)) (t : Q) (c : Q * string) :
  0 <= window s -> t <= c.1 -> tracked s log t ->
  tracked (call (log, s) c).2 (call (log, s) c).1 c.1
  /\ window (call (log, s) c).2 = window s
  /\ max_requests (call (log, s) c).2 = max_requests s.
Proof.
  intros Hw Ht Htr. destruct c as [now id]. simpl in Ht.
  unfold call, check_limit. cbn [fst snd]. cbv zeta.
  destruct (Htr id) as (Hsort & Hle & Hlen & cutoff & Hcut & Hdq).
  unfold deque in Hdq, Hlen.
  set (kept := popOld (now - window s) (default [] (requests s !! id))).
  assert (Hkept : kept = since (now - window s) (admitted id log)).
  { unfold kept. rewrite Hdq. rewrite popOld_since by (now apply since_sorted).
    apply since_since. lra. }
  assert (Hklen : (length kept <= max_requests s)%nat).
  { unfold kept. pose proof (popOld_length (now - window s)
                              (default [] (requests s !! id))). lia. }
  destruct (max_requests s <=? length kept)%nat eqn:Efull; cbn [fst snd];
    (split; [|now split]); intros client; unfold deque;
    cbn [requests window max_requests].
  - destruct (Htr client) as (Hs' & Hl' & Hn' & cut' & Hc' & Hd').
    split; [exact Hs'|]. split.
    { eapply Forall_impl; [exact Hl'|]. intros x Hx. simpl in Hx. simpl. lra. }
    destruct (decide (id = client)) as [<-|Hne].
    + rewrite lookup_insert_eq. simpl. split; [exact Hklen|].
      exists (now - window s). split; [apply Qle_refl | exact Hkept].
    + rewrite lookup_insert_ne by exact Hne. split; [exact Hn'|].
      exists cut'. split; [lra | exact Hd'].
  - destruct (Htr client) as (Hs' & Hl' & Hn' & cut' & Hc' & Hd').
    rewrite admitted_snoc. cbn [fst snd].
    destruct (decide (id = client)) as [<-|Hne].
    + rewrite String.eqb_refl, lookup_insert_eq. simpl.
      assert (Hle' : Forall (fun x => x <= now) (admitted id log)).
      { eapply Forall_impl; [exact Hle|]. intros x Hx. simpl in Hx. lra. }
      split; [now apply sorted_snoc|]. split.
      { apply Forall_app. split; [exact Hle'|].
        repeat constructor. apply Qle_refl. }
      split.
      { rewrite length_app. simpl. apply Nat.leb_gt in Efull. lia. }
      exists (now - window s). split; [apply Qle_refl|].
      rewrite since_snoc by lra. now rewrite Hkept.
    + assert (Eq : String.eqb id client = false) by (now apply String.eqb_neq).
      rewrite Eq, app_nil_r, lookup_insert_ne by exact Hne.
      split; [exact Hs'|]. split.
      { eapply Forall_impl; [exact Hl'|]. intros x Hx. simpl in Hx. simpl. lra. }
      split; [exact Hn'|]. exists cut'. split; [lra | exact Hd'].
Qed.

Lemma tracked_calls (cs : list (Q * string)) (s : State)
      (log : list (Q * string)) (t : Q) :
  0 <= window s -> clockAdvances t cs -> tracked s log t ->
  tracked (fold_left call cs (log, s)).2 (fold_left call cs (log, s)).1
          (List.last (map fst cs) t)
  /\ window (fold_left call cs (log, s)).2 = window s
  /\ max_requests (fold_left call cs (log, s)).2 = max_requests s.
Proof.
  revert s log t. induction cs as [|c cs IH]; intros s log t Hw Hclk Htr.
  - simpl. split; [exact Htr | split; reflexivity].
  - destruct Hclk as [Hc Hclk].
    destruct (tracked_call s log t c Hw Hc Htr) as (Htr' & Hw' & Hm').
    cbn [fold_left].
    destruct (call (log, s) c) as [log' s'] eqn:Ecall. cbn [fst snd] in *.
    assert (Hw'' : 0 <= window s') by (now rewrite Hw').
    destruct (IH s' log' c.1 Hw'' Hclk Htr') as (H1 & H2 & H3).
    change (map fst (c :: cs)) with (c.1 :: map fst cs).
    rewrite (last_cons (map fst cs) c.1 t). split; [exact H1|]. split; congruence.
Qed.

End RateLimiterProofs.

(** X26.  However the calls of the clients interleave, as long as the
    clock does not go back: for every client, the calls admitted within
    the last [window] seconds before the latest call number at most
    [max_requests]. *)
Theorem window_never_exceeded
    (max_requests : nat) (window t0 : Q) (cs : list (Q * string))
    (client_id : string) :
  0 <= window ->
  RateLimiter.clockAdvances t0 cs ->
  (length (RateLimiter.since (List.last (map fst cs) t0 - window)
             (RateLimiter.admitted client_id
                (RateLimiter.calls cs (RateLimiter.init max_requests window)).1))
   <= max_requests)%nat.
Proof.
  intros Hw Hclk.
  assert (H0 : RateLimiterInv.tracked (RateLimiter.init max_requests window) [] t0).
  { intros c. unfold RateLimiterInv.deque. simpl. rewrite lookup_empty. simpl.
    split; [constructor|]. split; [constructor|]. split; [lia|].
    exists (t0 - window). split; [apply Qle_refl | reflexivity]. }
  destruct (tracked_calls cs (RateLimiter.init max_requests window) [] t0 Hw Hclk H0)
    as (Htr & Hw' & Hm').
  unfold RateLimiter.calls.
  destruct (Htr client_id) as (_ & _ & Hlen & cutoff & Hcut & Hdq).
  rewrite Hw' in Hcut. simpl in Hcut. rewrite Hm' in Hlen. simpl in Hlen.
  rewrite <- (since_since cutoff _ _ Hcut), <- Hdq.
  pose proof (since_length (List.last (map fst cs) t0 - window)
                (RateLimiterInv.deque
                   (fold_left RateLimiter.call cs
                      ([], RateLimiter.init max_requests window)).2 client_id)).
  lia.
Qed.

Lemma window_never_exceeded_witness :
  (RateLimiter.calls [(0%Q, "a"%string); (1%Q, "b"%string); (2%Q, "a"%string);
                      (3%Q, "a"%string); (11%Q, "a"%string)]
     (RateLimiter.init 2 10)).1
  = [(0%Q, "a"%string); (1%Q, "b"%string); (2%Q, "a"%string); (11%Q, "a"%string)]
  /\ (length (RateLimiter.since (11 - 10)
                (RateLimiter.admitted "a"
                   (RateLimiter.calls [(0%Q, "a"%string); (1%Q, "b"%string);
                                       (2%Q, "a"%string); (3%Q, "a"%string);
                                       (11%Q, "a"%string)]
                      (RateLimiter.init 2 10)).1))
      <= 2)%nat.
Proof.
  split; [vm_compute; reflexivity|].
  apply (window_never_exceeded 2 10 0
           [(0%Q, "a"%string); (1%Q, "b"%string); (2%Q, "a"%string);
            (3%Q, "a"%string); (11%Q, "a"%string)] "a").
  - vm_compute. discriminate.
  - simpl. repeat split; vm_compute; discriminate.
Defined.

Lemma first_calls_step (client_id : string) (cs : list (Q * string))
      (acc : list (Q * string) * RateLimiter.State) (k : nat) :
  (length (RateLimiterInv.deque acc.2 client_id) <= k)%nat ->
  (k + length (RateLimiterInv.callsOf client_id cs)
   <= RateLimiter.max_requests acc.2)%nat ->
  RateLimiter.admitted client_id (fold_left RateLimiter.call cs acc).1
  = RateLimiter.admitted client_id acc.1
    ++ map fst (RateLimiterInv.callsOf client_id cs).
Proof.
  revert acc k. induction cs as [|c cs IH]; intros acc k Hlen Hk.
  - simpl. now rewrite app_nil_r.
  - cbn [fold_left]. unfold RateLimiterInv.callsOf in *. cbn [List.filter] in *.
    destruct c as [now id]. cbn [fst snd] in *.
    unfold RateLimiter.call at 2. unfold RateLimiter.check_limit.
    cbn [fst snd]. cbv zeta.
    set (kept := RateLimiter.popOld (now - RateLimiter.window acc.2)
                   (default [] (RateLimiter.requests acc.2 !! id))).
    pose proof (popOld_length (now - RateLimiter.window acc.2)
                  (default [] (RateLimiter.requests acc.2 !! id))) as Hkept.
    fold kept in Hkept.
    destruct (String.eqb id client_id) eqn:Eid.
    + apply String.eqb_eq in Eid. subst id.
      unfold RateLimiterInv.deque in Hlen. cbn [length map] in Hk.
      assert (Efull : (RateLimiter.max_requests acc.2 <=? length kept)%nat = false)
        by (apply Nat.leb_gt; lia).
      rewrite Efull. cbn [fst snd].
      rewrite (IH _ (S k)).
      * cbn [fst]. rewrite admitted_snoc. cbn [fst snd].
        rewrite String.eqb_refl, <- app_assoc. reflexivity.
      * unfold RateLimiterInv.deque. cbn [snd RateLimiter.requests].
        rewrite lookup_insert_eq. simpl. rewrite length_app. simpl. lia.
      * cbn [snd RateLimiter.max_requests]. lia.
    + assert (Hne : id <> client_id) by (now apply String.eqb_neq).
      destruct (RateLimiter.max_requests acc.2 <=? length kept)%nat; cbn [fst snd].
      * rewrite (IH _ k); [reflexivity | |exact Hk].
        unfold RateLimiterInv.deque. cbn [snd RateLimiter.requests].
        now rewrite lookup_insert_ne.
      * rewrite (IH _ k).
        -- cbn [fst]. rewrite admitted_snoc. cbn [fst snd].
           now rewrite Eid, app_nil_r.
        -- unfold RateLimiterInv.deque. cbn [snd RateLimiter.requests].
           now rewrite lookup_insert_ne.
        -- exact Hk.
Qed.

(** X27.  A client that calls at most [max_requests] times is never turned
    down, whatever the other clients do and whatever the clock readings:
    all its calls are admitted, in order. *)
Theorem first_calls_admitted
    (max_requests : nat) (window : Q) (cs : list (Q * string)) (client_id : string) :
  (length (RateLimiterInv.callsOf client_id cs) <= max_requests)%nat ->
  RateLimiter.admitted client_id
    (RateLimiter.calls cs (RateLimiter.init max_requests window)).1
  = map fst (RateLimiterInv.callsOf client_id cs).
Proof.
  intros H. unfold RateLimiter.calls.
  rewrite (first_calls_step client_id cs ([], RateLimiter.init max_requests window) 0).
  - reflexivity.
  - unfold RateLimiterInv.deque. simpl. rewrite lookup_empty. simpl. lia.
  - simpl. lia.
Qed.

Lemma first_calls_admitted_witness :
  RateLimiter.admitted "b"
    (RateLimiter.calls [(0%Q, "a"%string); (1%Q, "b"%string); (2%Q, "a"%string);
                        (3%Q, "a"%string); (4%Q, "b"%string)]
       (RateLimiter.init 2 10)).1
  = [1; 4].
Proof.
  apply (first_calls_admitted 2 10
           [(0%Q, "a"%string); (1%Q, "b"%string); (2%Q, "a"%string);
            (3%Q, "a"%string); (4%Q, "b"%string)] "b").
  vm_compute. lia.
Defined.

(** *** Emotion blending *)

Lemma lookup_blendPreset (preset : gmap string Q) (intensity : Q)
      (base : gmap string Q) (morph : string) :
  Emotion.blendPreset preset intensity base !! morph
  = match preset !! morph with
    | Some value =>
        Some (Emotion.saturate (default 0 (base !! morph) + value * intensity))
    | None => base !! morph
    end.
Proof.
  unfold Emotion.blendPreset. revert morph.
  apply (map_fold_weak_ind
           (fun (r : gmap string Q) (m : gmap string Q) =>
              forall k, r !! k
                        = match m !! k with
                          | Some value =>
                              Some (Emotion.saturate
                                      (default 0 (base !! k) + value * intensity))
                          | None => base !! k
                          end)).
  - intros k. now rewrite lookup_empty.
  - intros i x m r Hi IH k. cbv zeta. destruct (decide (i = k)) as [->|Hne].
    + rewrite !lookup_insert_eq. rewrite (IH k), Hi. reflexivity.
    + rewrite !lookup_insert_ne by exact Hne. apply IH.
Qed.

Lemma saturate_le_1 (x : Q) : Emotion.saturate x <= 1.
Proof.
  unfold Emotion.saturate. destruct (Qltb x 1) eqn:E; [|apply Qle_refl].
  apply Qltb_lt in E. lra.
Qed.

Lemma presets_nonnegative (emotion : string) (preset : gmap string Q)
      (morph : string) (value : Q) :
  Emotion.EMOTION_PRESETS emotion = Some preset ->
  preset !! morph = Some value -> 0 < value.
Proof.
  unfold Emotion.EMOTION_PRESETS. intros Hp Hv.
  destruct (String.eqb emotion "happy");
    [|destruct (String.eqb emotion "sad"); [|discriminate]];
    injection Hp as <-;
    repeat (apply lookup_insert_Some in Hv as [[_ <-]|[_ Hv]]; [reflexivity|]);
    rewrite lookup_empty in Hv; discriminate.
Qed.

(** X28.  [blend_emotion] returns the base map for an unknown emotion.
    For a known one it changes exactly the morphs of the preset: each
    becomes [min(1, base + value * intensity)], that is
    [base + value * intensity] when this sum is below 1 and 1 otherwise,
    with 0 standing for a missing base value; the result is at most 1 and,
    for a non-negative intensity and a base value of at most 1, not below
    the base value; every other morph keeps its base value. *)
Theorem blend_emotion_saturates
    (base : gmap string Q) (emotion : string) (intensity : Q) (morph : string) :
  (Emotion.EMOTION_PRESETS emotion = None ->
   Emotion.blend_emotion base emotion intensity = base)
  /\ (forall preset value,
        Emotion.EMOTION_PRESETS emotion = Some preset ->
        preset !! morph = Some value ->
        exists blended : Q,
          Emotion.blend_emotion base emotion intensity !! morph = Some blended
          /\ (default 0 (base !! morph) + value * intensity < 1 ->
              blended = default 0 (base !! morph) + value * intensity)
          /\ (1 <= default 0 (base !! morph) + value * intensity ->
              blended = 1)
          /\ blended <= 1
          /\ blended <= default 0 (base !! morph) + value * intensity
          /\ (0 <= intensity -> default 0 (base !! morph) <= 1 ->
              default 0 (base !! morph) <= blended))
  /\ (forall preset,
        Emotion.EMOTION_PRESETS emotion = Some preset ->
        preset !! morph = None ->
        Emotion.blend_emotion base emotion intensity !! morph = base !! morph).
Proof.
  unfold Emotion.blend_emotion. split; [|split].
  - now intros ->.
  - intros preset value Hp Hv. rewrite Hp, lookup_blendPreset, Hv.
    eexists. split; [reflexivity|].
    unfold Emotion.saturate.
    destruct (Qltb (default 0 (base !! morph) + value * intensity) 1) eqn:E.
    + apply Qltb_lt in E.
      split; [reflexivity|]. split; [intros H; lra|].
      split; [lra|]. split; [apply Qle_refl|].
      intros Hi Hb. pose proof (presets_nonnegative _ _ _ _ Hp Hv) as Hpos.
      assert (Hprod : 0 <= value * intensity)
        by (apply Qmult_le_0_compat; lra).
      lra.
    + apply Qltb_ge in E.
      split; [intros H; lra|]. split; [reflexivity|].
      split; [apply Qle_refl|]. split; [exact E|].
      intros _ Hb. exact Hb.
  - intros preset Hp Hv. now rewrite Hp, lookup_blendPreset, Hv.
Qed.

Lemma blend_emotion_saturates_witness :
  (exists blended : Q,
     Emotion.blend_emotion {[ "Mouth_Smile_L"%string := 1 # 10 ]} "happy" (1 # 2)
       !! "Mouth_Smile_L"%string = Some blended
     /\ blended = (1 # 10) + (3 # 5) * (1 # 2))
  /\ (exists blended : Q,
        Emotion.blend_emotion {[ "Mouth_Smile_L"%string := 7 # 10 ]} "happy" 1
          !! "Mouth_Smile_L"%string = Some blended
        /\ blended = 1).
Proof.
  split.
  - destruct (blend_emotion_saturates {[ "Mouth_Smile_L"%string := 1 # 10 ]}
                "happy" (1 # 2) "Mouth_Smile_L") as (_ & H & _).
    destruct (H _ (3 # 5) eq_refl) as (b & Hb & Hlt & _); [reflexivity|].
    exists b. split; [exact Hb|]. apply Hlt. reflexivity.
  - destruct (blend_emotion_saturates {[ "Mouth_Smile_L"%string := 7 # 10 ]}
                "happy" 1 "Mouth_Smile_L") as (_ & H & _).
    destruct (H _ (3 # 5) eq_refl) as (b & Hb & _ & Hsat & _); [reflexivity|].
    exists b. split; [exact Hb|]. apply Hsat. vm_compute. discriminate.
Defined.

End BackendFacts.
